(** * The Quint command-line drivers

    A shallow embedding of [quint/src/cliCommands.ts], in the later of its
    two revisions (the one that creates an [Evaluator] itself, lines 964
    to 2018): the seed handling ([mkRng]), the choice of the main module
    ([guessMainModule]), the test filter ([isMatchingTest]), the
    output-file templates ([expandOutputTemplate],
    [expandNamedOutputTemplate]), the ITF header ([addItfHeader]), the two
    drivers ([runSimulator], [runTests]), the final reporting step
    ([outputResult]), the options of the REPL ([runRepl]), and the
    verification with Apalache ([verifySpec], with the definitions that
    [compile] adds for it).

    Other modules of the tool (the evaluator, the ITF converter, the
    verbosity table, the parser front end, the error formatter) and the
    platform (regular expressions, [path.basename]) enter as section
    variables; the clock and the entropy of the random source are fields
    of an environment. Strings, [BigInt] and [replaceAll] follow the
    ECMAScript definitions. Console colours ([chalk]) are left out: a
    line is its text. *)

From Stdlib Require Import ZArith String Ascii List Bool Lia DecimalString HexString DecimalNat DecimalPos.
From stdpp Require Import base strings list gmap.

Set Warnings "-register-all".

Local Open Scope string_scope.
Local Open Scope list_scope.
Local Open Scope Z_scope.

(** ** Platform primitives (ECMAScript strings and numbers) *)

Module JS.

(** [s.startsWith(p)] *)
Fixpoint startsWith (p s : string) : bool :=
  match p, s with
  | EmptyString, _ => true
  | String a p', String b s' => if Ascii.eqb a b then startsWith p' s' else false
  | String _ _, EmptyString => false
  end.

(** [s.includes(pat)] *)
Fixpoint includes (pat s : string) : bool :=
  startsWith pat s ||
  match s with
  | EmptyString => false
  | String _ s' => includes pat s'
  end.

(** [s.endsWith(suffix)] *)
Definition endsWith (suffix s : string) : bool :=
  startsWith (String.rev suffix) (String.rev s).

(** [s.substring(n)] *)
Fixpoint substringFrom (n : nat) (s : string) : string :=
  match n, s with
  | O, _ => s
  | S k, String _ s' => substringFrom k s'
  | S _, EmptyString => EmptyString
  end.

(** The abstract operation GetSubstitution for a string pattern (no
    capture groups): in the replacement text, [$$] stands for a dollar
    sign, [$&] for the matched text, [$`] for the text before the match
    and [$'] for the text after it; any other dollar sign is literal. *)
Fixpoint GetSubstitution (matched before after templ : string) : string :=
  match templ with
  | EmptyString => EmptyString
  | String c r =>
      if Ascii.eqb c "$" then
        match r with
        | EmptyString => String c EmptyString
        | String d r' =>
            if Ascii.eqb d "$" then String "$" (GetSubstitution matched before after r')
            else if Ascii.eqb d "&" then matched +:+ GetSubstitution matched before after r'
            else if Ascii.eqb d "`" then before +:+ GetSubstitution matched before after r'
            else if Ascii.eqb d "'" then after +:+ GetSubstitution matched before after r'
            else String c (GetSubstitution matched before after r)
        end
      else String c (GetSubstitution matched before after r)
  end.

(** [s.replaceAll(search, repl)] with a string pattern: matches are
    found left to right without overlap; [before] is the text already
    scanned, [skip] the number of characters of the current match still
    to be passed over. *)
Fixpoint replaceAll_from (search repl before s : string) (skip : nat) {struct s} : string :=
  match skip with
  | S k =>
      match s with
      | EmptyString => EmptyString
      | String c s' => replaceAll_from search repl (before +:+ String c EmptyString) s' k
      end
  | O =>
      if startsWith search s then
        GetSubstitution search before (substringFrom (String.length search) s) repl +:+
        match s with
        | EmptyString => EmptyString
        | String c s' =>
            match String.length search with
            | O => String c (replaceAll_from search repl (before +:+ String c EmptyString) s' O)
            | S k => replaceAll_from search repl (before +:+ String c EmptyString) s' k
            end
        end
      else
        match s with
        | EmptyString => EmptyString
        | String c s' => String c (replaceAll_from search repl (before +:+ String c EmptyString) s' O)
        end
  end.

Definition replaceAll (s search repl : string) : string :=
  replaceAll_from search repl EmptyString s O.

(** [s.split(sep)] for a separator of one character. *)
Fixpoint split (sep : ascii) (s : string) : list string :=
  match s with
  | EmptyString => [EmptyString]
  | String c s' =>
      if Ascii.eqb c sep then EmptyString :: split sep s'
      else match split sep s' with
           | p :: ps => String c p :: ps
           | [] => [String c EmptyString]
           end
  end.

(** [parts.join(sep)] *)
Fixpoint join (sep : string) (parts : list string) : string :=
  match parts with
  | [] => EmptyString
  | p :: ps =>
      match ps with
      | [] => p
      | _ :: _ => p +:+ sep +:+ join sep ps
      end
  end.

(** [index.toString()] of a non-negative integer (array indices). *)
Definition Number_toString (n : nat) : string :=
  NilZero.string_of_uint (Nat.to_uint n).

(** [n.toString()] of an integral number. *)
Definition Integer_toString (z : Z) : string :=
  match z with
  | Z0 => "0"
  | Zpos p => NilZero.string_of_uint (Pos.to_uint p)
  | Zneg p => String "-" (NilZero.string_of_uint (Pos.to_uint p))
  end.

(** [b.toString(16)] of a big integer. *)
Definition BigInt_toString16 (z : Z) : string :=
  match z with
  | Z0 => "0"
  | Zpos p => HexString.Raw.of_pos p EmptyString
  | Zneg p => String "-" (HexString.Raw.of_pos p EmptyString)
  end.

(** *** [BigInt(text)]: the StringToBigInt grammar

    Optional white space around either nothing (the value 0), a decimal
    literal with an optional sign, or an unsigned literal with one of the
    prefixes 0x, 0o, 0b (either case). Anything else is a SyntaxError,
    modelled as [None]. White space is the ASCII part of StrWhiteSpace. *)

Definition isWhiteSpace (c : ascii) : bool :=
  let n := nat_of_ascii c in
  (Nat.eqb n 32 || Nat.eqb n 9 || Nat.eqb n 10 || Nat.eqb n 11 || Nat.eqb n 12 || Nat.eqb n 13)%bool.

Fixpoint trimStart (cs : list ascii) : list ascii :=
  match cs with
  | c :: cs' => if isWhiteSpace c then trimStart cs' else cs
  | [] => []
  end.

Definition trim (cs : list ascii) : list ascii :=
  rev (trimStart (rev (trimStart cs))).

Definition digitValue (c : ascii) : option Z :=
  let n := Z.of_nat (nat_of_ascii c) in
  if (48 <=? n) && (n <=? 57) then Some (n - 48)
  else if (97 <=? n) && (n <=? 102) then Some (n - 87)
  else if (65 <=? n) && (n <=? 70) then Some (n - 55)
  else None.

Fixpoint digitsFrom (base acc : Z) (cs : list ascii) : option Z :=
  match cs with
  | [] => Some acc
  | c :: cs' =>
      match digitValue c with
      | Some d => if d <? base then digitsFrom base (acc * base + d) cs' else None
      | None => None
      end
  end.

(** One digit at least. *)
Definition digits (base : Z) (cs : list ascii) : option Z :=
  match cs with
  | [] => None
  | _ :: _ => digitsFrom base 0 cs
  end.

Definition isPrefixLetter (lower : ascii) (c : ascii) : bool :=
  Ascii.eqb c lower || Nat.eqb (nat_of_ascii c + 32) (nat_of_ascii lower).

Definition StringToBigInt (text : string) : option Z :=
  match trim (list_ascii_of_string text) with
  | [] => Some 0
  | c :: rest =>
      if Ascii.eqb c "+" then digits 10 rest
      else if Ascii.eqb c "-" then Z.opp <$> digits 10 rest
      else if Ascii.eqb c "0" then
        match rest with
        | p :: ds =>
            if isPrefixLetter "x" p then digits 16 ds
            else if isPrefixLetter "o" p then digits 8 ds
            else if isPrefixLetter "b" p then digits 2 ds
            else digits 10 (c :: rest)
        | [] => digits 10 (c :: rest)
        end
      else digits 10 (c :: rest)
  end.

(** Truthiness of a value of type [string | undefined]. *)
Definition truthyString (o : option string) : bool :=
  match o with
  | Some s => negb (String.eqb s EmptyString)
  | None => false
  end.

(** Truthiness of a value of type [bigint | undefined]. *)
Definition truthyBigInt (o : option Z) : bool :=
  match o with
  | Some z => negb (z =? 0)
  | None => false
  end.

End JS.

(** ** Data model *)

(** [Either] of [@sweet-monads/either]. *)
Inductive Either (L R : Type) : Type :=
| Left (l : L)
| Right (r : R).
Arguments Left {L R} l.
Arguments Right {L R} r.

Definition isLeft {L R} (e : Either L R) : bool :=
  match e with Left _ => true | Right _ => false end.
Definition isRight {L R} (e : Either L R) : bool :=
  match e with Left _ => false | Right _ => true end.

(** [mergeInMany]: all the right values, or else all the left values. *)
Fixpoint mergeInMany {L R} (es : list (Either L R)) : Either (list L) (list R) :=
  match es with
  | [] => Right []
  | e :: es' =>
      match e, mergeInMany es' with
      | Right r, Right rs => Right (r :: rs)
      | Right _, Left ls => Left ls
      | Left l, Right _ => Left [l]
      | Left l, Left ls => Left (l :: ls)
      end
  end.

(** The types below are declared in modules that this file does not
    embed; each one lists what [cliCommands.ts] reads or writes of it. *)

(** Expressions of the intermediate representation ([ir/quintIr]). The
    drivers read [kind] and [value] of an expression (lines 1532, 1548,
    1549): the literals carry a [value] field, names and applications do
    not. *)
Inductive QuintEx : Type :=
| QuintName (id : Z) (name : string)
| QuintBool (id : Z) (value : bool)
| QuintInt (id : Z) (value : Z)
| QuintStr (id : Z) (value : string)
| QuintApp (id : Z) (opcode : string) (args : list QuintEx).

Definition kind (e : QuintEx) : string :=
  match e with
  | QuintName _ _ => "name"
  | QuintBool _ _ => "bool"
  | QuintInt _ _ => "int"
  | QuintStr _ _ => "str"
  | QuintApp _ _ _ => "app"
  end.

(** Truthiness of [(e as QuintBool).value]: the type assertion has no
    effect at run time, so the field is read from whatever [e] is. *)
Definition valueIsTruthy (e : QuintEx) : bool :=
  match e with
  | QuintBool _ b => b
  | QuintInt _ z => negb (z =? 0)
  | QuintStr _ s => negb (String.eqb s EmptyString)
  | QuintName _ _ | QuintApp _ _ _ => false
  end.

Record QuintError : Type := {
  code : string;
  message : string;
  reference : option Z;
}.

Record Loc : Type := {
  loc_source : string;
  loc_start : Z;
}.

Record ErrorMessage : Type := {
  explanation : string;
  locs : list Loc;
}.

Record QuintModule : Type := {
  mod_id : Z;
  mod_name : string;
}.

(** Entries of the lookup table ([names/base]): only [kind] and [name]
    are read here. *)
Record LookupDefinition : Type := {
  def_kind : string;
  def_name : string;
  def_id : Z;
}.

(** The status field of an output stage, line 1044. *)
Inductive Status : Type := ok | violation | failure | error.

(** [Outcome] of [./simulation]: the status is one of three. *)
Inductive OutcomeStatus : Type := st_ok | st_violation | st_error.

Record Outcome : Type := {
  status : OutcomeStatus;
  outcome_errors : list QuintError;
}.

Definition toStatus (s : OutcomeStatus) : Status :=
  match s with
  | st_ok => ok
  | st_violation => violation
  | st_error => error
  end.

(** Frames and traces kept by the trace recorder ([runtime/trace]);
    runtime values are shown already converted by [toQuintEx]. *)
Inductive ExecutionFrame : Type :=
| mkFrame (args : list QuintEx) (result : Either QuintError QuintEx)
          (subframes : list ExecutionFrame).

Definition frame_args (f : ExecutionFrame) : list QuintEx :=
  match f with mkFrame a _ _ => a end.
Definition frame_result (f : ExecutionFrame) : Either QuintError QuintEx :=
  match f with mkFrame _ r _ => r end.
Definition frame_subframes (f : ExecutionFrame) : list ExecutionFrame :=
  match f with mkFrame _ _ s => s end.

Record Trace : Type := {
  trace_frame : ExecutionFrame;
  trace_seed : Z;
}.

Inductive TestStatus : Type := passed | failed | ignored.

(** [TestResult] of [runtime/testing]. *)
Record TestResult : Type := {
  test_name : string;
  test_status : TestStatus;
  test_errors : list QuintError;
  test_seed : Z;
  test_frames : list ExecutionFrame;
  test_nsamples : Z;
}.

(** JSON values; the top level of an ITF document is a finite map from
    field names to values. *)
Inductive Json : Type :=
| JNull
| JBool (b : bool)
| JNum (n : Z)
| JStr (s : string)
| JArr (items : list Json)
| JObj (fields : list (string * Json)).

(** The command-line arguments, as parsed by yargs. *)
Record Args : Type := {
  input : string;
  main : option string;
  seed : option string;
  out : option string;
  outItf : option string;
  verbosity : Z;
  maxSamples : Z;
  maxSteps : Z;
  nTraces : option Z;
  init : string;
  step : string;
  invariant : string;
  mbt : bool;
  match_ : option string;
}.

(** A procedure stage. The interfaces [LoadedStage], [ParsedStage],
    [TypecheckedStage], [TestedStage] and [TracingStage] are views of one
    object that is copied and extended from stage to stage. *)
Record Stage : Type := {
  stage : string;
  args : Args;
  path : string;
  modules : list QuintModule;
  defaultModuleName : option string;
  sourceMap : gmap Z Loc;
  table : gmap Z LookupDefinition;
  definitionsByModule : gmap string (list (list LookupDefinition));
  st_passed : option (list string);
  st_failed : option (list string);
  st_ignored : option (list string);
  st_status : option Status;
  st_trace : option (list QuintEx);
  st_seed : option Z;
  st_errors : list ErrorMessage;
}.

Definition with_stage (name : string) (s : Stage) : Stage :=
  {| stage := name; args := args s; path := path s; modules := modules s;
     defaultModuleName := defaultModuleName s; sourceMap := sourceMap s;
     table := table s; definitionsByModule := definitionsByModule s;
     st_passed := st_passed s; st_failed := st_failed s; st_ignored := st_ignored s;
     st_status := st_status s; st_trace := st_trace s; st_seed := st_seed s;
     st_errors := st_errors s |}.

Definition with_errors (errs : list ErrorMessage) (s : Stage) : Stage :=
  {| stage := stage s; args := args s; path := path s; modules := modules s;
     defaultModuleName := defaultModuleName s; sourceMap := sourceMap s;
     table := table s; definitionsByModule := definitionsByModule s;
     st_passed := st_passed s; st_failed := st_failed s; st_ignored := st_ignored s;
     st_status := st_status s; st_trace := st_trace s; st_seed := st_seed s;
     st_errors := errs |}.

Definition with_seed (sd : option Z) (s : Stage) : Stage :=
  {| stage := stage s; args := args s; path := path s; modules := modules s;
     defaultModuleName := defaultModuleName s; sourceMap := sourceMap s;
     table := table s; definitionsByModule := definitionsByModule s;
     st_passed := st_passed s; st_failed := st_failed s; st_ignored := st_ignored s;
     st_status := st_status s; st_trace := st_trace s; st_seed := sd;
     st_errors := st_errors s |}.

Definition with_run (stat : Status) (tr : option (list QuintEx)) (s : Stage) : Stage :=
  {| stage := stage s; args := args s; path := path s; modules := modules s;
     defaultModuleName := defaultModuleName s; sourceMap := sourceMap s;
     table := table s; definitionsByModule := definitionsByModule s;
     st_passed := st_passed s; st_failed := st_failed s; st_ignored := st_ignored s;
     st_status := Some stat; st_trace := tr; st_seed := st_seed s;
     st_errors := st_errors s |}.

Definition with_tests (p f i : list string) (s : Stage) : Stage :=
  {| stage := stage s; args := args s; path := path s; modules := modules s;
     defaultModuleName := defaultModuleName s; sourceMap := sourceMap s;
     table := table s; definitionsByModule := definitionsByModule s;
     st_passed := Some p; st_failed := Some f; st_ignored := Some i;
     st_status := st_status s; st_trace := st_trace s; st_seed := st_seed s;
     st_errors := st_errors s |}.

(** The part of a stage that is written to [--out]. *)
Record OutputData : Type := {
  od_stage : string;
  od_passed : option (list string);
  od_failed : option (list string);
  od_ignored : option (list string);
  od_status : option Status;
  od_trace : option (list QuintEx);
  od_seed : option Z;
  od_errors : list ErrorMessage;
}.

Definition pickOutputStage (s : Stage) : OutputData :=
  {| od_stage := stage s; od_passed := st_passed s; od_failed := st_failed s;
     od_ignored := st_ignored s; od_status := st_status s; od_trace := st_trace s;
     od_seed := st_seed s; od_errors := st_errors s |}.

Record ErrResult : Type := {
  msg : string;
  err_stage : Stage;
}.

Definition CLIProcedure : Type := Either ErrResult Stage.

Definition cliErr (m : string) (s : Stage) : CLIProcedure :=
  Left {| msg := m; err_stage := s |}.

(** ** The random source *)

(** Modelled from the spec: the type [Rng] of the module [./rng], which
    is not among the sources. Section 4.2 makes the generator a
    deterministic function of its seed ("same seed, same draw sequence"),
    so a generator is represented by the seed it starts from. *)
Record Rng : Type := {
  rng_state : Z;
}.

(** What a run reads from its surroundings: the entropy behind a fresh
    seed and the clock ([Date.now()], [new Date()]). *)
Record Env : Type := {
  fresh_seed : Z;
  startMs : Z;
  endMs : Z;
  header_date : nat -> string;
  header_timestamp : nat -> Z;
}.

(** Modelled from the spec: [newRng] of the module [./rng], which is not
    among the sources. Section 6 has a fresh seed generated when none is
    supplied, and the doc comment of [mkRng] calls the generator made
    without a seed "reasonably unpredictable": the fresh seed is read from
    the environment. *)
Definition newRng (initialState : option Z) (env : Env) : Rng :=
  match initialState with
  | Some s => {| rng_state := s |}
  | None => {| rng_state := fresh_seed env |}
  end.

(** ** Effects: console output, files, the evaluator, exceptions *)

Inductive Written : Type :=
| OutputStageJson (data : OutputData)
| ItfJson (doc : gmap string Json).

Inductive Event : Type :=
| ConsoleLog (line : string)
| ConsoleError (line : string)
| PrintTrace (states : option (list QuintEx)) (frames : option (list ExecutionFrame))
| PrintFrame (f : ExecutionFrame)
| WriteJson (filename : string) (content : Written)
| NewEvaluator (rng : Rng)
| Simulate (rng : Rng)
| RunTest (def : LookupDefinition)
| ProcessExit (exitCode : Z).

Inductive Completion (A : Type) : Type :=
| Val (a : A)
| Throw (exn : string).
Arguments Val {A} a.
Arguments Throw {A} exn.

(** A computation: the events it caused, and a value or an exception. *)
Definition M (A : Type) : Type := list Event * Completion A.

Definition ret {A} (a : A) : M A := ([], Val a).
Definition throw {A} (exn : string) : M A := ([], Throw exn).
Definition emit (e : Event) : M unit := ([e], Val tt).

Definition bind {A B} (m : M A) (k : A -> M B) : M B :=
  match m with
  | (evs, Val a) => let '(evs', r) := k a in (evs ++ evs', r)
  | (evs, Throw exn) => (evs, Throw exn)
  end.

Notation "'let*' x ':=' c1 'in' c2" := (bind c1 (fun x => c2))
  (at level 10, x name, c1 at level 100, c2 at level 200).
Notation "c1 ;; c2" := (bind c1 (fun _ => c2))
  (at level 100, c2 at level 200, right associativity).

Definition when (b : bool) (m : M unit) : M unit :=
  if b then m else ret tt.

(** [xs.forEach((x, index) => f index x)] *)
Fixpoint forEach_from {A} (f : nat -> A -> M unit) (i : nat) (xs : list A) : M unit :=
  match xs with
  | [] => ret tt
  | x :: xs' => f i x ;; forEach_from f (S i) xs'
  end.
Definition forEach {A} (f : nat -> A -> M unit) (xs : list A) : M unit :=
  forEach_from f O xs.

(** [xs.filter(p)] for a predicate that may throw. *)
Fixpoint filterM {A} (p : A -> M bool) (xs : list A) : M (list A) :=
  match xs with
  | [] => ret []
  | x :: xs' =>
      let* b := p x in
      let* ys := filterM p xs' in
      ret (if b then x :: ys else ys)
  end.

#[global] Instance Loc_eq_dec : EqDecision Loc.
Proof. solve_decision. Defined.
#[global] Instance ErrorMessage_eq_dec : EqDecision ErrorMessage.
Proof. solve_decision. Defined.

(** [uniqWith(xs, isEqual)] of lodash: the first occurrence of each
    element, in order. *)
Fixpoint uniqWith_from {A} `{EqDecision A} (seen xs : list A) : list A :=
  match xs with
  | [] => []
  | x :: xs' =>
      if bool_decide (x ∈ seen) then uniqWith_from seen xs'
      else x :: uniqWith_from (seen ++ [x]) xs'
  end.
Definition uniqWith {A} `{EqDecision A} (xs : list A) : list A := uniqWith_from [] xs.

(** ** cliCommands.ts: the helpers *)

Definition PLACEHOLDERS_test : string := "{test}".
Definition PLACEHOLDERS_seq : string := "{seq}".

(** Lines 2006-2018. *)
Definition expandOutputTemplate (template : string) (index : nat) (autoAppend : bool) : string :=
  if JS.includes PLACEHOLDERS_seq template then
    JS.replaceAll template PLACEHOLDERS_seq (JS.Number_toString index)
  else if autoAppend then
    let parts := JS.split "." template in
    JS.join "."
      match parts with
      | p0 :: rest => (p0 +:+ JS.Number_toString index) :: rest
      | [] => ["undefined" +:+ JS.Number_toString index]
      end
  else template.

(** Lines 1984-1991. *)
Definition expandNamedOutputTemplate (template name : string) (index : nat) (autoAppend : bool) : string :=
  expandOutputTemplate (JS.replaceAll template PLACEHOLDERS_test name) index autoAppend.

(** Lines 1959-1961. *)
Definition deriveVerbosity (a : Args) : Z :=
  if JS.truthyString (out a) then 0 else verbosity a.

(** Lines 1878-1891: the seed text is converted inside [try]; the
    generator is then chosen by the truthiness of the seed. *)
Definition mkRng (env : Env) (seedText : option string) : Either string Rng :=
  let converted : Either string (option Z) :=
    match seedText with
    | Some text =>
        match JS.StringToBigInt text with
        | Some z => Right (Some z)
        | None => Left ("--seed must be a big integer, found: " +:+ text)
        end
    | None => Right None
    end in
  match converted with
  | Left m => Left m
  | Right seed0 => Right (if JS.truthyBigInt seed0 then newRng seed0 env else newRng None env)
  end.

(** Lines 1893-1905: the properties of the trace are spread after the
    ['#meta'] property, so a property of the trace wins over it. [k] is
    the number of the clock reading. *)
Definition itfMeta (env : Env) (k : nat) (source status : string) : Json :=
  JObj [("format", JStr "ITF");
        ("format-description", JStr "https://apalache.informal.systems/docs/adr/015adr-trace.html");
        ("source", JStr source);
        ("status", JStr status);
        ("description", JStr ("Created by Quint on " +:+ header_date env k));
        ("timestamp", JNum (header_timestamp env k))].

Definition addItfHeader (env : Env) (k : nat) (source status : string)
    (traceInJson : gmap string Json) : gmap string Json :=
  traceInJson ∪ {[ "#meta" := itfMeta env k source status ]}.

(** Lines 1192-1193 of [parse]: the default main module. *)
Definition defaultModuleNameOf (phase1Modules : list QuintModule) : option string :=
  if Nat.eqb (length phase1Modules) 1 then mod_name <$> head phase1Modules else None.

(** [modules.find(m => m.name === mainName)] *)
Definition findModule (mainName : string) (ms : list QuintModule) : option QuintModule :=
  List.find (fun m => String.eqb (mod_name m) mainName) ms.

Definition nTracesAboveOne (a : Args) : bool :=
  match nTraces a with
  | Some n => 1 <? n
  | None => false
  end.

(** Lines 1936-1939. The event records the call: the file name as it
    is given, before [resolve] makes a path of it, and the document to
    write; the write is taken to succeed. *)
Definition writeToJson (filename : string) (json : Written) : M unit :=
  emit (WriteJson filename json).

Definition consoleLog (line : string) : M unit := emit (ConsoleLog line).
Definition consoleError (line : string) : M unit := emit (ConsoleError line).

(** The hint that names the seed, lines 1838 and 1853. *)
Definition seedHint (s : Z) : string :=
  "Use --seed=0x" +:+ JS.BigInt_toString16 s +:+ " to reproduce.".

(** The hint printed for a failed test, line 1420. *)
Definition testSeedHint (r : TestResult) : string :=
  "    Use --seed=0x" +:+ JS.BigInt_toString16 (test_seed r) +:+ " --match=" +:+ test_name r +:+ " to repeat.".

(** What the evaluator hands back from [simulate]: its verdict, the
    traces kept by the recorder, and the names of the state variables. *)
Record SimulationRun : Type := {
  evalResult : Either QuintError QuintEx;
  bestTraces : list Trace;
  varNames : list string;
}.

(** One call of the [onTrace] callback of a test. *)
Record TraceCall : Type := {
  tc_name : string;
  tc_status : string;
  tc_vars : list string;
  tc_states : list QuintEx;
}.

(** Lines 1531-1533. *)
Definition outcomeOf (evalResult : Either QuintError QuintEx) : Outcome :=
  match evalResult with
  | Right v => {| status := if valueIsTruthy v then st_ok else st_violation; outcome_errors := [] |}
  | Left e => {| status := st_error; outcome_errors := [e] |}
  end.

(** ** Reading a result *)

Definition stageOf (res : CLIProcedure) : Stage :=
  match res with
  | Left e => err_stage e
  | Right st => st
  end.

(** The field [name] of a JSON object. *)
Fixpoint fieldOf (name : string) (fields : list (string * Json)) : option Json :=
  match fields with
  | [] => None
  | (k, v) :: fields' => if String.eqb k name then Some v else fieldOf name fields'
  end.

Definition asRunTest (ev : Event) : option LookupDefinition :=
  match ev with RunTest d => Some d | _ => None end.

(** The definitions handed to [evaluator.test], in the order of the
    calls. *)
Definition testsRun (evs : list Event) : list LookupDefinition := omap asRunTest evs.

(** A JSON value that holds the seed [s] as a number, or as a text in
    hexadecimal or decimal notation. *)
Fixpoint jsonMentions (s : Z) (j : Json) : bool :=
  match j with
  | JNum n => n =? s
  | JStr t => JS.includes ("0x" +:+ JS.BigInt_toString16 s) t || JS.includes (JS.Integer_toString s) t
  | JArr items => existsb (jsonMentions s) items
  | JObj fields => existsb (fun kv => jsonMentions s (snd kv)) fields
  | JNull | JBool _ => false
  end.

(** An event that shows the seed [s] to the user: a console line with
    the option [--seed=0x...], the seed field of the [--out] file, or an
    ITF file with the seed somewhere in it. *)
Definition surfacesSeed (s : Z) (ev : Event) : bool :=
  match ev with
  | ConsoleLog l | ConsoleError l => JS.includes ("--seed=0x" +:+ JS.BigInt_toString16 s) l
  | WriteJson _ (OutputStageJson d) => bool_decide (od_seed d = Some s)
  | WriteJson _ (ItfJson doc) => existsb (fun kv => jsonMentions s (snd kv)) (map_to_list doc)
  | _ => false
  end.

(** Replacement of every occurrence of [search], read from left to right,
    by the text [repl] itself. *)
Fixpoint substituteAll (search repl s : string) (skip : nat) {struct s} : string :=
  match s with
  | EmptyString => if Nat.eqb skip 0 && JS.startsWith search s then repl else EmptyString
  | String c s' =>
      match skip with
      | S k => substituteAll search repl s' k
      | O =>
          if JS.startsWith search s then
            repl +:+
            match String.length search with
            | O => String c (substituteAll search repl s' O)
            | S k => substituteAll search repl s' k
            end
          else String c (substituteAll search repl s' O)
      end
  end.

(** The text before the first occurrence of the character [c], and the
    text from that occurrence on. *)
Fixpoint beforeFirst (c : ascii) (s : string) : string :=
  match s with
  | EmptyString => EmptyString
  | String d s' => if Ascii.eqb d c then EmptyString else String d (beforeFirst c s')
  end.

Fixpoint fromFirst (c : ascii) (s : string) : string :=
  match s with
  | EmptyString => EmptyString
  | String d s' => if Ascii.eqb d c then s else fromFirst c s'
  end.

Fixpoint occursIn (c : ascii) (s : string) : bool :=
  match s with
  | EmptyString => false
  | String d s' => Ascii.eqb d c || occursIn c s'
  end.

(** A computation that only produces output: it does not throw, and it
    neither touches the evaluator nor ends the process. *)
Definition isOutput (ev : Event) : bool :=
  match ev with
  | ConsoleLog _ | ConsoleError _ | PrintTrace _ _ | PrintFrame _ | WriteJson _ _ => true
  | NewEvaluator _ | Simulate _ | RunTest _ | ProcessExit _ => false
  end.

Definition outputOnly (m : M unit) : Prop :=
  snd m = Val tt /\ Forall (fun ev => isOutput ev = true) (fst m).

(** ** cliCommands.ts: the drivers *)

Section Drivers.

(** *** Collaborators that are not part of this file *)

(** [basename] of the platform's [path] module. *)
Variable basename : string -> string -> string.
(** [new RegExp(pattern).exec(text) !== null]; [None] when the pattern
    is rejected with a SyntaxError. *)
Variable regExpExec : string -> string -> option bool.
(** [quintErrorToString] of [./quintError]. *)
Variable quintErrorToString : QuintError -> string.
(** [formatError] of [./errorReporter], for the sources of the stage. *)
Variable formatError : Stage -> ErrorMessage -> string.
(** The predicates of [./verbosity]. *)
Variable hasResults hasTestDetails hasHints hasStateOutput hasActionTracking : Z -> bool.
(** The objects of the stage that [toExpr] works on and changes: the
    generator of identifiers, the source map and the name resolver
    with the errors it has recorded. The three calls of [toExpr] share
    them, so a call sees what the calls before it have left. *)
Variable FrontEnd : Type.
Variable frontEndOf : Stage -> FrontEnd.
(** [parseExpressionOrDeclaration(input, '<input>', prev.idGen,
    prev.sourceMap)]: the expression when the result is of kind
    ['expr'], and the front end afterwards. *)
Variable parseExpressionOrDeclaration : FrontEnd -> string -> option QuintEx * FrontEnd.
(** [prev.resolver.switchToModule(mainName)] followed by
    [walkExpression(prev.resolver, expr)]. *)
Variable walkExpression : FrontEnd -> string -> QuintEx -> FrontEnd.
(** [prev.resolver.errors] and [prev.sourceMap] *)
Variable resolverErrors : FrontEnd -> list QuintError.
Variable sourceMapOf : FrontEnd -> gmap Z Loc.
(** [toItf] of [./itf]. *)
Variable toItf : list string -> list QuintEx -> Either string (gmap string Json).
(** [new Evaluator(table, recorder, rng, storeMetadata).simulate(init,
    step, invariant, maxSamples, maxSteps, nTraces)], where the recorder
    is [newTraceRecorder(verbosity, rng, numberOfTraces)]. The call is
    read as one that returns: what it answers is a function of its
    arguments, and an exception of the evaluator is not part of this
    reading. *)
Variable simulate :
  gmap Z LookupDefinition -> Z -> Rng -> option Z -> bool ->
  QuintEx -> QuintEx -> QuintEx -> Z -> Z -> Z -> SimulationRun.
(** The evaluator of the test driver: its state, its construction
    [new Evaluator(table, newTraceRecorder(verbosity, rng, 1), rng)] and
    [test(def, maxSamples, onTrace)], which yields a result, the calls
    it made to [onTrace], and the state it leaves behind. *)
Variable EvalState : Type.
Variable newEvaluator : gmap Z LookupDefinition -> Z -> Rng -> EvalState.
Variable test : EvalState -> LookupDefinition -> Z -> TestResult * list TraceCall * EvalState.

(** Lines 1222-1230. *)
Definition mkErrorMessage (sm : gmap Z Loc) (e : QuintError) : ErrorMessage :=
  let loc := if JS.truthyBigInt (reference e) then reference e ≫= (fun r => sm !! r) else None in
  {| explanation := quintErrorToString e;
     locs := match loc with Some l => [l] | None => [] end |}.

(** Lines 1861-1872. *)
Definition guessMainModule (st : Stage) : string :=
  if JS.truthyString (main (args st)) then default EmptyString (main (args st))
  else
    match defaultModuleName st with
    | Some name => name
    | None => basename (input (args st)) ".qnt"
    end.

(** Lines 1950-1956. *)
Definition isMatchingTest (pattern : option string) (name : string) : M bool :=
  if JS.truthyString pattern then
    match regExpExec (default EmptyString pattern) name with
    | Some b => ret b
    | None => throw "SyntaxError"
    end
  else ret (JS.endsWith "Test" name).

(** Lines 1434-1443. *)
Definition maybePrintCounterExample (verbosityLevel : Z)
    (states : option (list QuintEx)) (frames : option (list ExecutionFrame)) : M unit :=
  when (hasStateOutput verbosityLevel)
    (consoleLog ("An example execution:" +:+ String (ascii_of_nat 10) EmptyString) ;;
     emit (PrintTrace states frames)).

(** *** [outputResult], lines 1830-1859 *)

Definition outputResult (result : CLIProcedure) : M unit :=
  match result with
  | Right st =>
      let verbosityLevel := deriveVerbosity (args st) in
      let outputData := pickOutputStage st in
      (if JS.truthyString (out (args st)) then
         writeToJson (default EmptyString (out (args st))) (OutputStageJson outputData)
       else
         when (negb (JS.truthyString (outItf (args st))) && JS.truthyBigInt (od_seed outputData)
               && hasResults verbosityLevel)
           (consoleLog (seedHint (default 0 (od_seed outputData))))) ;;
      emit (ProcessExit 0)
  | Left e =>
      let st := err_stage e in
      let verbosityLevel := deriveVerbosity (args st) in
      let outputData := pickOutputStage st in
      (if JS.truthyString (out (args st)) then
         writeToJson (default EmptyString (out (args st))) (OutputStageJson outputData)
       else
         forEach (fun _ err => consoleError (formatError st err)) (uniqWith (st_errors st)) ;;
         when (negb (JS.truthyString (outItf (args st))) && JS.truthyBigInt (od_seed outputData)
               && hasResults verbosityLevel)
           (consoleLog (seedHint (default 0 (od_seed outputData)))) ;;
         consoleError ("error: " +:+ msg e)) ;;
      emit (ProcessExit 1)
  end.

(** The exit code of the process: the first [process.exit]. *)
Fixpoint exitCode (evs : list Event) : option Z :=
  match evs with
  | [] => None
  | ProcessExit c :: _ => Some c
  | _ :: evs' => exitCode evs'
  end.

(** *** [runSimulator], lines 1450-1598 *)

(** The [onTrace] callback, lines 1478-1490. *)
Definition onTraceOfRun (env : Env) (prev : Stage) (index : nat) (status : string)
    (vars : list string) (states : list QuintEx) : M unit :=
  let itfFile := outItf (args prev) in
  when (JS.truthyString itfFile)
    (let filename :=
       expandOutputTemplate (default EmptyString itfFile) index (nTracesAboveOne (args prev)) in
     match toItf vars states with
     | Right tr =>
         writeToJson filename (ItfJson (addItfHeader env index (input (args prev)) status tr))
     | Left why =>
         consoleError ("ITF conversion failed on " +:+ JS.Number_toString index +:+ ": " +:+ why)
     end).

(** The loop over the best traces, lines 1539-1554: the [return] of the
    first branch leaves the callback only; the assertion throws. *)
Definition reportBestTrace (env : Env) (prev : Stage) (vars : list string)
    (index : nat) (tr : Trace) : M unit :=
  match frame_result (trace_frame tr) with
  | Left _ => ret tt
  | Right quintExResult =>
      if String.eqb (kind quintExResult) "bool" then
        let status := if valueIsTruthy quintExResult then "ok" else "violation" in
        onTraceOfRun env prev index status vars (frame_args (trace_frame tr))
      else throw "AssertionError: invalid simulation produced non-boolean value "
  end.

(** [toExpr], lines 1495-1508, on the front end [fe]: the answer, and
    the front end that the call leaves. *)
Definition toExpr (mainName : string) (fe : FrontEnd) (input : string)
    : Either QuintError QuintEx * FrontEnd :=
  match parseExpressionOrDeclaration fe input with
  | (None, fe1) =>
      (Left {| code := "QNT501";
               message := "Expected " +:+ input +:+ " to be a valid expression";
               reference := None |}, fe1)
  | (Some expr, fe1) =>
      let fe2 := walkExpression fe1 mainName expr in
      match resolverErrors fe2 with
      | e :: _ => (Left e, fe2)
      | [] => (Right expr, fe2)
      end
  end.

(** [inputs.map(toExpr)]: the calls in order, each on the front end
    that the call before it has left; the answers, and the front end
    after the last call. *)
Fixpoint mapToExpr (mainName : string) (fe : FrontEnd) (inputs : list string)
    : list (Either QuintError QuintEx) * FrontEnd :=
  match inputs with
  | [] => ([], fe)
  | input :: inputs' =>
      let '(answer, fe1) := toExpr mainName fe input in
      let '(answers, fe2) := mapToExpr mainName fe1 inputs' in
      (answer :: answers, fe2)
  end.

(** Line 1510: the three expressions of the command line, parsed. *)
Definition argsParsing (prev : Stage) : list (Either QuintError QuintEx) * FrontEnd :=
  mapToExpr (guessMainModule prev) (frontEndOf prev)
            [init (args prev); step (args prev); invariant (args prev)].

Definition runSimulator (env : Env) (prev : Stage) : M CLIProcedure :=
  let simulator := with_stage "running" prev in
  let verbosityLevel :=
    if JS.truthyString (outItf (args prev)) then 0 else deriveVerbosity (args prev) in
  let mainName := guessMainModule prev in
  match findModule mainName (modules prev) with
  | None =>
      let err := {| code := "QNT405";
                    message := "Main module " +:+ mainName +:+ " not found";
                    reference := None |} in
      ret (cliErr "Argument error" (with_errors [mkErrorMessage (sourceMap prev) err] prev))
  | Some _ =>
      match mkRng env (seed (args prev)) with
      | Left why => ret (cliErr why (with_errors [] simulator))
      | Right rng =>
          let a := args prev in
          match mergeInMany (fst (argsParsing prev)) with
          | Left errs =>
              ret (cliErr "Argument error" (with_errors (map (mkErrorMessage ∅) errs) simulator))
          | Right parsed =>
              match parsed with
              | [init0; step0; invariant0] =>
                  emit (NewEvaluator rng) ;;
                  emit (Simulate rng) ;;
                  let run :=
                    simulate (table prev) verbosityLevel rng (nTraces a) (mbt a)
                             init0 step0 invariant0 (maxSamples a) (maxSteps a)
                             (default 1 (nTraces a)) in
                  let elapsedMs := endMs env - startMs env in
                  let outcome := outcomeOf (evalResult run) in
                  let first := head (bestTraces run) in
                  let states := (fun t => frame_args (trace_frame t)) <$> first in
                  let frames := (fun t => frame_subframes (trace_frame t)) <$> first in
                  let simulator := with_seed (trace_seed <$> first) simulator in
                  forEach (reportBestTrace env prev (varNames run)) (bestTraces run) ;;
                  match status outcome with
                  | st_error =>
                      ret (cliErr "Runtime error"
                             (with_errors (map (mkErrorMessage (sourceMapOf (snd (argsParsing prev))))
                                       (outcome_errors outcome))
                                (with_run error states simulator)))
                  | st_ok =>
                      maybePrintCounterExample verbosityLevel states frames ;;
                      when (hasResults verbosityLevel)
                        (consoleLog ("[ok] No violation found (" +:+ JS.Integer_toString elapsedMs +:+ "ms).") ;;
                         when (hasHints verbosityLevel)
                           (consoleLog "You may increase --max-samples and --max-steps." ;;
                            consoleLog "Use --verbosity to produce more (or less) output.")) ;;
                      ret (Right (with_run ok states simulator))
                  | st_violation =>
                      maybePrintCounterExample verbosityLevel states frames ;;
                      when (hasResults verbosityLevel)
                        (consoleLog ("[violation] Found an issue (" +:+ JS.Integer_toString elapsedMs +:+ "ms).") ;;
                         when (hasHints verbosityLevel)
                           (consoleLog "Use --verbosity=3 to show executions.")) ;;
                      ret (cliErr "Invariant violated" (with_errors [] (with_run violation states simulator)))
                  end
              | _ => throw "unreachable: three expressions were merged"
              end
          end
      end
  end.

(** What the evaluator answers in a run whose configuration is
    accepted (the main module exists, the seed and the three
    expressions are well formed); [None] for the other runs. *)
Definition simulationOf (env : Env) (prev : Stage) : option SimulationRun :=
  let mainName := guessMainModule prev in
  let a := args prev in
  let verbosityLevel :=
    if JS.truthyString (outItf a) then 0 else deriveVerbosity a in
  match findModule mainName (modules prev), mkRng env (seed a),
        mergeInMany (fst (argsParsing prev)) with
  | Some _, Right rng, Right [init0; step0; invariant0] =>
      Some (simulate (table prev) verbosityLevel rng (nTraces a) (mbt a)
                     init0 step0 invariant0 (maxSamples a) (maxSteps a)
                     (default 1 (nTraces a)))
  | _, _, _ => None
  end.

(** *** [runTests], lines 1278-1431 *)

(** The [onTrace] callback of test number [index], lines 1301-1312;
    [k] counts the calls made during that test. *)
Definition onTraceOfTest (env : Env) (prev : Stage) (index k : nat) (call : TraceCall) : M unit :=
  let outputTemplate := outItf (args prev) in
  when (JS.truthyString outputTemplate)
    (let filename :=
       expandNamedOutputTemplate (default EmptyString outputTemplate) (tc_name call) index
         (nTracesAboveOne (args prev)) in
     match toItf (tc_vars call) (tc_states call) with
     | Right tr =>
         writeToJson filename
           (ItfJson (addItfHeader env (index + k) (input (args prev)) (tc_status call) tr))
     | Left why =>
         consoleError ("ITF conversion failed on " +:+ tc_name call +:+ ": " +:+ why)
     end).

(** Line 1328: [d.kind === 'def' && options.testMatch(d.name)]. *)
Definition testFilter (prev : Stage) (d : LookupDefinition) : M bool :=
  if String.eqb (def_kind d) "def"
  then isMatchingTest (match_ (args prev)) (def_name d)
  else ret false.

(** Lines 1326-1328: the definitions of the main module that are run. *)
Definition selectTests (prev : Stage) (mainName : string) : M (list LookupDefinition) :=
  match definitionsByModule prev !! mainName with
  | None => throw "TypeError: Cannot read properties of undefined (reading 'values')"
  | Some byName => filterM (testFilter prev) (concat byName)
  end.

(** Lines 1331-1333: one evaluator runs the selected tests in turn. *)
Fixpoint runTestDefs (env : Env) (prev : Stage) (ev : EvalState) (index : nat)
    (defs : list LookupDefinition) : M (list TestResult) :=
  match defs with
  | [] => ret []
  | d :: defs' =>
      emit (RunTest d) ;;
      let '(res, calls, ev') := test ev d (maxSamples (args prev)) in
      forEach (onTraceOfTest env prev index) calls ;;
      let* rest := runTestDefs env prev ev' (S index) defs' in
      ret (res :: rest)
  end.

Definition isPassed (r : TestResult) : bool :=
  match test_status r with passed => true | _ => false end.
Definition isFailed (r : TestResult) : bool :=
  match test_status r with failed => true | _ => false end.
Definition isIgnored (r : TestResult) : bool :=
  match test_status r with ignored => true | _ => false end.

(** Lines 1339-1351; [nFailures] is the running count. *)
Fixpoint reportStatuses (nFailures : Z) (results : list TestResult) : M unit :=
  match results with
  | [] => ret tt
  | res :: results' =>
      when (isPassed res)
        (consoleLog ("    ok " +:+ test_name res +:+ " passed " +:+
                     JS.Integer_toString (test_nsamples res) +:+ " test(s)")) ;;
      when (isFailed res)
        (consoleLog ("    " +:+ JS.Integer_toString nFailures +:+ ") " +:+ test_name res +:+
                     " failed after " +:+ JS.Integer_toString (test_nsamples res) +:+ " test(s)")) ;;
      reportStatuses (if isFailed res then nFailures + 1 else nFailures) results'
  end.

(** Lines 1356-1360. *)
Definition namedErrorsOf (sm : gmap Z Loc) (failedResults : list TestResult)
    : list (TestResult * ErrorMessage) :=
  flat_map (fun failure => map (fun e => (failure, mkErrorMessage sm e)) (test_errors failure))
           failedResults.

(** Lines 1395-1421: the report of one captured error. *)
Definition reportNamedError (verbosityLevel : Z) (prev : Stage) (index : nat)
    (named : TestResult * ErrorMessage) : M unit :=
  let '(testResult, err) := named in
  let details := formatError prev err in
  consoleLog ("  " +:+ JS.Number_toString (index + 1) +:+ ") " +:+ test_name testResult +:+ ":") ;;
  forEach (fun _ l => consoleLog ("      " +:+ l))
          (take 2 (JS.split (ascii_of_nat 10) details)) ;;
  when (hasActionTracking verbosityLevel)
    (consoleLog "" ;;
     forEach (fun i f =>
                consoleLog ("[Frame " +:+ JS.Number_toString i +:+ "]") ;;
                emit (PrintFrame f) ;;
                consoleLog "")
             (test_frames testResult) ;;
     when (Nat.eqb (length (test_frames testResult)) 0) (consoleLog "    [No execution]")) ;;
  consoleLog (testSeedHint testResult).

Definition runTests (env : Env) (prev : Stage) : M CLIProcedure :=
  let testing := with_stage "testing" prev in
  let verbosityLevel := deriveVerbosity (args prev) in
  let mainName := guessMainModule prev in
  match findModule mainName (modules prev) with
  | None =>
      let err := {| code := "QNT405";
                    message := "Main module " +:+ mainName +:+ " not found";
                    reference := None |} in
      ret (cliErr "Argument error" (with_errors [mkErrorMessage (sourceMap prev) err] testing))
  | Some _ =>
      match mkRng env (seed (args prev)) with
      | Left why => ret (cliErr why (with_errors [] testing))
      | Right rng =>
          when (hasResults verbosityLevel)
            (consoleLog (String (ascii_of_nat 10) "  " +:+ mainName)) ;;
          let* testDefs := selectTests prev mainName in
          emit (NewEvaluator rng) ;;
          let evaluator := newEvaluator (table testing) verbosityLevel rng in
          let* results := runTestDefs env prev evaluator O testDefs in
          let elapsedMs := endMs env - startMs env in
          when (hasResults verbosityLevel) (reportStatuses 1 results) ;;
          let passedResults := List.filter isPassed results in
          let failedResults := List.filter isFailed results in
          let ignoredResults := List.filter isIgnored results in
          let namedErrors := namedErrorsOf (sourceMap testing) failedResults in
          when (hasResults verbosityLevel)
            (consoleLog "" ;;
             when (0 <? length passedResults)%nat
               (consoleLog ("  " +:+ JS.Number_toString (length passedResults) +:+ " passing (" +:+
                            JS.Integer_toString elapsedMs +:+ "ms)")) ;;
             when (0 <? length failedResults)%nat
               (consoleLog ("  " +:+ JS.Number_toString (length failedResults) +:+ " failed")) ;;
             when (0 <? length ignoredResults)%nat
               (consoleLog ("  " +:+ JS.Number_toString (length ignoredResults) +:+ " ignored"))) ;;
          let st :=
            with_errors []
              (with_tests (map test_name passedResults) (map test_name failedResults)
                          (map test_name ignoredResults) testing) in
          if Nat.eqb (length failedResults) 0 then ret (Right st)
          else
            when (hasTestDetails verbosityLevel)
              (consoleLog "" ;;
               forEach (reportNamedError verbosityLevel prev) namedErrors ;;
               consoleLog "") ;;
            when (hasHints verbosityLevel && negb (hasActionTracking verbosityLevel))
              (consoleLog (String (ascii_of_nat 10) "  Use --verbosity=3 to show executions.") ;;
               consoleLog ("  Further debug with: quint test --verbosity=3 " +:+ input (args prev))) ;;
            ret (cliErr "Tests failed" st)
      end
  end.

(** *** The drivers read back: helpers for the statements below *)

(** What [outputResult] prints or writes before it ends the process. *)
Definition reportOf (res : CLIProcedure) : M unit :=
  let st := stageOf res in
  let seedLine :=
    when (negb (JS.truthyString (outItf (args st))) && JS.truthyBigInt (st_seed st)
          && hasResults (deriveVerbosity (args st)))
      (consoleLog (seedHint (default 0 (st_seed st)))) in
  if JS.truthyString (out (args st)) then
    writeToJson (default EmptyString (out (args st))) (OutputStageJson (pickOutputStage st))
  else
    match res with
    | Right _ => seedLine
    | Left e =>
        forEach (fun _ err => consoleError (formatError st err)) (uniqWith (st_errors st)) ;;
        seedLine ;;
        consoleError ("error: " +:+ msg e)
    end.

Definition mainModuleMissing (prev : Stage) : Prop :=
  findModule (guessMainModule prev) (modules prev) = None.

Definition seedMalformed (prev : Stage) : Prop :=
  exists text, seed (args prev) = Some text /\ JS.StringToBigInt text = None.

Definition isConfigurationError (e : ErrResult) : Prop :=
  msg e = "Argument error"
  \/ exists text, msg e = "--seed must be a big integer, found: " +:+ text.

(** The value that [runSimulator] returns for the answer [run] of the
    evaluator. *)
Definition conclusionOf (prev : Stage) (run : SimulationRun) : CLIProcedure :=
  let first := head (bestTraces run) in
  let states := (fun t => frame_args (trace_frame t)) <$> first in
  let simulator := with_seed (trace_seed <$> first) (with_stage "running" prev) in
  let outcome := outcomeOf (evalResult run) in
  match status outcome with
  | st_error =>
      cliErr "Runtime error"
        (with_errors (map (mkErrorMessage (sourceMapOf (snd (argsParsing prev))))
                                       (outcome_errors outcome))
           (with_run error states simulator))
  | st_ok => Right (with_run ok states simulator)
  | st_violation =>
      cliErr "Invariant violated" (with_errors [] (with_run violation states simulator))
  end.

(** The filter as a boolean: a definition is selected when the filter
    returns true for it. *)
Definition isSelected (prev : Stage) (d : LookupDefinition) : bool :=
  match snd (testFilter prev d) with
  | Val b => b
  | Throw _ => false
  end.

(** The filter in words: the pattern of [--match], when there is one
    (a non-empty text), must match somewhere in the name; without a
    pattern the name must end with [Test]. *)
Definition matchesFilter (pattern : option string) (name : string) : Prop :=
  if JS.truthyString pattern
  then regExpExec (default EmptyString pattern) name = Some true
  else JS.endsWith "Test" name = true.

(** The stage that [runTests] returns for the results of the tests. *)
Definition testedStage (prev : Stage) (results : list TestResult) : Stage :=
  with_errors []
    (with_tests (map test_name (List.filter isPassed results))
                (map test_name (List.filter isFailed results))
                (map test_name (List.filter isIgnored results))
                (with_stage "testing" prev)).

(** What [runTests] prints once some test has failed, lines 1389-1428. *)
Definition failureReport (prev : Stage) (results : list TestResult) : M unit :=
  let level := deriveVerbosity (args prev) in
  when (hasTestDetails level)
    (consoleLog "" ;;
     forEach (reportNamedError level prev)
             (namedErrorsOf (sourceMap prev) (List.filter isFailed results)) ;;
     consoleLog "") ;;
  when (hasHints level && negb (hasActionTracking level))
    (consoleLog (String (ascii_of_nat 10) "  Use --verbosity=3 to show executions.") ;;
     consoleLog ("  Further debug with: quint test --verbosity=3 " +:+ input (args prev))).

End Drivers.

(** ** Sample collaborators, for running the drivers on examples *)

Module Sample.

(** The last component of a path, without the given extension. *)
Fixpoint lastComponent (acc s : string) : string :=
  match s with
  | EmptyString => acc
  | String c s' =>
      if Ascii.eqb c "/" then lastComponent EmptyString s'
      else lastComponent (acc +:+ String c EmptyString) s'
  end.

Definition basename (p ext : string) : string :=
  let b := lastComponent EmptyString p in
  if JS.endsWith ext b && negb (String.eqb ext b)
  then String.rev (JS.substringFrom (String.length ext) (String.rev b))
  else b.

(** A pattern without special characters matches where it occurs. *)
Definition regExpExec (pattern text : string) : option bool :=
  if occursIn "(" pattern then None else Some (JS.includes pattern text).

Definition quintErrorToString (e : QuintError) : string :=
  code e +:+ ": " +:+ message e.

Definition formatError (_ : Stage) (e : ErrorMessage) : string := explanation e.

Definition hasResults (level : Z) : bool := 1 <=? level.
Definition hasTestDetails (level : Z) : bool := 2 <=? level.
Definition hasHints (level : Z) : bool := 2 <=? level.
Definition hasStateOutput (level : Z) : bool := 2 <=? level.
Definition hasActionTracking (level : Z) : bool := 3 <=? level.

(** A front end that holds the errors of its resolver: an empty text
    is no expression, the name [nonexistent] is not resolved, and the
    resolver keeps its errors. *)
Definition FrontEnd : Type := list QuintError.

Definition frontEndOf (_ : Stage) : FrontEnd := [].

Definition parseExpressionOrDeclaration (fe : FrontEnd) (text : string)
    : option QuintEx * FrontEnd :=
  (if String.eqb text EmptyString then None else Some (QuintName 1 text), fe).

Definition walkExpression (fe : FrontEnd) (_ : string) (expr : QuintEx) : FrontEnd :=
  match expr with
  | QuintName id name =>
      if String.eqb name "nonexistent"
      then fe ++ [ {| code := "QNT404"; message := "Name 'nonexistent' not found";
                      reference := Some id |} ]
      else fe
  | _ => fe
  end.

Definition resolverErrors (fe : FrontEnd) : list QuintError := fe.

Definition sourceMapOf (_ : FrontEnd) : gmap Z Loc := ∅.

Definition toItf (vars : list string) (states : list QuintEx) : Either string (gmap string Json) :=
  Right (<["vars" := JArr (map JStr vars)]>
           (<["states" := JArr (map (fun _ => JObj []) states)]> ∅)).

(** An evaluator whose verdict depends on the generator: the invariant
    holds exactly for an even state. *)
Definition simulate (_ : gmap Z LookupDefinition) (_ : Z) (rng : Rng) (_ : option Z) (_ : bool)
    (_ _ _ : QuintEx) (_ _ _ : Z) : SimulationRun :=
  let verdict := QuintBool 0 (Z.even (rng_state rng)) in
  {| evalResult := Right verdict;
     bestTraces := [ {| trace_frame := mkFrame [QuintInt 2 (rng_state rng)] (Right verdict) [];
                        trace_seed := rng_state rng |} ];
     varNames := ["x"] |}.

Definition EvalState : Type := Rng.

Definition newEvaluator (_ : gmap Z LookupDefinition) (_ : Z) (rng : Rng) : EvalState := rng.

(** A test passes exactly for an even state; each test advances the
    generator. *)
Definition test (ev : EvalState) (d : LookupDefinition) (_ : Z)
    : TestResult * list TraceCall * EvalState :=
  let good := Z.even (rng_state ev) in
  ({| test_name := def_name d;
      test_status := if good then passed else failed;
      test_errors := if good then []
                     else [ {| code := "QNT511";
                               message := "Test " +:+ def_name d +:+ " returned false";
                               reference := Some (def_id d) |} ];
      test_seed := rng_state ev;
      test_frames := [];
      test_nsamples := 1 |},
   [ {| tc_name := def_name d; tc_status := if good then "passed" else "failed";
        tc_vars := ["x"]; tc_states := [QuintInt 2 (rng_state ev)] |} ],
   {| rng_state := rng_state ev + 1 |}).

Definition env (entropy : Z) : Env :=
  {| fresh_seed := entropy; startMs := 1000; endMs := 1012;
     header_date := fun _ => "Mon Nov 02 2026"; header_timestamp := fun k => 1012 + Z.of_nat k |}.

Definition arguments : Args :=
  {| input := "./specs/counter.qnt"; main := None; seed := Some "0x2a"; out := None;
     outItf := None; verbosity := 2; maxSamples := 100; maxSteps := 20; nTraces := Some 1;
     init := "init"; step := "step"; invariant := "true"; mbt := false; match_ := None |}.

Definition withSeed (s : option string) (a : Args) : Args :=
  {| input := input a; main := main a; seed := s; out := out a; outItf := outItf a;
     verbosity := verbosity a; maxSamples := maxSamples a; maxSteps := maxSteps a;
     nTraces := nTraces a; init := init a; step := step a; invariant := invariant a;
     mbt := mbt a; match_ := match_ a |}.

Definition withOutputs (o i : option string) (a : Args) : Args :=
  {| input := input a; main := main a; seed := seed a; out := o; outItf := i;
     verbosity := verbosity a; maxSamples := maxSamples a; maxSteps := maxSteps a;
     nTraces := nTraces a; init := init a; step := step a; invariant := invariant a;
     mbt := mbt a; match_ := match_ a |}.

Definition withMain (m : option string) (a : Args) : Args :=
  {| input := input a; main := m; seed := seed a; out := out a; outItf := outItf a;
     verbosity := verbosity a; maxSamples := maxSamples a; maxSteps := maxSteps a;
     nTraces := nTraces a; init := init a; step := step a; invariant := invariant a;
     mbt := mbt a; match_ := match_ a |}.

Definition definitions : list LookupDefinition :=
  [ {| def_kind := "var"; def_name := "x"; def_id := 10 |};
    {| def_kind := "def"; def_name := "helper"; def_id := 11 |};
    {| def_kind := "def"; def_name := "incrementTest"; def_id := 12 |};
    {| def_kind := "def"; def_name := "resetTest"; def_id := 13 |} ].

(** A type-checked stage with one module, [counter]. *)
Definition typechecked (a : Args) : Stage :=
  {| stage := "typechecking"; args := a; path := "/work/specs/counter.qnt";
     modules := [ {| mod_id := 1; mod_name := "counter" |} ];
     defaultModuleName := defaultModuleNameOf [ {| mod_id := 1; mod_name := "counter" |} ];
     sourceMap := ∅; table := ∅;
     definitionsByModule := {[ "counter" := [definitions] ]};
     st_passed := None; st_failed := None; st_ignored := None;
     st_status := None; st_trace := None; st_seed := None; st_errors := [] |}.

Definition runSimulator : Env -> Stage -> M CLIProcedure :=
  runSimulator basename quintErrorToString hasResults hasHints hasStateOutput
     FrontEnd frontEndOf parseExpressionOrDeclaration walkExpression resolverErrors sourceMapOf toItf simulate.

Definition runTests : Env -> Stage -> M CLIProcedure :=
  runTests basename regExpExec quintErrorToString formatError hasResults hasTestDetails
           hasHints hasActionTracking toItf EvalState newEvaluator test.

Definition outputResult : CLIProcedure -> M unit :=
  outputResult formatError hasResults.

Definition simulationOf : Env -> Stage -> option SimulationRun :=
  simulationOf basename FrontEnd frontEndOf parseExpressionOrDeclaration walkExpression resolverErrors simulate.

(** [--seed=0] *)
Definition zeroSeedStage : Stage := typechecked (withSeed (Some "0") arguments).

(** [--seed=12n], which is not a big integer. *)
Definition badSeedStage : Stage := typechecked (withSeed (Some "12n") arguments).

(** [--seed=0x2b67], an odd seed: the invariant is violated. *)
Definition violatingStage : Stage := typechecked (withSeed (Some "0x2b67") arguments).

(** The same with [--out-itf=trace.itf.json]. *)
Definition itfStage : Stage :=
  typechecked (withOutputs None (Some "trace.itf.json") (withSeed (Some "0x2b67") arguments)).

Definition helperDefinition : LookupDefinition :=
  {| def_kind := "def"; def_name := "helper"; def_id := 11 |}.

End Sample.

(** ** More readings: seeds and file names *)

(** The value of the option [--seed] that the hints print, lines 1420,
    1838 and 1853: [0x] and the seed in hexadecimal. *)
Definition seedOption (s : Z) : string := "0x" +:+ JS.BigInt_toString16 s.

(** A character that hexadecimal notation and [BigInt] read as the same
    digit. *)
Definition isHexDigit (c : ascii) : bool :=
  match HexString.ascii_to_digit c, JS.digitValue c with
  | Some v, Some d => d =? Z.of_N v
  | _, _ => false
  end.

Fixpoint allHexDigits (s : string) : bool :=
  match s with
  | EmptyString => true
  | String c s' => isHexDigit c && allHexDigits s'
  end.

(** The number of occurrences that [substituteAll] replaces, and the
    number of characters of the text that it keeps. *)
Fixpoint matchCount (search s : string) (skip : nat) {struct s} : nat :=
  match s with
  | EmptyString => if Nat.eqb skip 0 && JS.startsWith search s then 1%nat else 0%nat
  | String c s' =>
      match skip with
      | S k => matchCount search s' k
      | O =>
          if JS.startsWith search s then
            S match String.length search with
              | O => matchCount search s' O
              | S k => matchCount search s' k
              end
          else matchCount search s' O
      end
  end.

Fixpoint keptCount (search s : string) (skip : nat) {struct s} : nat :=
  match s with
  | EmptyString => 0%nat
  | String c s' =>
      match skip with
      | S k => keptCount search s' k
      | O =>
          if JS.startsWith search s then
            match String.length search with
            | O => S (keptCount search s' O)
            | S k => keptCount search s' k
            end
          else S (keptCount search s' O)
      end
  end.

(** The value of a decimal numeral read from the left, on top of [acc]. *)
Fixpoint decimalValue (d : Decimal.uint) (acc : Z) : Z :=
  match d with
  | Decimal.Nil => acc
  | Decimal.D0 d => decimalValue d (acc * 10)
  | Decimal.D1 d => decimalValue d (acc * 10 + 1)
  | Decimal.D2 d => decimalValue d (acc * 10 + 2)
  | Decimal.D3 d => decimalValue d (acc * 10 + 3)
  | Decimal.D4 d => decimalValue d (acc * 10 + 4)
  | Decimal.D5 d => decimalValue d (acc * 10 + 5)
  | Decimal.D6 d => decimalValue d (acc * 10 + 6)
  | Decimal.D7 d => decimalValue d (acc * 10 + 7)
  | Decimal.D8 d => decimalValue d (acc * 10 + 8)
  | Decimal.D9 d => decimalValue d (acc * 10 + 9)
  end.

(** A decimal digit, as a character. *)
Definition isDecimalDigit (c : ascii) : bool :=
  let n := Z.of_nat (nat_of_ascii c) in (48 <=? n) && (n <=? 57).

(** ** More readings: what a run writes and prints *)

(** The files written, in the order of the writes. *)
Definition asWrite (ev : Event) : option (string * Written) :=
  match ev with WriteJson f c => Some (f, c) | _ => None end.

Definition filesWritten (evs : list Event) : list (string * Written) := omap asWrite evs.

(** What goes to the standard output: [console.log] and the printers of
    traces and frames. *)
Definition toStdout (ev : Event) : bool :=
  match ev with
  | ConsoleLog _ | PrintTrace _ _ | PrintFrame _ => true
  | _ => false
  end.

(** A computation that returns a value: it does not throw. *)
Definition returns {A} (m : M A) : Prop := exists a, snd m = Val a.

(** A computation all of whose events satisfy [P], whether it returns
    or throws. *)
Definition eventsAll {A} (P : Event -> Prop) (m : M A) : Prop := Forall P (fst m).

(** The lines written to the standard error, in order. *)
Definition asConsoleError (ev : Event) : option string :=
  match ev with ConsoleError l => Some l | _ => None end.

Definition errorLines (evs : list Event) : list string := omap asConsoleError evs.

(** The error values of a list. *)
Definition lefts {L R} (es : list (Either L R)) : list L :=
  omap (fun e => match e with Left l => Some l | Right _ => None end) es.

(** A trace that the loop over the best traces accepts: it ends in an
    error or in a boolean. *)
Definition endsInErrorOrBool (t : Trace) : bool :=
  match frame_result (trace_frame t) with
  | Left _ => true
  | Right v => String.eqb (kind v) "bool"
  end.

Section Readings.

Variable hasResults hasHints hasStateOutput : Z -> bool.
Variable toItf : list string -> list QuintEx -> Either string (gmap string Json).

(** The ITF file of the trace at position [index], if it has one. *)
Definition traceFile (env : Env) (prev : Stage) (vars : list string) (index : nat) (t : Trace)
    : option (string * Written) :=
  if JS.truthyString (outItf (args prev)) then
    match frame_result (trace_frame t) with
    | Right v =>
        match toItf vars (frame_args (trace_frame t)) with
        | Right tr =>
            Some (expandOutputTemplate (default EmptyString (outItf (args prev))) index
                    (nTracesAboveOne (args prev)),
                  ItfJson (addItfHeader env index (input (args prev))
                             (if valueIsTruthy v then "ok" else "violation") tr))
        | Left _ => None
        end
    | Left _ => None
    end
  else None.

(** The ITF files of the traces from position [index] on, up to the
    first trace that ends in a value other than a boolean. *)
Fixpoint traceFiles_from (env : Env) (prev : Stage) (vars : list string) (index : nat)
    (traces : list Trace) : list (string * Written) :=
  match traces with
  | [] => []
  | t :: traces' =>
      if endsInErrorOrBool t then
        match traceFile env prev vars index t with
        | Some f => f :: traceFiles_from env prev vars (S index) traces'
        | None => traceFiles_from env prev vars (S index) traces'
        end
      else []
  end.

(** The file [f] with content [c] is the ITF file of the trace [t] at
    position [k]: [--out-itf] is given, the trace ends in a boolean and
    converts to ITF; the name is the template expanded with [k], the
    content is the converted trace under the header for [k], whose
    status is that of the trace. *)
Definition isTraceFile (env : Env) (prev : Stage) (vars : list string) (k : nat) (t : Trace)
    (f : string) (c : Written) : Prop :=
  exists template v tr,
    outItf (args prev) = Some template /\ template <> EmptyString
    /\ frame_result (trace_frame t) = Right v /\ kind v = "bool"
    /\ toItf vars (frame_args (trace_frame t)) = Right tr
    /\ f = expandOutputTemplate template k (nTracesAboveOne (args prev))
    /\ c = ItfJson (addItfHeader env k (input (args prev))
                     (if valueIsTruthy v then "ok" else "violation") tr).

(** What [runSimulator] prints after the loop over the best traces,
    lines 1556-1597. *)
Definition verdictReport (env : Env) (prev : Stage) (run : SimulationRun) : M unit :=
  let level := if JS.truthyString (outItf (args prev)) then 0 else deriveVerbosity (args prev) in
  let first := head (bestTraces run) in
  let states := (fun t => frame_args (trace_frame t)) <$> first in
  let frames := (fun t => frame_subframes (trace_frame t)) <$> first in
  let elapsedMs := endMs env - startMs env in
  match status (outcomeOf (evalResult run)) with
  | st_error => ret tt
  | st_ok =>
      maybePrintCounterExample hasStateOutput level states frames ;;
      when (hasResults level)
        (consoleLog ("[ok] No violation found (" +:+ JS.Integer_toString elapsedMs +:+ "ms).") ;;
         when (hasHints level)
           (consoleLog "You may increase --max-samples and --max-steps." ;;
            consoleLog "Use --verbosity to produce more (or less) output."))
  | st_violation =>
      maybePrintCounterExample hasStateOutput level states frames ;;
      when (hasResults level)
        (consoleLog ("[violation] Found an issue (" +:+ JS.Integer_toString elapsedMs +:+ "ms).") ;;
         when (hasHints level)
           (consoleLog "Use --verbosity=3 to show executions."))
  end.

End Readings.

(** ** More readings: the tests of a run *)

(** One test of a run: the definition given to [evaluator.test], the
    result that the evaluator returned for it, and the calls of the
    [onTrace] callback that the evaluator made during the test, in
    order. *)
Record TestRun : Type := {
  run_def : LookupDefinition;
  run_result : TestResult;
  run_calls : list TraceCall
}.

Section TestReadings.

Variable basename : string -> string -> string.
Variable regExpExec : string -> string -> option bool.
Variable toItf : list string -> list QuintEx -> Either string (gmap string Json).
Variable EvalState : Type.
Variable newEvaluator : gmap Z LookupDefinition -> Z -> Rng -> EvalState.
Variable test : EvalState -> LookupDefinition -> Z -> TestResult * list TraceCall * EvalState.

(** Lines 1331-1333 read back: what the evaluator in the state [ev]
    answers when it is given the definitions [defs] in turn. *)
Fixpoint testRuns (prev : Stage) (ev : EvalState) (defs : list LookupDefinition)
    : list TestRun :=
  match defs with
  | [] => []
  | d :: defs' =>
      let '(res, calls, ev') := test ev d (maxSamples (args prev)) in
      {| run_def := d; run_result := res; run_calls := calls |} :: testRuns prev ev' defs'
  end.

(** The tests of a run of [runTests] whose configuration is accepted
    (the main module exists, the seed is well formed, the selection of
    the tests does not throw): the evaluator of line 1330 is given the
    selected definitions. [None] for the other runs. *)
Definition testRunsOf (env : Env) (prev : Stage) : option (list TestRun) :=
  let mainName := guessMainModule basename prev in
  match findModule mainName (modules prev), mkRng env (seed (args prev)),
        snd (selectTests regExpExec prev mainName) with
  | Some _, Right rng, Val defs =>
      Some (testRuns prev
              (newEvaluator (table (with_stage "testing" prev)) (deriveVerbosity (args prev)) rng)
              defs)
  | _, _, _ => None
  end.

(** The ITF file of the call number [k] of the [onTrace] callback of
    the test at position [index], if it has one: [--out-itf] is given
    and the states of the call convert to ITF. The name is the template
    expanded with the name of the call and the position of the test,
    the header carries the status of the call. *)
Definition testTraceFile (env : Env) (prev : Stage) (index k : nat) (call : TraceCall)
    : option (string * Written) :=
  if JS.truthyString (outItf (args prev)) then
    match toItf (tc_vars call) (tc_states call) with
    | Right tr =>
        Some (expandNamedOutputTemplate (default EmptyString (outItf (args prev)))
                (tc_name call) index (nTracesAboveOne (args prev)),
              ItfJson (addItfHeader env (index + k) (input (args prev)) (tc_status call) tr))
    | Left _ => None
    end
  else None.

(** The file [f] with content [c] is the ITF file of the call [call],
    number [k], of the [onTrace] callback of the test at position
    [index]: [--out-itf] is given, the states of the call convert to
    ITF; the name is the template expanded with the name of the call
    and the position of the test, the header carries the status of the
    call. *)
Definition isTestTraceFile (env : Env) (prev : Stage) (index k : nat) (call : TraceCall)
    (f : string) (c : Written) : Prop :=
  exists template tr,
    outItf (args prev) = Some template /\ template <> EmptyString
    /\ toItf (tc_vars call) (tc_states call) = Right tr
    /\ f = expandNamedOutputTemplate template (tc_name call) index (nTracesAboveOne (args prev))
    /\ c = ItfJson (addItfHeader env (index + k) (input (args prev)) (tc_status call) tr).

(** The ITF files of the calls [calls], numbered from [k], of the test
    at position [index]. *)
Fixpoint callFiles_from (env : Env) (prev : Stage) (index k : nat) (calls : list TraceCall)
    : list (string * Written) :=
  match calls with
  | [] => []
  | call :: calls' =>
      match testTraceFile env prev index k call with
      | Some f => f :: callFiles_from env prev index (S k) calls'
      | None => callFiles_from env prev index (S k) calls'
      end
  end.

(** The ITF files of the tests [runs], whose positions start at
    [index]. *)
Fixpoint testFiles_from (env : Env) (prev : Stage) (index : nat) (runs : list TestRun)
    : list (string * Written) :=
  match runs with
  | [] => []
  | r :: runs' =>
      callFiles_from env prev index 0 (run_calls r) ++ testFiles_from env prev (S index) runs'
  end.

End TestReadings.

(** The names that a tested stage reports, in any of its three lists. *)
Definition reportedNames (st : Stage) : list string :=
  default [] (st_passed st) ++ default [] (st_failed st) ++ default [] (st_ignored st).

(** [uniqWith] in words: the element at position [j] is kept when it
    does not occur before [j]; the kept elements stay in their order. *)
Definition keptAt {A} `{EqDecision A} (xs : list A) (j : nat) (x : A) : option A :=
  if bool_decide (x ∈ take j xs) then None else Some x.

Definition firstOccurrences {A} `{EqDecision A} (xs : list A) : list A :=
  omap id (imap (keptAt xs) xs).

(** ** More sample stages *)

Module MoreSamples.

Definition withMatch (pattern : option string) (a : Args) : Args :=
  {| input := input a; main := main a; seed := seed a; out := out a; outItf := outItf a;
     verbosity := verbosity a; maxSamples := maxSamples a; maxSteps := maxSteps a;
     nTraces := nTraces a; init := init a; step := step a; invariant := invariant a;
     mbt := mbt a; match_ := pattern |}.

(** [--out-itf=trace_{seq}.itf.json] *)
Definition seqStage : Stage :=
  Sample.typechecked
    (Sample.withOutputs None (Some "trace_{seq}.itf.json")
       (Sample.withSeed (Some "0x2b67") Sample.arguments)).

(** [--out=out.json] *)
Definition outStage : Stage :=
  Sample.typechecked
    (Sample.withOutputs (Some "out.json") None (Sample.withSeed (Some "0x2b67") Sample.arguments)).

(** [--match=(], which the sample [regExpExec] rejects. *)
Definition badPatternStage : Stage := Sample.typechecked (withMatch (Some "(") Sample.arguments).

Definition withStep (text : string) (a : Args) : Args :=
  {| input := input a; main := main a; seed := seed a; out := out a; outItf := outItf a;
     verbosity := verbosity a; maxSamples := maxSamples a; maxSteps := maxSteps a;
     nTraces := nTraces a; init := init a; step := text; invariant := invariant a;
     mbt := mbt a; match_ := match_ a |}.

(** [--step=nonexistent], a name that the sample resolver does not
    find; the texts of [--init] and [--invariant] are resolved. *)
Definition unresolvedStepStage : Stage :=
  Sample.typechecked (withStep "nonexistent" Sample.arguments).

(** An evaluator whose recorder keeps two traces: one that holds the
    invariant and one that violates it. *)
Definition simulateTwo (_ : gmap Z LookupDefinition) (_ : Z) (rng : Rng) (_ : option Z)
    (_ : bool) (_ _ _ : QuintEx) (_ _ _ : Z) : SimulationRun :=
  {| evalResult := Right (QuintBool 0 false);
     bestTraces :=
       [ {| trace_frame := mkFrame [QuintInt 2 (rng_state rng)] (Right (QuintBool 0 false)) [];
            trace_seed := rng_state rng |};
         {| trace_frame := mkFrame [QuintInt 2 (rng_state rng + 1)] (Right (QuintBool 0 true)) [];
            trace_seed := rng_state rng + 1 |} ];
     varNames := ["x"] |}.

(** An evaluator whose recorder keeps a trace that ends in an integer. *)
Definition simulateInt (_ : gmap Z LookupDefinition) (_ : Z) (rng : Rng) (_ : option Z)
    (_ : bool) (_ _ _ : QuintEx) (_ _ _ : Z) : SimulationRun :=
  {| evalResult := Right (QuintBool 0 true);
     bestTraces :=
       [ {| trace_frame := mkFrame [QuintInt 2 (rng_state rng)] (Right (QuintInt 3 7)) [];
            trace_seed := rng_state rng |} ];
     varNames := ["x"] |}.

(** A stage whose resolver has collected no definitions for the
    module [counter]. *)
Definition noDefinitionsStage : Stage :=
  {| stage := "typechecking"; args := Sample.arguments; path := "/work/specs/counter.qnt";
     modules := [ {| mod_id := 1; mod_name := "counter" |} ];
     defaultModuleName := defaultModuleNameOf [ {| mod_id := 1; mod_name := "counter" |} ];
     sourceMap := ∅; table := ∅;
     definitionsByModule := ∅;
     st_passed := None; st_failed := None; st_ignored := None;
     st_status := None; st_trace := None; st_seed := None; st_errors := [] |}.

End MoreSamples.

(** ** cliCommands.ts: [runRepl], lines 1255-1271 *)

(** The pattern of line 1260 is anchored at both ends; it has a lazy
    group of any characters, and then either nothing or two colons and
    a second group, an identifier: a letter or an underscore followed
    by word characters. The character classes: the dot matches any
    character but a line terminator, a word character is a letter, a
    digit or the underscore.
    (Of the line terminators, U+2028 and U+2029 are outside the
    characters of this model.) *)
Definition isLineTerminator (c : ascii) : bool :=
  let n := nat_of_ascii c in (Nat.eqb n 10 || Nat.eqb n 13)%bool.

Definition isIdentifierStart (c : ascii) : bool :=
  let n := Z.of_nat (nat_of_ascii c) in
  ((97 <=? n) && (n <=? 122)) || ((65 <=? n) && (n <=? 90)) || (n =? 95).

Definition isWordChar (c : ascii) : bool :=
  let n := Z.of_nat (nat_of_ascii c) in
  isIdentifierStart c || ((48 <=? n) && (n <=? 57)).

Fixpoint allWordChars (s : string) : bool :=
  match s with
  | EmptyString => true
  | String c s' => isWordChar c && allWordChars s'
  end.

(** An identifier, for a whole text. *)
Definition isIdentifier (s : string) : bool :=
  match s with
  | String c s' => isIdentifierStart c && allWordChars s'
  | EmptyString => false
  end.

Fixpoint hasLineTerminator (s : string) : bool :=
  match s with
  | EmptyString => false
  | String c s' => isLineTerminator c || hasLineTerminator s'
  end.

(** The second alternative and the end of the pattern at the text
    [rest]: two colons and an identifier whose greedy tail of word
    characters must reach the end of the text. The result is the
    second group. *)
Definition matchModuleName (rest : string) : option string :=
  match rest with
  | String ":" (String ":" name) => if isIdentifier name then Some name else None
  | _ => None
  end.

(** The pattern from a position on: [group1] is what the lazy group
    has taken so far, [rest] the text that is left. At each position
    the empty alternative is tried first, and it matches when the text
    ends here; then the alternative with the module name; then the
    lazy group takes one more character, if the dot matches it. The
    result is the two groups; [None] is the result [null] of [exec]. *)
Fixpoint requirePattern_from (group1 rest : string) : option (string * option string) :=
  match rest with
  | EmptyString => Some (group1, None)
  | String c rest' =>
      match matchModuleName rest with
      | Some name => Some (group1, Some name)
      | None =>
          if isLineTerminator c then None
          else requirePattern_from (group1 +:+ String c EmptyString) rest'
      end
  end.

Definition requirePattern_exec (text : string) : option (string * option string) :=
  requirePattern_from EmptyString text.

(** What [runRepl] reads of the arguments, and the options it hands to
    [quintRepl]. *)
Record ReplArgs : Type := {
  require : option string;
  quiet : bool;
  repl_verbosity : Z;
}.

Record ReplOptions : Type := {
  preloadFilename : option string;
  importModule : option string;
  options_verbosity : Z;
}.

(** The options of the call [quintRepl(process.stdin, process.stdout,
    options)]. *)
Definition runRepl (argv : ReplArgs) : ReplOptions :=
  let groups :=
    if JS.truthyString (require argv) then
      match requirePattern_exec (default EmptyString (require argv)) with
      | Some (filename, moduleName) => (Some filename, moduleName)
      | None => (None, None)
      end
    else (None, None) in
  {| preloadFilename := fst groups;
     importModule := snd groups;
     options_verbosity := if quiet argv then 0 else repl_verbosity argv |}.

(** ** cliCommands.ts: [compile] and [verifySpec] *)

(** Values of JavaScript, as the Apalache configuration has them: what
    [JSON.parse] yields, and [undefined]. *)
Inductive JsValue : Type :=
| JsUndefined
| JsNull
| JsBool (b : bool)
| JsNumber (n : Z)
| JsString (s : string)
| JsArray (items : list JsValue)
| JsObject (fields : gmap string JsValue).

(** The options of the [verify] command that [Args] does not list. *)
Record VerifyOptions : Type := {
  apalacheConfig : option string;
  temporal : option string;
  randomTransitions : bool;
  serverEndpoint : option string;
  apalacheVersion : option string;
}.

(** The error value of [verify] (of [./quintVerifier]), as far as
    [verifySpec] reads it; a trace is an ITF document. *)
Record ApalacheError : Type := {
  ae_explanation : string;
  ae_errors : list ErrorMessage;
  ae_traces : option (list (gmap string Json));
}.

Definition isNullish (v : JsValue) : bool :=
  match v with
  | JsUndefined | JsNull => true
  | _ => false
  end.

(** The own enumerable properties of a value, which the spread
    [{...v}] copies: the fields of an object, the elements of an array
    and the characters of a string under their indices, and nothing for
    the other values. *)
Definition ownProperties (v : JsValue) : gmap string JsValue :=
  match v with
  | JsObject fields => fields
  | JsArray items => list_to_map (imap (fun i x => (JS.Number_toString i, x)) items)
  | JsString s =>
      list_to_map (imap (fun i c => (JS.Number_toString i, JsString (String c EmptyString)))
                        (list_ascii_of_string s))
  | _ => ∅
  end.

(** The property [name] of a value that is not [null] or [undefined],
    for a name that is neither an index, nor [length], nor a property
    of the prototypes: the field of an object, and [undefined] for the
    other values. *)
Definition namedProperty (v : JsValue) (name : string) : JsValue :=
  match v with
  | JsObject fields => default JsUndefined (fields !! name)
  | _ => JsUndefined
  end.

(** [v.name]: a TypeError for [null] and [undefined]. *)
Definition getNamedProperty (v : JsValue) (name : string) : M JsValue :=
  if isNullish v
  then throw ("TypeError: Cannot read properties of null (reading '" +:+ name +:+ "')")
  else ret (namedProperty v name).

(** [v?.name] *)
Definition getNamedPropertyOptional (v : JsValue) (name : string) : M JsValue :=
  if isNullish v then ret JsUndefined else getNamedProperty v name.

(** [v ?? {}] *)
Definition orEmptyObject (v : JsValue) : JsValue :=
  if isNullish v then JsObject ∅ else v.

(** Lines 1615-1622 of [compile]: the definitions added to the main
    module, as text. *)
Definition extraDefsAsText (a : Args) (o : VerifyOptions) : list string :=
  ["action q::init = " +:+ init a; "action q::step = " +:+ step a]
  ++ (if JS.truthyString (Some (invariant a))
      then ["val q::inv = and(" +:+ invariant a +:+ ")"] else [])
  ++ (if JS.truthyString (temporal o)
      then ["temporal q::temporalProps = and(" +:+ default EmptyString (temporal o) +:+ ")"]
      else []).

(** Lines 1739-1763 of [verifySpec]: the configuration handed to
    Apalache. In an object literal, a property written after a spread
    replaces the property of that name that the spread has copied. *)
Definition config (a : Args) (o : VerifyOptions) (parsedSpec : string) (loadedConfig : JsValue)
    : M JsValue :=
  let top := ownProperties loadedConfig in
  let* input0 := getNamedProperty loadedConfig "input" in
  let source : gmap string JsValue :=
    <["content" := JsString parsedSpec]>
      (<["format" := JsString "qnt"]> (<["type" := JsString "string"]> ∅)) in
  let input1 := <["source" := JsObject source]> (ownProperties (orEmptyObject input0)) in
  let* checker0 := getNamedProperty loadedConfig "checker" in
  let* tuning0 := getNamedPropertyOptional checker0 "tuning" in
  let tuning1 :=
    <["search.simulation" := JsString (if randomTransitions o then "true" else "false")]>
      (ownProperties (orEmptyObject tuning0)) in
  let checker1 :=
    <["tuning" := JsObject tuning1]>
      (<["temporal-props" :=
           if JS.truthyString (temporal o) then JsArray [JsString "q::temporalProps"]
           else JsUndefined]>
         (<["inv" :=
              if JS.truthyString (Some (invariant a)) then JsArray [JsString "q::inv"]
              else JsUndefined]>
            (<["next" := JsString "q::step"]>
               (<["init" := JsString "q::init"]>
                  (<["length" := JsNumber (maxSteps a)]>
                     (ownProperties (orEmptyObject checker0))))))) in
  ret (JsObject (<["checker" := JsObject checker1]> (<["input" := JsObject input1]> top))).

Section Verification.

(** The predicates of [./verbosity]. *)
Variable hasResults hasHints hasStateOutput : Z -> bool.
(** [jsonStringOfOutputStage(pickOutputStage({ ...prev, modules:
    [prev.mainModule] }))], lines 1736-1737. *)
Variable parsedSpecOf : Stage -> string.
(** [JSON.parse(readFileSync(path, 'utf-8'))]: the value, or the
    message of the exception. *)
Variable readConfig : string -> Either string JsValue.
(** [verify] of [./quintVerifier], for the server endpoint, the
    version of Apalache, the configuration and the verbosity. *)
Variable verify : option string -> option string -> JsValue -> Z -> Either ApalacheError unit.
(** [ofItf] of [./itf], which may throw; its argument is [undefined]
    when the list of traces is empty. *)
Variable ofItf : option (gmap string Json) -> Completion (list QuintEx).

Definition placeholderWarning : string :=
  "[warning] the output file contains {test} or {seq}, but this has no effect since at most a single trace will be produced.".

(** Lines 1767-1796: what is done with the answer of [verify].
    [JSON.stringify] has no text for [undefined], and [writeFileSync]
    throws for it. *)
Definition onVerified (env : Env) (prev : Stage) (verbosityLevel : Z)
    (res : Either ApalacheError unit) : M CLIProcedure :=
  let verifying := with_stage "verifying" prev in
  let elapsedMs := endMs env - startMs env in
  match res with
  | Right _ =>
      when (hasResults verbosityLevel)
        (consoleLog ("[ok] No violation found (" +:+ JS.Integer_toString elapsedMs +:+ "ms).") ;;
         when (hasHints verbosityLevel)
           (consoleLog "You may increase --max-steps." ;;
            consoleLog "Use --verbosity to produce more (or less) output.")) ;;
      ret (Right (with_errors [] (with_run ok (st_trace verifying) verifying)))
  | Left err =>
      match ae_traces err with
      | None =>
          ret (cliErr (ae_explanation err)
                 (with_errors (ae_errors err) (with_run failure None verifying)))
      | Some traces =>
          let* trace := ([], ofItf (head traces)) in
          maybePrintCounterExample hasStateOutput verbosityLevel (Some trace) (Some []) ;;
          when (hasResults verbosityLevel)
            (consoleLog ("[violation] Found an issue (" +:+ JS.Integer_toString elapsedMs +:+ "ms).")) ;;
          when (JS.truthyString (outItf (args prev)))
            match head traces with
            | Some t => writeToJson (default EmptyString (outItf (args prev))) (ItfJson t)
            | None =>
                throw "TypeError [ERR_INVALID_ARG_TYPE]: The data argument must be of type string"
            end ;;
          ret (cliErr (ae_explanation err)
                 (with_errors (ae_errors err) (with_run violation (Some trace) verifying)))
      end
  end.

(** The warning of lines 1713-1722. *)
Definition warnAboutPlaceholders (prev : Stage) : M unit :=
  let itfFile := outItf (args prev) in
  when (JS.truthyString itfFile
        && (JS.includes PLACEHOLDERS_test (default EmptyString itfFile)
            || JS.includes PLACEHOLDERS_seq (default EmptyString itfFile)))
    (consoleLog placeholderWarning).

(** Lines 1706-1797. *)
Definition verifySpec (env : Env) (o : VerifyOptions) (prev : Stage) : M CLIProcedure :=
  let verifying := with_stage "verifying" prev in
  let a := args verifying in
  let verbosityLevel :=
    if JS.truthyString (outItf (args prev)) then 0 else deriveVerbosity (args prev) in
  warnAboutPlaceholders prev ;;
  let loaded : Either string JsValue :=
    if JS.truthyString (apalacheConfig o)
    then readConfig (default EmptyString (apalacheConfig o))
    else Right (JsObject ∅) in
  match loaded with
  | Left message =>
      ret (cliErr ("failed to read Apalache config: " +:+ message) (with_errors [] verifying))
  | Right loadedConfig =>
      let* cfg := config a o (parsedSpecOf prev) loadedConfig in
      onVerified env prev verbosityLevel
        (verify (serverEndpoint o) (apalacheVersion o) cfg verbosityLevel)
  end.

(** What [verify] answers in a run of [verifySpec] that reaches it;
    [None] for the other runs. *)
Definition verificationOf (o : VerifyOptions) (prev : Stage) : option (Either ApalacheError unit) :=
  let loaded : Either string JsValue :=
    if JS.truthyString (apalacheConfig o)
    then readConfig (default EmptyString (apalacheConfig o))
    else Right (JsObject ∅) in
  match loaded with
  | Left _ => None
  | Right loadedConfig =>
      match snd (config (args prev) o (parsedSpecOf prev) loadedConfig) with
      | Val cfg =>
          Some (verify (serverEndpoint o) (apalacheVersion o) cfg
                  (if JS.truthyString (outItf (args prev)) then 0 else deriveVerbosity (args prev)))
      | Throw _ => None
      end
  end.

End Verification.

(** ** Sample collaborators of the verification *)

Module VerifySample.

Definition parsedSpecOf (_ : Stage) : string := "{}".

Definition readConfig (path : string) : Either string JsValue :=
  if String.eqb path "null.json" then Right JsNull
  else if String.eqb path "missing.json"
       then Left "ENOENT: no such file or directory, open 'missing.json'"
       else Right (JsObject (<["checker" := JsObject (<["no-deadlocks" := JsBool true]> ∅)]> ∅)).

Definition counterexample : gmap string Json :=
  <["vars" := JArr [JStr "x"]]> (<["states" := JArr [JObj [("x", JNum 1)]]]> ∅).

(** A checker for which every invariant is violated. *)
Definition verify (_ _ : option string) (cfg : JsValue) (_ : Z) : Either ApalacheError unit :=
  match namedProperty (namedProperty cfg "checker") "inv" with
  | JsArray _ =>
      Left {| ae_explanation := "found a counterexample"; ae_errors := [];
              ae_traces := Some [counterexample] |}
  | _ => Right tt
  end.

Definition ofItf (trace : option (gmap string Json)) : Completion (list QuintEx) :=
  match trace with
  | Some _ => Val [QuintInt 1 1]
  | None => Throw "TypeError: Cannot read properties of undefined (reading 'vars')"
  end.

Definition options (configFile : option string) : VerifyOptions :=
  {| apalacheConfig := configFile; temporal := None; randomTransitions := false;
     serverEndpoint := None; apalacheVersion := None |}.

Definition verifySpec : Env -> VerifyOptions -> Stage -> M CLIProcedure :=
  verifySpec Sample.hasResults Sample.hasHints Sample.hasStateOutput parsedSpecOf readConfig
             verify ofItf.

Definition verificationOf : VerifyOptions -> Stage -> option (Either ApalacheError unit) :=
  verificationOf parsedSpecOf readConfig verify.

End VerifySample.

(** * Properties *)

(** ** The platform primitives on examples *)

Example startsWith_ex : JS.startsWith "{seq}" "{seq}.json" = true.
Proof. reflexivity. Qed.
Example replaceAll_ex : JS.replaceAll "a{seq}b{seq}" "{seq}" "12" = "a12b12".
Proof. reflexivity. Qed.
Example replaceAll_dollar_ex : JS.replaceAll "x{test}y" "{test}" "[$&|$`|$'|$$|$1]" = "x[{test}|x|y|$|$1]y".
Proof. reflexivity. Qed.
Example replaceAll_empty_ex : JS.replaceAll "ab" "" "-" = "-a-b-".
Proof. reflexivity. Qed.
Example split_ex : JS.split "." "./a.itf.json" = [""; "/a"; "itf"; "json"].
Proof. reflexivity. Qed.
Example bigint_ex : map JS.StringToBigInt ["0"; " 12 "; "-7"; "0x1F"; "0b101"; ""; "1e3"; "0x"; "-0x1"; "12n"; "007"]
  = [Some 0; Some 12; Some (-7); Some 31; Some 5; Some 0; None; None; None; None; Some 7].
Proof. reflexivity. Qed.
Example hex_ex : map JS.BigInt_toString16 [255; 0; -31; 5295898919778288] = ["ff"; "0"; "-1f"; "12d0978de137f0"].
Proof. vm_compute. reflexivity. Qed.
Example num_ex : map JS.Number_toString [0%nat; 7%nat; 120%nat] = ["0"; "7"; "120"].
Proof. reflexivity. Qed.

(** ** Strings *)

Lemma append_cons (c : ascii) (a b : string) : String c a +:+ b = String c (a +:+ b).
Proof. reflexivity. Qed.

Lemma append_empty_l (s : string) : EmptyString +:+ s = s.
Proof. reflexivity. Qed.

Lemma append_empty_r (s : string) : s +:+ EmptyString = s.
Proof.
  induction s as [|c s IH]; [reflexivity|].
  now rewrite append_cons, IH.
Qed.

Lemma append_assoc (a b c : string) : (a +:+ b) +:+ c = a +:+ (b +:+ c).
Proof.
  induction a as [|x a IH]; [reflexivity|].
  now rewrite !append_cons, IH.
Qed.

Lemma before_from_first (c : ascii) (s : string) :
  beforeFirst c s +:+ fromFirst c s = s.
Proof.
  induction s as [|d s IH]; simpl; [reflexivity|].
  destruct (Ascii.eqb d c); [reflexivity|].
  now rewrite append_cons, IH.
Qed.

Lemma beforeFirst_free (c : ascii) (s : string) : occursIn c (beforeFirst c s) = false.
Proof.
  induction s as [|d s IH]; simpl; [reflexivity|].
  destruct (Ascii.eqb d c) eqn:E; simpl; [reflexivity | now rewrite E].
Qed.

Lemma fromFirst_starts (c : ascii) (s : string) :
  fromFirst c s = EmptyString \/ exists rest, fromFirst c s = String c rest.
Proof.
  induction s as [|d s IH]; simpl; [now left|].
  destruct (Ascii.eqb d c) eqn:E; [|exact IH].
  apply Ascii.eqb_eq in E. subst d. right. now exists s.
Qed.

(** [split] starts with the text before the first separator, and
    joining what it returns, with any first part, restores the rest. *)
Lemma split_join (c : ascii) (s : string) :
  exists rest, JS.split c s = beforeFirst c s :: rest /\
    forall x, JS.join (String c EmptyString) (x :: rest) = x +:+ fromFirst c s.
Proof.
  induction s as [|d s [rest [Hs Hj]]]; simpl.
  - exists []. split; [reflexivity|]. intros x.
    cbn [JS.join fromFirst]. symmetry. apply append_empty_r.
  - destruct (Ascii.eqb d c) eqn:E.
    + apply Ascii.eqb_eq in E. subst d.
      exists (JS.split c s). split; [reflexivity|].
      intros x. rewrite Hs. change (JS.join (String c EmptyString) (x :: beforeFirst c s :: rest))
        with (x +:+ String c EmptyString +:+ JS.join (String c EmptyString) (beforeFirst c s :: rest)).
      rewrite Hj, before_from_first. reflexivity.
    + rewrite Hs. exists rest. split; [reflexivity|]. exact Hj.
Qed.

Lemma GetSubstitution_literal (matched before after repl : string) :
  occursIn "$" repl = false -> JS.GetSubstitution matched before after repl = repl.
Proof.
  induction repl as [|c r IH]; simpl; [reflexivity|].
  intros H. apply orb_false_elim in H as [Hc Hr].
  rewrite Hc. now rewrite (IH Hr).
Qed.

(** Without a dollar sign in the replacement, [replaceAll] puts the
    replacement itself in the place of every occurrence. *)
Lemma replaceAll_from_literal (search repl : string) :
  occursIn "$" repl = false ->
  forall s before skip,
    JS.replaceAll_from search repl before s skip = substituteAll search repl s skip.
Proof.
  intros Hrepl. induction s as [|c s IH]; intros before skip.
  - destruct skip; simpl; [|reflexivity].
    destruct (JS.startsWith search EmptyString); [|reflexivity].
    now rewrite GetSubstitution_literal, append_empty_r.
  - destruct skip as [|k]; simpl; [|apply IH].
    destruct (JS.startsWith search (String c s)).
    + rewrite GetSubstitution_literal by assumption.
      destruct (String.length search); now rewrite IH.
    + now rewrite IH.
Qed.

Lemma replaceAll_literal (s search repl : string) :
  occursIn "$" repl = false ->
  JS.replaceAll s search repl = substituteAll search repl s O.
Proof. intros H. unfold JS.replaceAll. now apply replaceAll_from_literal. Qed.

Lemma decimal_no_dollar (d : Decimal.uint) : occursIn "$" (NilEmpty.string_of_uint d) = false.
Proof. induction d; simpl; auto. Qed.

Lemma Number_toString_no_dollar (n : nat) : occursIn "$" (JS.Number_toString n) = false.
Proof.
  unfold JS.Number_toString, NilZero.string_of_uint.
  destruct (Nat.to_uint n); try reflexivity; apply decimal_no_dollar.
Qed.

(** ** The output templates *)

(** With the placeholder for the index in the template, each of its
    occurrences becomes the decimal index. *)
Lemma expandOutputTemplate_seq (template : string) (index : nat) (autoAppend : bool) :
  JS.includes PLACEHOLDERS_seq template = true ->
  expandOutputTemplate template index autoAppend
  = substituteAll PLACEHOLDERS_seq (JS.Number_toString index) template O.
Proof.
  intros H. unfold expandOutputTemplate. rewrite H.
  apply replaceAll_literal, Number_toString_no_dollar.
Qed.

(** Without that placeholder and with [autoAppend], the index goes in
    front of the first dot of the template, wherever that dot is, or to
    the end when there is none. *)
Lemma expandOutputTemplate_autoAppend (template : string) (index : nat) :
  JS.includes PLACEHOLDERS_seq template = false ->
  expandOutputTemplate template index true
  = beforeFirst "." template +:+ JS.Number_toString index +:+ fromFirst "." template.
Proof.
  intros H. unfold expandOutputTemplate. rewrite H.
  destruct (split_join "." template) as [rest [Hs Hj]].
  cbv zeta. rewrite Hs, Hj. now rewrite append_assoc.
Qed.

Lemma expandOutputTemplate_unchanged (template : string) (index : nat) :
  JS.includes PLACEHOLDERS_seq template = false ->
  expandOutputTemplate template index false = template.
Proof. intros H. unfold expandOutputTemplate. now rewrite H. Qed.

(** A test name without a dollar sign takes the place of every
    occurrence of its placeholder before the index is dealt with. *)
Lemma expandNamedOutputTemplate_literal (template name : string) (index : nat) (autoAppend : bool) :
  occursIn "$" name = false ->
  expandNamedOutputTemplate template name index autoAppend
  = expandOutputTemplate (substituteAll PLACEHOLDERS_test name template O) index autoAppend.
Proof.
  intros H. unfold expandNamedOutputTemplate. now rewrite replaceAll_literal.
Qed.

(** C9, at a template with a dot in its directory part: for
    [--out-itf ./out.itf.json] and several traces, the index 3 is put in
    front of the first dot of the whole path, which gives
    [3./out.itf.json]; the index is neither appended to the file name
    [out] nor placed in front of the extension [.itf.json], as the doc
    comment of the function ("appended to the filename, before the
    extension") has it. The same holds with a test name
    filled in. *)
Theorem expandOutputTemplate_dot_in_directory :
  expandOutputTemplate "./out.itf.json" 3 true = "3./out.itf.json"
  /\ expandOutputTemplate "./out.itf.json" 3 true <> "./out3.itf.json"
  /\ expandNamedOutputTemplate "../traces/{test}.itf.json" "sendTest" 0 true
     = "0../traces/sendTest.itf.json"
  /\ expandOutputTemplate "out.itf.json" 3 true = "out3.itf.json".
Proof. repeat split; try reflexivity. intros H; discriminate H. Qed.

(** ** The seed *)

Lemma mkRng_absent (env : Env) : mkRng env None = Right (newRng None env).
Proof. reflexivity. Qed.

Lemma mkRng_malformed (env : Env) (text : string) :
  JS.StringToBigInt text = None ->
  mkRng env (Some text) = Left ("--seed must be a big integer, found: " +:+ text).
Proof. intros H. unfold mkRng. now rewrite H. Qed.

(** A seed other than zero is the state the generator starts from. *)
Lemma mkRng_nonzero (env : Env) (text : string) (z : Z) :
  JS.StringToBigInt text = Some z -> z <> 0 ->
  mkRng env (Some text) = Right {| rng_state := z |}.
Proof.
  intros H Hz. unfold mkRng. rewrite H. simpl.
  destruct (Z.eqb_spec z 0); [contradiction | reflexivity].
Qed.

Lemma mkRng_zero (env : Env) (text : string) :
  JS.StringToBigInt text = Some 0 ->
  mkRng env (Some text) = Right {| rng_state := fresh_seed env |}.
Proof. intros H. unfold mkRng. now rewrite H. Qed.

(** C5, at the seed text ["0"]: the text is a big integer, zero, but the
    generator that [mkRng] returns is the one made without a seed: it
    starts from the fresh seed of the environment, exactly as when the
    argument is absent. A generator seeded with exactly the given
    integer would start from zero. *)
Theorem mkRng_zero_seed_is_fresh (env : Env) :
  JS.StringToBigInt "0" = Some 0
  /\ mkRng env (Some "0") = Right {| rng_state := fresh_seed env |}
  /\ mkRng env (Some "0") = mkRng env None
  /\ mkRng (Sample.env 5) (Some "0") <> Right (newRng (Some 0) (Sample.env 5)).
Proof.
  repeat split; try reflexivity. intros H. discriminate H.
Qed.

(** ** The ITF header *)

Lemma addItfHeader_own_meta (env : Env) (k : nat) (source status : string)
    (tr : gmap string Json) (v : Json) :
  tr !! "#meta" = Some v -> addItfHeader env k source status tr !! "#meta" = Some v.
Proof. intros H. unfold addItfHeader. now apply lookup_union_Some_l. Qed.

(** C8: for a trace object without a ['#meta'] field of its own (the
    converter [toItf] returns the fields of the trace only), the result
    of [addItfHeader] has a ['#meta'] header with the format identifier
    ['ITF'], the source, the status and the time stamp, and every field
    of the trace is in the result with its value; nothing else is. *)
Theorem addItfHeader_wraps (env : Env) (k : nat) (source status : string)
    (tr : gmap string Json) :
  tr !! "#meta" = None ->
  (exists fields,
      addItfHeader env k source status tr !! "#meta" = Some (JObj fields)
      /\ fieldOf "format" fields = Some (JStr "ITF")
      /\ fieldOf "source" fields = Some (JStr source)
      /\ fieldOf "status" fields = Some (JStr status)
      /\ fieldOf "timestamp" fields = Some (JNum (header_timestamp env k)))
  /\ (forall key v, tr !! key = Some v -> addItfHeader env k source status tr !! key = Some v)
  /\ (forall key, key <> "#meta" -> addItfHeader env k source status tr !! key = tr !! key).
Proof.
  intros Hmeta. unfold addItfHeader. repeat split.
  - eexists. split.
    + rewrite lookup_union_r by exact Hmeta. apply lookup_singleton_eq.
    + repeat split; reflexivity.
  - intros key v Hv. now apply lookup_union_Some_l.
  - intros key Hkey. destruct (tr !! key) as [v|] eqn:Hv.
    + now apply lookup_union_Some_l.
    + rewrite lookup_union_r by exact Hv. now apply lookup_singleton_ne.
Qed.

Lemma addItfHeader_wraps_witness :
  let tr : gmap string Json := <["vars" := JArr [JStr "x"]]> (<["states" := JArr []]> ∅) in
  tr !! "#meta" = None
  /\ addItfHeader (Sample.env 5) 0 "counter.qnt" "violation" tr !! "vars" = Some (JArr [JStr "x"]).
Proof.
  cbv zeta. split; [reflexivity|].
  destruct (addItfHeader_wraps (Sample.env 5) 0 "counter.qnt" "violation"
              (<["vars" := JArr [JStr "x"]]> (<["states" := JArr []]> ∅))) as (_ & Hkeep & _).
  - reflexivity.
  - apply Hkeep. reflexivity.
Defined.

(** ** The main module *)

Lemma defaultModuleNameOf_single (md : QuintModule) :
  defaultModuleNameOf [md] = Some (mod_name md).
Proof. reflexivity. Qed.

Lemma defaultModuleNameOf_other (ms : list QuintModule) :
  length ms <> 1%nat -> defaultModuleNameOf ms = None.
Proof.
  intros H. unfold defaultModuleNameOf.
  destruct (Nat.eqb_spec (length ms) 1); [contradiction | reflexivity].
Qed.

(** C10: the main module is the [--main] argument when one is given
    (a non-empty text); otherwise the name of the only module of the
    source file when it has exactly one; otherwise the base name of the
    input file without [.qnt]. *)
Theorem guessMainModule_precedence (basename : string -> string -> string)
    (st : Stage) (phase1Modules : list QuintModule) :
  defaultModuleName st = defaultModuleNameOf phase1Modules ->
  (forall m, main (args st) = Some m -> m <> EmptyString ->
             guessMainModule basename st = m)
  /\ (JS.truthyString (main (args st)) = false ->
      forall md, phase1Modules = [md] -> guessMainModule basename st = mod_name md)
  /\ (JS.truthyString (main (args st)) = false ->
      length phase1Modules <> 1%nat ->
      guessMainModule basename st = basename (input (args st)) ".qnt").
Proof.
  intros Hdef. unfold guessMainModule. repeat split.
  - intros m Hm Hne. rewrite Hm. simpl.
    destruct (String.eqb_spec m EmptyString); [contradiction | reflexivity].
  - intros Hmain md ->. now rewrite Hmain, Hdef, defaultModuleNameOf_single.
  - intros Hmain Hlen. now rewrite Hmain, Hdef, defaultModuleNameOf_other.
Qed.

Lemma guessMainModule_precedence_witness :
  guessMainModule Sample.basename (Sample.typechecked (Sample.withMain (Some "bank") Sample.arguments))
  = "bank"
  /\ guessMainModule Sample.basename (Sample.typechecked Sample.arguments) = "counter".
Proof.
  split.
  - apply (proj1 (guessMainModule_precedence Sample.basename
             (Sample.typechecked (Sample.withMain (Some "bank") Sample.arguments))
             [ {| mod_id := 1; mod_name := "counter" |} ] eq_refl)).
    + reflexivity.
    + intros H; discriminate H.
  - exact (proj1 (proj2 (guessMainModule_precedence Sample.basename
             (Sample.typechecked Sample.arguments)
             [ {| mod_id := 1; mod_name := "counter" |} ] eq_refl))
             eq_refl {| mod_id := 1; mod_name := "counter" |} eq_refl).
Defined.

(** ** Computations *)

Lemma bind_Val_inv {A B} (m : M A) (k : A -> M B) (evs : list Event) (b : B) :
  bind m k = (evs, Val b) ->
  exists e1 a e2, m = (e1, Val a) /\ k a = (e2, Val b) /\ evs = e1 ++ e2.
Proof.
  destruct m as [e1 [a|exn]]; simpl; [|intros H; discriminate H].
  destruct (k a) as [e2 r] eqn:Hk. intros H. injection H as <- ->.
  now exists e1, a, e2.
Qed.

Lemma ret_inv {A} (a b : A) (evs : list Event) : ret a = (evs, Val b) -> evs = [] /\ a = b.
Proof. intros H. injection H as <- <-. now split. Qed.

Lemma outputOnly_ret : outputOnly (ret tt).
Proof. split; [reflexivity | constructor]. Qed.

Lemma outputOnly_emit (ev : Event) : isOutput ev = true -> outputOnly (emit ev).
Proof. intros H. split; [reflexivity | now repeat constructor]. Qed.

Lemma outputOnly_seq (m1 m2 : M unit) :
  outputOnly m1 -> outputOnly m2 -> outputOnly (m1 ;; m2).
Proof.
  destruct m1 as [e1 c1], m2 as [e2 c2]. intros [H1 F1] [H2 F2]. simpl in *. subst.
  split; [reflexivity|]. simpl. apply Forall_app. now split.
Qed.

Lemma outputOnly_when (b : bool) (m : M unit) : outputOnly m -> outputOnly (when b m).
Proof. destruct b; [trivial | intros _; apply outputOnly_ret]. Qed.

Lemma outputOnly_forEach_from {A} (f : nat -> A -> M unit) (xs : list A) :
  (forall i x, outputOnly (f i x)) -> forall i, outputOnly (forEach_from f i xs).
Proof.
  intros Hf. induction xs as [|x xs IH]; intros i; simpl.
  - apply outputOnly_ret.
  - apply outputOnly_seq; [apply Hf | apply IH].
Qed.

Lemma outputOnly_forEach {A} (f : nat -> A -> M unit) (xs : list A) :
  (forall i x, outputOnly (f i x)) -> outputOnly (forEach f xs).
Proof. intros Hf. now apply outputOnly_forEach_from. Qed.

Lemma seq_outputOnly {B} (m : M unit) (k : M B) :
  outputOnly m -> (m ;; k) = (fst m ++ fst k, snd k).
Proof.
  destruct m as [e1 c1]. intros [H _]. simpl in *. subst. now destruct k.
Qed.

Ltac output_only :=
  repeat first
    [ apply outputOnly_ret
    | apply outputOnly_seq
    | apply outputOnly_when
    | apply outputOnly_forEach; intros ? ?
    | apply outputOnly_emit; reflexivity
    | progress unfold consoleLog, consoleError, writeToJson
    | match goal with
      | |- outputOnly (if ?b then _ else _) => destruct b
      | |- outputOnly (match ?x with Left _ => _ | Right _ => _ end) => destruct x
      | |- outputOnly (let '(_, _) := ?x in _) => destruct x
      end ].

Lemma exitCode_after_output (l1 l2 : list Event) :
  Forall (fun ev => isOutput ev = true) l1 -> exitCode (l1 ++ l2) = exitCode l2.
Proof.
  induction 1 as [|ev l1 Hev _ IH]; [reflexivity|].
  destruct ev; simpl in *; try discriminate Hev; exact IH.
Qed.

(** ** The drivers *)

Lemma events_bind {A B} (m : M A) (k : A -> M B) :
  fst (bind m k)
  = fst m ++ match snd m with Val a => fst (k a) | Throw _ => [] end.
Proof.
  destruct m as [e [a|x]]; simpl; [|now rewrite app_nil_r].
  now destruct (k a).
Qed.

Lemma filterM_events {A} (p : A -> M bool) (xs : list A) :
  (forall x, fst (p x) = []) -> fst (filterM p xs) = [].
Proof.
  intros Hp. induction xs as [|x xs IH]; [reflexivity|].
  cbn [filterM]. rewrite events_bind, Hp. destruct (snd (p x)); [|reflexivity].
  rewrite events_bind, IH. now destruct (snd (filterM p xs)).
Qed.

(** *** Events of a computation, part by part *)

Lemma eventsAll_ret {A} (P : Event -> Prop) (a : A) : eventsAll P (ret a).
Proof. constructor. Qed.

Lemma eventsAll_throw {A} (P : Event -> Prop) (exn : string) : eventsAll P (@throw A exn).
Proof. constructor. Qed.

Lemma eventsAll_emit (P : Event -> Prop) (ev : Event) : P ev -> eventsAll P (emit ev).
Proof. intros H. now repeat constructor. Qed.

Lemma eventsAll_bind {A B} (P : Event -> Prop) (m : M A) (k : A -> M B) :
  eventsAll P m -> (forall a, eventsAll P (k a)) -> eventsAll P (bind m k).
Proof.
  unfold eventsAll. intros Hm Hk. rewrite events_bind. apply Forall_app. split; [exact Hm|].
  destruct (snd m); [apply Hk | constructor].
Qed.

Lemma eventsAll_when (P : Event -> Prop) (b : bool) (m : M unit) :
  eventsAll P m -> eventsAll P (when b m).
Proof. destruct b; [trivial | intros _; apply eventsAll_ret]. Qed.

Lemma eventsAll_forEach_from {A} (P : Event -> Prop) (f : nat -> A -> M unit) (xs : list A) :
  (forall i x, eventsAll P (f i x)) -> forall i, eventsAll P (forEach_from f i xs).
Proof.
  intros Hf. induction xs as [|x xs IH]; intros i; cbn [forEach_from]; [apply eventsAll_ret|].
  apply eventsAll_bind; [apply Hf | intros _; apply IH].
Qed.

Lemma eventsAll_forEach {A} (P : Event -> Prop) (f : nat -> A -> M unit) (xs : list A) :
  (forall i x, eventsAll P (f i x)) -> eventsAll P (forEach f xs).
Proof. intros Hf. now apply eventsAll_forEach_from. Qed.

Lemma eventsAll_nil {A} (P : Event -> Prop) (m : M A) : fst m = [] -> eventsAll P m.
Proof. unfold eventsAll. intros ->. constructor. Qed.

Ltac events_all :=
  repeat first
    [ apply eventsAll_ret
    | apply eventsAll_throw
    | apply eventsAll_bind; [|intros ?]
    | apply eventsAll_when
    | apply eventsAll_forEach; intros ? ?
    | apply eventsAll_emit; solve [exact I | reflexivity]
    | progress unfold consoleLog, consoleError, writeToJson
    | match goal with
      | |- eventsAll _ (if ?b then _ else _) => destruct b
      | |- eventsAll _ (let '(_, _) := ?x in _) => destruct x
      end ].

(** *** The first characters of the lines *)

Lemma testSeedHint_head (r : TestResult) :
  exists rest,
    testSeedHint r = String " " (String " " (String " " (String " " (String "U" rest)))).
Proof. eexists. reflexivity. Qed.

Lemma string_of_uint_head (d : Decimal.uint) :
  exists c rest,
    NilZero.string_of_uint d = String c rest /\ c <> "U"%char /\ c <> " "%char.
Proof.
  destruct d; eexists _, _; (split; [reflexivity | split; discriminate]).
Qed.

Lemma Integer_toString_head (z : Z) :
  exists c rest,
    JS.Integer_toString z = String c rest /\ c <> "U"%char /\ c <> " "%char.
Proof.
  destruct z as [|p|p]; cbn [JS.Integer_toString].
  - eexists _, _. split; [reflexivity | split; discriminate].
  - apply string_of_uint_head.
  - eexists _, _. split; [reflexivity | split; discriminate].
Qed.

Lemma Number_toString_head (n : nat) :
  exists c rest,
    JS.Number_toString n = String c rest /\ c <> "U"%char /\ c <> " "%char.
Proof. apply string_of_uint_head. Qed.

(** A line that differs from the hint of a test in one of its first
    five characters. *)
Ltac not_the_hint :=
  let r := fresh "r" in
  let H := fresh "H" in
  let rest := fresh "rest" in
  let Hrest := fresh "Hrest" in
  intros r H;
  destruct (testSeedHint_head r) as [rest Hrest]; rewrite Hrest in H;
  cbv [append] in H;
  try (let nl := eval vm_compute in (ascii_of_nat 10) in
       change (ascii_of_nat 10) with nl in H);
  congruence.

(** The readings of the tests, unfolded or taken one step further. *)
Ltac unfold_test_readings := unfold testRunsOf, testTraceFile, isTestTraceFile.
Ltac step_test_readings := cbn [testRuns callFiles_from testFiles_from run_calls].

Section DriverProperties.

Variable basename : string -> string -> string.
Variable regExpExec : string -> string -> option bool.
Variable quintErrorToString : QuintError -> string.
Variable formatError : Stage -> ErrorMessage -> string.
Variable hasResults hasTestDetails hasHints hasStateOutput hasActionTracking : Z -> bool.
Variable FrontEnd : Type.
Variable frontEndOf : Stage -> FrontEnd.
Variable parseExpressionOrDeclaration : FrontEnd -> string -> option QuintEx * FrontEnd.
Variable walkExpression : FrontEnd -> string -> QuintEx -> FrontEnd.
Variable resolverErrors : FrontEnd -> list QuintError.
Variable sourceMapOf : FrontEnd -> gmap Z Loc.
Variable toItf : list string -> list QuintEx -> Either string (gmap string Json).
Variable simulate :
  gmap Z LookupDefinition -> Z -> Rng -> option Z -> bool ->
  QuintEx -> QuintEx -> QuintEx -> Z -> Z -> Z -> SimulationRun.
Variable EvalState : Type.
Variable newEvaluator : gmap Z LookupDefinition -> Z -> Rng -> EvalState.
Variable test : EvalState -> LookupDefinition -> Z -> TestResult * list TraceCall * EvalState.

Local Abbreviation guessMain := (guessMainModule basename).
Local Abbreviation runSim :=
  (runSimulator basename quintErrorToString hasResults hasHints hasStateOutput
     FrontEnd frontEndOf parseExpressionOrDeclaration walkExpression resolverErrors sourceMapOf toItf simulate).
Local Abbreviation simOf := (simulationOf basename FrontEnd frontEndOf parseExpressionOrDeclaration walkExpression resolverErrors simulate).
Local Abbreviation runTst :=
  (runTests basename regExpExec quintErrorToString formatError hasResults hasTestDetails
            hasHints hasActionTracking toItf EvalState newEvaluator test).
Local Abbreviation output := (outputResult formatError hasResults).
Local Abbreviation mkErr := (mkErrorMessage quintErrorToString).
Local Abbreviation reportOf := (reportOf formatError hasResults).
Local Abbreviation mainModuleMissing := (mainModuleMissing basename).
Local Abbreviation conclusionOf := (conclusionOf basename quintErrorToString FrontEnd frontEndOf parseExpressionOrDeclaration walkExpression resolverErrors sourceMapOf).
Local Abbreviation isSelected := (isSelected regExpExec).
Local Abbreviation matchesFilter := (matchesFilter regExpExec).
Local Abbreviation failureReport :=
  (failureReport quintErrorToString formatError hasTestDetails hasHints hasActionTracking).
Local Abbreviation testRuns := (testRuns EvalState test).
Local Abbreviation testRunsOf := (testRunsOf basename regExpExec EvalState newEvaluator test).

(** *** Output-only parts *)

Lemma outputOnly_maybePrintCounterExample level states frames :
  outputOnly (maybePrintCounterExample hasStateOutput level states frames).
Proof. unfold maybePrintCounterExample. output_only. Qed.

Lemma outputOnly_onTraceOfRun env prev index status vars states :
  outputOnly (onTraceOfRun toItf env prev index status vars states).
Proof. unfold onTraceOfRun. output_only. Qed.

Lemma outputOnly_onTraceOfTest env prev index k call :
  outputOnly (onTraceOfTest toItf env prev index k call).
Proof. unfold onTraceOfTest. output_only. Qed.

Lemma outputOnly_reportNamedError level prev index named :
  outputOnly (reportNamedError formatError hasActionTracking level prev index named).
Proof. unfold reportNamedError. destruct named. output_only. Qed.

Lemma outputOnly_reportStatuses results : forall n, outputOnly (reportStatuses n results).
Proof.
  induction results as [|r rs IH]; intros n; simpl; [apply outputOnly_ret|].
  output_only; apply IH.
Qed.

(** *** [outputResult] *)

Lemma outputOnly_reportOf res : outputOnly (reportOf res).
Proof. unfold reportOf. destruct res; output_only. Qed.

Lemma outputResult_unfold res :
  output res
  = (fst (reportOf res) ++ [ProcessExit (if isRight res then 0 else 1)], Val tt).
Proof.
  destruct res as [e|st]; unfold outputResult, reportOf, stageOf, isRight;
    destruct (JS.truthyString (out (args _))); simpl od_seed;
    rewrite seq_outputOnly by output_only; reflexivity.
Qed.

Lemma outputResult_exitCode res :
  exitCode (fst (output res)) = Some (if isRight res then 0 else 1).
Proof.
  rewrite outputResult_unfold. simpl fst.
  rewrite exitCode_after_output by apply outputOnly_reportOf. reflexivity.
Qed.

(** *** Configuration errors *)

Lemma runSimulator_main_missing env prev :
  mainModuleMissing prev ->
  exists e, runSim env prev = ([], Val (Left e)) /\ msg e = "Argument error".
Proof.
  unfold mainModuleMissing, runSimulator. intros H. cbv zeta. rewrite H.
  eexists. split; reflexivity.
Qed.

Lemma runTests_main_missing env prev :
  mainModuleMissing prev ->
  exists e, runTst env prev = ([], Val (Left e)) /\ msg e = "Argument error".
Proof.
  unfold mainModuleMissing, runTests. intros H. cbv zeta. rewrite H.
  eexists. split; reflexivity.
Qed.

(** C4: when the seed text is not a big integer, or the main module is
    not among the modules, [runSimulator] and [runTests] both return an
    error value that names the configuration problem, and they do so
    without a single event: no evaluator is made, no attempt is run,
    nothing is printed or written. *)
Theorem configuration_errors_come_first env prev :
  mainModuleMissing prev \/ seedMalformed prev ->
  (exists e, runSim env prev = ([], Val (Left e)) /\ isConfigurationError e)
  /\ (exists e, runTst env prev = ([], Val (Left e)) /\ isConfigurationError e).
Proof.
  intros [Hmain | (text & Hseed & Hparse)].
  - destruct (runSimulator_main_missing env prev Hmain) as (e1 & H1 & M1).
    destruct (runTests_main_missing env prev Hmain) as (e2 & H2 & M2).
    split; eexists; (split; [eassumption | now left]).
  - split.
    + destruct (findModule (guessMain prev) (modules prev)) eqn:Hmain.
      * unfold runSimulator. cbv zeta. rewrite Hmain, Hseed, (mkRng_malformed env text Hparse).
        eexists. split; [reflexivity|]. right. now exists text.
      * destruct (runSimulator_main_missing env prev Hmain) as (e1 & H1 & M1).
        eexists. split; [eassumption | now left].
    + destruct (findModule (guessMain prev) (modules prev)) eqn:Hmain.
      * unfold runTests. cbv zeta. rewrite Hmain, Hseed, (mkRng_malformed env text Hparse).
        eexists. split; [reflexivity|]. right. now exists text.
      * destruct (runTests_main_missing env prev Hmain) as (e1 & H1 & M1).
        eexists. split; [eassumption | now left].
Qed.

(** *** The verdict of a simulation *)

Lemma runSimulator_accepted env prev run evs res :
  simOf env prev = Some run ->
  runSim env prev = (evs, Val res) ->
  res = conclusionOf prev run.
Proof.
  unfold runSimulator, simulationOf, conclusionOf. cbv zeta.
  destruct (findModule _ _); [|intros H; discriminate H].
  destruct (mkRng _ _) as [why|rng]; [intros H; discriminate H|].
  destruct (mergeInMany _) as [errs|parsed]; [intros H; discriminate H|].
  destruct parsed as [|i [|s [|v [|? ?]]]]; try (intros H; discriminate H).
  intros Hrun H. injection Hrun as <-.
  apply bind_Val_inv in H as (? & [] & ? & _ & H & _).
  apply bind_Val_inv in H as (? & [] & ? & _ & H & _).
  apply bind_Val_inv in H as (? & [] & ? & _ & H & _).
  destruct (status (outcomeOf _)).
  - apply bind_Val_inv in H as (? & [] & ? & _ & H & _).
    apply bind_Val_inv in H as (? & [] & ? & _ & H & _).
    now apply ret_inv in H as [_ <-].
  - apply bind_Val_inv in H as (? & [] & ? & _ & H & _).
    apply bind_Val_inv in H as (? & [] & ? & _ & H & _).
    now apply ret_inv in H as [_ <-].
  - now apply ret_inv in H as [_ <-].
Qed.

(** Without an accepted configuration, the value returned is an error
    that leaves the status of the stage as it was. *)
Lemma runSimulator_rejected env prev evs res :
  simOf env prev = None ->
  runSim env prev = (evs, Val res) ->
  exists e, res = Left e /\ st_status (err_stage e) = st_status prev.
Proof.
  unfold runSimulator, simulationOf. cbv zeta.
  destruct (findModule _ _).
  2:{ intros _ H. apply ret_inv in H as [_ <-]. eexists. split; reflexivity. }
  destruct (mkRng _ _) as [why|rng].
  { intros _ H. apply ret_inv in H as [_ <-]. eexists. split; reflexivity. }
  destruct (mergeInMany _) as [errs|parsed].
  { intros _ H. apply ret_inv in H as [_ <-]. eexists. split; reflexivity. }
  destruct parsed as [|i [|s [|v [|? ?]]]]; intros Hn H;
    try discriminate Hn; discriminate H.
Qed.

Lemma conclusionOf_status prev run :
  st_status (stageOf (conclusionOf prev run))
  = Some (toStatus (status (outcomeOf (evalResult run)))).
Proof. unfold conclusionOf. cbv zeta. now destruct (status (outcomeOf (evalResult run))). Qed.

Lemma conclusionOf_isRight prev run :
  isRight (conclusionOf prev run) = true <-> status (outcomeOf (evalResult run)) = st_ok.
Proof.
  unfold conclusionOf. cbv zeta.
  destruct (status (outcomeOf (evalResult run))); simpl; split; intros H;
    try reflexivity; discriminate H.
Qed.

Lemma conclusionOf_seed prev run :
  st_seed (stageOf (conclusionOf prev run)) = trace_seed <$> head (bestTraces run).
Proof. unfold conclusionOf. cbv zeta. now destruct (status (outcomeOf (evalResult run))). Qed.

Lemma conclusionOf_args prev run : args (stageOf (conclusionOf prev run)) = args prev.
Proof. unfold conclusionOf. cbv zeta. now destruct (status (outcomeOf (evalResult run))). Qed.

Lemma kind_bool (v : QuintEx) : kind v = "bool" -> exists id b, v = QuintBool id b.
Proof. destruct v; intros H; try discriminate H. now eexists _, _. Qed.

(** C1: in a run of [runSimulator] that reaches the evaluator, whose
    [simulate] answers with a failure or, as the type assertion of the
    driver has it, with a boolean: the status of the returned stage is
    ['error'] exactly for a failure, ['ok'] exactly for the boolean
    true, ['violation'] exactly for the boolean false, and it is one of
    these three. *)
Theorem runSimulator_classifies env prev run evs res :
  simOf env prev = Some run ->
  (forall v, evalResult run = Right v -> kind v = "bool") ->
  runSim env prev = (evs, Val res) ->
  let s := st_status (stageOf res) in
  (s = Some error <-> exists e, evalResult run = Left e)
  /\ (s = Some ok <-> exists id, evalResult run = Right (QuintBool id true))
  /\ (s = Some violation <-> exists id, evalResult run = Right (QuintBool id false))
  /\ (s = Some error \/ s = Some ok \/ s = Some violation).
Proof.
  intros Hsim Hbool Hrun. cbv zeta.
  rewrite (runSimulator_accepted env prev run evs res Hsim Hrun), conclusionOf_status.
  destruct (evalResult run) as [e|v] eqn:Hev.
  - simpl. repeat split; try (intros H; discriminate H); eauto;
      intros [? H]; discriminate H.
  - destruct (kind_bool v (Hbool v eq_refl)) as (id & b & ->).
    destruct b; simpl; repeat split; try (intros H; discriminate H); eauto;
      intros [? H]; discriminate H.
Qed.

(** C2: a completed [runSimulator] returns a success value exactly when
    the verdict of the run is ['ok'], and an error value for
    ['violation'] and ['error'] (and for a rejected configuration);
    [outputResult] then ends the process with code 0 for a success
    value and with code 1 for an error value. *)
Theorem exit_code_contract env prev evs res :
  runSim env prev = (evs, Val res) ->
  exitCode (fst (output res)) = Some (if isRight res then 0 else 1)
  /\ (isRight res = true <->
      exists run, simOf env prev = Some run /\ status (outcomeOf (evalResult run)) = st_ok)
  /\ (forall run, simOf env prev = Some run ->
        status (outcomeOf (evalResult run)) = st_ok ->
        st_status (stageOf res) = Some ok /\ exitCode (fst (output res)) = Some 0)
  /\ (forall run, simOf env prev = Some run ->
        status (outcomeOf (evalResult run)) = st_violation \/
        status (outcomeOf (evalResult run)) = st_error ->
        isLeft res = true
        /\ st_status (stageOf res) = Some (toStatus (status (outcomeOf (evalResult run))))
        /\ exitCode (fst (output res)) = Some 1).
Proof.
  intros Hrun. split; [apply outputResult_exitCode|].
  destruct (simOf env prev) as [run|] eqn:Hsim.
  - pose proof (runSimulator_accepted env prev run evs res Hsim Hrun) as ->.
    pose proof (conclusionOf_isRight prev run) as Hright.
    split; [|split].
    + rewrite Hright. split; [intros H; now exists run | intros (r & Hr & H); now injection Hr as <-].
    + intros r Hr Hok. injection Hr as <-.
      rewrite outputResult_exitCode, conclusionOf_status, Hok.
      apply Hright in Hok. now rewrite Hok.
    + intros r Hr Hbad. injection Hr as <-.
      rewrite outputResult_exitCode, conclusionOf_status.
      assert (isRight (conclusionOf prev run) = false) as Hleft.
      { destruct (isRight (conclusionOf prev run)) eqn:E; [|reflexivity].
        apply conclusionOf_isRight in E. rewrite E in Hbad. now destruct Hbad. }
      rewrite Hleft. repeat split.
      destruct (conclusionOf prev run); [reflexivity | discriminate Hleft].
  - destruct (runSimulator_rejected env prev evs res Hsim Hrun) as (e & -> & _).
    split; [|split].
    + split; [intros H; discriminate H | intros (r & Hr & _); discriminate Hr].
    + intros r Hr. discriminate Hr.
    + intros r Hr. discriminate Hr.
Qed.

(** *** The tests that are run *)

Lemma seq_inv {B} (m : M unit) (k : M B) (evs : list Event) (b : B) :
  outputOnly m -> (m ;; k) = (evs, Val b) -> k = (fst k, Val b) /\ evs = fst m ++ fst k.
Proof.
  intros Hm. rewrite (seq_outputOnly m k Hm). intros H. injection H as <- Hk.
  split; [|reflexivity]. destruct k; simpl in *; now subst.
Qed.

Lemma seq_seq_ret {B} (m1 m2 : M unit) (x : B) :
  outputOnly m1 -> outputOnly m2 -> (m1 ;; m2 ;; ret x) = (fst (m1 ;; m2), Val x).
Proof.
  destruct m1 as [e1 c1], m2 as [e2 c2]. intros [H1 _] [H2 _]. simpl in *. subst.
  simpl. now rewrite app_nil_r.
Qed.

Lemma outputOnly_events (m : M unit) (e : list Event) (c : Completion unit) :
  outputOnly m -> m = (e, c) -> Forall (fun ev => isOutput ev = true) e.
Proof. intros [_ H] ->. exact H. Qed.

Lemma testsRun_app (l1 l2 : list Event) : testsRun (l1 ++ l2) = testsRun l1 ++ testsRun l2.
Proof. apply omap_app. Qed.

Lemma testsRun_RunTest (d : LookupDefinition) (l : list Event) :
  testsRun (RunTest d :: l) = d :: testsRun l.
Proof. reflexivity. Qed.

Lemma testsRun_output (l : list Event) :
  Forall (fun ev => isOutput ev = true) l -> testsRun l = [].
Proof.
  induction 1 as [|ev l Hev _ IH]; [reflexivity|].
  destruct ev; simpl in *; try discriminate Hev; exact IH.
Qed.

Lemma testFilter_quiet prev d : fst (testFilter regExpExec prev d) = [].
Proof.
  unfold testFilter, isMatchingTest.
  destruct (String.eqb _ _); [|reflexivity].
  destruct (JS.truthyString _); [|reflexivity].
  now destruct (regExpExec _ _).
Qed.

Lemma isSelected_spec prev d :
  isSelected prev d = true <->
  def_kind d = "def" /\ matchesFilter (match_ (args prev)) (def_name d).
Proof.
  unfold isSelected, testFilter, isMatchingTest, matchesFilter.
  destruct (String.eqb_spec (def_kind d) "def") as [Hk|Hk].
  - destruct (JS.truthyString _).
    + destruct (regExpExec _ _) as [[|]|]; simpl; split; try (intros [_ H]; discriminate H);
        try (intros H; discriminate H); auto.
    + simpl. split; [auto | now intros [_ H]].
  - simpl. split; [intros H; discriminate H | intros [H _]; contradiction].
Qed.

Lemma filterM_quiet {A} (p : A -> M bool) (xs : list A) (evs : list Event) (ys : list A) :
  (forall x, fst (p x) = []) ->
  filterM p xs = (evs, Val ys) ->
  evs = [] /\
  ys = List.filter (fun x => match snd (p x) with Val b => b | Throw _ => false end) xs.
Proof.
  intros Hp. revert evs ys. induction xs as [|x xs IH]; intros evs ys H; simpl in H.
  - now apply ret_inv in H as [-> <-].
  - apply bind_Val_inv in H as (e1 & b & e2 & Hx & H & ->).
    apply bind_Val_inv in H as (e3 & zs & e4 & Hxs & H & ->).
    apply ret_inv in H as [-> <-].
    destruct (IH _ _ Hxs) as [-> ->].
    pose proof (Hp x) as Hq. rewrite Hx in Hq. simpl in Hq. subst e1.
    split; [reflexivity|]. simpl. rewrite Hx. simpl. now destruct b.
Qed.

Lemma selectTests_spec prev mainName evs defs :
  selectTests regExpExec prev mainName = (evs, Val defs) ->
  evs = [] /\
  exists byName, definitionsByModule prev !! mainName = Some byName
                 /\ defs = List.filter (isSelected prev) (concat byName).
Proof.
  unfold selectTests. destruct (definitionsByModule prev !! mainName) as [byName|];
    [|intros H; discriminate H].
  intros H. apply filterM_quiet in H as [-> ->]; [|apply testFilter_quiet].
  split; [reflexivity|]. now exists byName.
Qed.

(** Running the selected definitions never throws; the evaluator is
    asked for exactly these definitions, in order, and answers with one
    result for each. *)
Lemma runTestDefs_spec env prev defs :
  forall ev index, exists evs results,
    runTestDefs toItf EvalState test env prev ev index defs = (evs, Val results)
    /\ testsRun evs = defs
    /\ length results = length defs.
Proof.
  induction defs as [|d defs IH]; intros ev index; simpl.
  - now exists [], [].
  - destruct (test ev d (maxSamples (args prev))) as [[res calls] ev'] eqn:Ht.
    destruct (IH ev' (S index)) as (evs & results & Hrun & Htests & Hlen).
    assert (outputOnly (forEach (onTraceOfTest toItf env prev index) calls)) as Hout
      by (apply outputOnly_forEach; intros; apply outputOnly_onTraceOfTest).
    rewrite (seq_outputOnly _ _ Hout), Hrun. simpl.
    eexists _, _. split; [reflexivity|]. split.
    + rewrite app_nil_r, testsRun_RunTest, testsRun_app.
      now rewrite (testsRun_output _ (proj2 Hout)), Htests.
    + simpl. now rewrite Hlen.
Qed.

Lemma outputOnly_failureReport prev results : outputOnly (failureReport prev results).
Proof.
  unfold failureReport. cbv zeta. output_only. apply outputOnly_reportNamedError.
Qed.

(** The tests of a run are those of the definitions given, in order. *)
Lemma testRuns_defs prev defs : forall ev, map run_def (testRuns prev ev defs) = defs.
Proof.
  induction defs as [|d defs IH]; intros ev; simpl; [reflexivity|].
  destruct (test ev d (maxSamples (args prev))) as [[res calls] ev']. simpl.
  now rewrite IH.
Qed.

(** The results that [runTestDefs] returns are the answers of the
    evaluator, in order. *)
Lemma runTestDefs_runs env prev defs :
  forall ev index, exists evs,
    runTestDefs toItf EvalState test env prev ev index defs
    = (evs, Val (map run_result (testRuns prev ev defs)))
    /\ testsRun evs = defs.
Proof.
  induction defs as [|d defs IH]; intros ev index; simpl.
  - now exists [].
  - destruct (test ev d (maxSamples (args prev))) as [[res calls] ev'] eqn:Ht.
    destruct (IH ev' (S index)) as (evs & Hrun & Htests).
    assert (outputOnly (forEach (onTraceOfTest toItf env prev index) calls)) as Hout
      by (apply outputOnly_forEach; intros; apply outputOnly_onTraceOfTest).
    rewrite (seq_outputOnly _ _ Hout), Hrun. simpl.
    eexists _. split; [reflexivity|].
    rewrite app_nil_r, testsRun_RunTest, testsRun_app.
    now rewrite (testsRun_output _ (proj2 Hout)), Htests.
Qed.

(** A run of [runTests] with an accepted configuration: the evaluator is
    asked for the selected definitions and for nothing else, the stage
    lists the names by the status of the results of these tests, and
    the value is a success exactly when no result is a failure; the
    report of the failures is part of the events. *)
Lemma runTests_runs env prev m rng evs res :
  findModule (guessMain prev) (modules prev) = Some m ->
  mkRng env (seed (args prev)) = Right rng ->
  runTst env prev = (evs, Val res) ->
  exists byName runs,
    definitionsByModule prev !! guessMain prev = Some byName
    /\ testRunsOf env prev = Some runs
    /\ map run_def runs = List.filter (isSelected prev) (concat byName)
    /\ testsRun evs = map run_def runs
    /\ stageOf res = testedStage prev (map run_result runs)
    /\ (List.filter isFailed (map run_result runs) = [] ->
        res = Right (testedStage prev (map run_result runs)))
    /\ (List.filter isFailed (map run_result runs) <> [] ->
        res = cliErr "Tests failed" (testedStage prev (map run_result runs))
        /\ exists before, evs = before ++ fst (failureReport prev (map run_result runs))).
Proof.
  intros Hmain Hrng. unfold runTests. cbv zeta. rewrite Hmain, Hrng. intros H.
  apply bind_Val_inv in H as (e0 & [] & e1 & Hbanner & H & ->).
  assert (Forall (fun ev => isOutput ev = true) e0) as F0.
  { eapply outputOnly_events; [|exact Hbanner]. output_only. }
  apply bind_Val_inv in H as (e2 & defs & e3 & Hsel & H & ->).
  assert (snd (selectTests regExpExec prev (guessMain prev)) = Val defs) as Hsel'
    by now rewrite Hsel.
  apply selectTests_spec in Hsel as (-> & byName & Hby & ->).
  apply bind_Val_inv in H as (e4 & [] & e5 & Hemit & H & ->).
  injection Hemit as <-.
  apply bind_Val_inv in H as (e6 & results & e7 & Hrun & H & ->).
  set (evaluator := newEvaluator (table (with_stage "testing" prev))
                      (deriveVerbosity (args prev)) rng) in *.
  set (defs := List.filter (isSelected prev) (concat byName)) in *.
  destruct (runTestDefs_runs env prev defs evaluator O) as (e6' & Hrun' & Htests).
  rewrite Hrun in Hrun'. injection Hrun' as <- ->.
  set (runs := testRuns prev evaluator defs) in *.
  apply bind_Val_inv in H as (e8 & [] & e9 & Hstatus & H & ->).
  assert (Forall (fun ev => isOutput ev = true) e8) as F8.
  { eapply outputOnly_events; [|exact Hstatus]. output_only. apply outputOnly_reportStatuses. }
  apply bind_Val_inv in H as (e10 & [] & e11 & Hstats & H & ->).
  assert (Forall (fun ev => isOutput ev = true) e10) as F10.
  { eapply outputOnly_events; [|exact Hstats]. output_only. }
  clear Hbanner Hstatus Hstats Hrun.
  assert (map run_def runs = defs) as Hdefs by apply testRuns_defs.
  assert (forall tail, Forall (fun ev => isOutput ev = true) tail ->
            testsRun (e0 ++ [] ++ [NewEvaluator rng] ++ e6 ++ e8 ++ e10 ++ tail)
            = map run_def runs) as Hruns.
  { intros tail Htail. rewrite !testsRun_app.
    rewrite (testsRun_output e0 F0), (testsRun_output e8 F8), (testsRun_output e10 F10).
    rewrite Htests, (testsRun_output tail Htail), Hdefs. simpl. now rewrite app_nil_r. }
  exists byName, runs. split; [exact Hby|]. split.
  { unfold_test_readings. cbv zeta. now rewrite Hmain, Hrng, Hsel'. }
  split; [exact Hdefs|].
  destruct (Nat.eqb_spec (length (List.filter isFailed (map run_result runs))) 0)
    as [Hnone|Hsome].
  - apply ret_inv in H as [-> <-].
    assert (List.filter isFailed (map run_result runs) = []) as Hnil
      by now apply nil_length_inv.
    rewrite (Hruns [] ltac:(constructor)).
    split; [reflexivity|]. split; [reflexivity|].
    split; [reflexivity|]. intros C. contradiction.
  - pose proof (outputOnly_failureReport prev (map run_result runs)) as Hreport.
    assert (e11 = fst (failureReport prev (map run_result runs))
            /\ res = cliErr "Tests failed" (testedStage prev (map run_result runs)))
      as [-> ->].
    { rewrite seq_seq_ret in H.
      - injection H as <- <-. split; reflexivity.
      - output_only. apply outputOnly_reportNamedError.
      - output_only. }
    rewrite (Hruns _ (proj2 Hreport)).
    split; [reflexivity|]. split; [reflexivity|].
    split.
    + intros Hnil. rewrite Hnil in Hsome. now contradiction Hsome.
    + intros _. split; [reflexivity|].
      exists (e0 ++ [] ++ [NewEvaluator rng] ++ e6 ++ e8 ++ e10).
      now rewrite <- !app_assoc.
Qed.

(** The same in terms of the results alone. *)
Lemma runTests_accepted env prev m rng evs res :
  findModule (guessMain prev) (modules prev) = Some m ->
  mkRng env (seed (args prev)) = Right rng ->
  runTst env prev = (evs, Val res) ->
  exists byName results,
    definitionsByModule prev !! guessMain prev = Some byName
    /\ testsRun evs = List.filter (isSelected prev) (concat byName)
    /\ length results = length (testsRun evs)
    /\ stageOf res = testedStage prev results
    /\ (List.filter isFailed results = [] -> res = Right (testedStage prev results))
    /\ (List.filter isFailed results <> [] ->
        res = cliErr "Tests failed" (testedStage prev results)
        /\ exists before, evs = before ++ fst (failureReport prev results)).
Proof.
  intros Hmain Hrng Hrun.
  destruct (runTests_runs env prev m rng evs res Hmain Hrng Hrun)
    as (byName & runs & Hby & _ & Hdefs & Htests & Hstage & Hok & Hfailed).
  exists byName, (map run_result runs). split; [exact Hby|].
  split; [now rewrite Htests|].
  split; [now rewrite Htests, !length_map|].
  split; [exact Hstage|]. split; [exact Hok | exact Hfailed].
Qed.

(** Every test of a run is an answer of the evaluator for its
    definition. *)
Lemma testRuns_answers prev defs r :
  forall ev, In r (testRuns prev ev defs) ->
  exists ev0 ev1,
    test ev0 (run_def r) (maxSamples (args prev)) = (run_result r, run_calls r, ev1).
Proof.
  induction defs as [|d defs IH]; intros ev; simpl; [contradiction|].
  destruct (test ev d (maxSamples (args prev))) as [[res calls] ev'] eqn:Ht.
  intros [<- | Hin]; [now exists ev, ev' | now apply (IH ev')].
Qed.

Lemma testRunsOf_answers env prev runs r :
  testRunsOf env prev = Some runs -> In r runs ->
  exists ev0 ev1,
    test ev0 (run_def r) (maxSamples (args prev)) = (run_result r, run_calls r, ev1).
Proof.
  unfold_test_readings. cbv zeta.
  destruct (findModule _ _); [|discriminate].
  destruct (mkRng env _) as [why|rng]; [discriminate|].
  destruct (snd (selectTests _ _ _)) as [defs|exn]; [|discriminate].
  intros H. injection H as <-. apply testRuns_answers.
Qed.

Lemma In_reportedNames prev results name :
  In name (reportedNames (testedStage prev results)) ->
  exists res, In res results /\ name = test_name res.
Proof.
  unfold reportedNames, testedStage. simpl.
  rewrite !in_app_iff, !in_map_iff.
  intros [(res & <- & Hin) | [(res & <- & Hin) | (res & <- & Hin)]];
    apply filter_In in Hin as [Hin _]; now exists res.
Qed.

(** C7, as amended: in a run of [runTests] with an accepted
    configuration, [evaluator.test] is called for exactly the entries
    of the main module that are of kind ['def'] and pass the filter: a
    match of the [--match] pattern when a non-empty one is given, the
    ending [Test] when none is given. The lists of passed, failed and
    ignored names hold the names of the results of these calls, by the
    status of the result, so every name in a list is the name that the
    evaluator gave to the result of an entry that passes the filter.
    When the evaluator names each result after its definition, an entry
    that does not pass the filter, and shares its name with no other
    entry, is not run and its name is in none of the three lists. *)
Theorem tests_selected_by_filter env prev m rng evs res :
  findModule (guessMain prev) (modules prev) = Some m ->
  mkRng env (seed (args prev)) = Right rng ->
  runTst env prev = (evs, Val res) ->
  exists byName runs,
    definitionsByModule prev !! guessMain prev = Some byName
    /\ testRunsOf env prev = Some runs
    /\ testsRun evs = map run_def runs
    /\ (forall d, In d (testsRun evs) <->
                  In d (concat byName) /\ def_kind d = "def"
                  /\ matchesFilter (match_ (args prev)) (def_name d))
    /\ st_passed (stageOf res)
       = Some (map test_name (List.filter isPassed (map run_result runs)))
    /\ st_failed (stageOf res)
       = Some (map test_name (List.filter isFailed (map run_result runs)))
    /\ st_ignored (stageOf res)
       = Some (map test_name (List.filter isIgnored (map run_result runs)))
    /\ (forall name, In name (reportedNames (stageOf res)) ->
        exists r, In r runs /\ name = test_name (run_result r)
                  /\ In (run_def r) (concat byName) /\ def_kind (run_def r) = "def"
                  /\ matchesFilter (match_ (args prev)) (def_name (run_def r)))
    /\ ((forall ev d n, test_name (fst (fst (test ev d n))) = def_name d) ->
        forall d, In d (concat byName) ->
          ~ (def_kind d = "def" /\ matchesFilter (match_ (args prev)) (def_name d)) ->
          (forall d', In d' (concat byName) -> def_name d' = def_name d -> d' = d) ->
          ~ In d (testsRun evs) /\ ~ In (def_name d) (reportedNames (stageOf res))).
Proof.
  intros Hmain Hrng Hrun.
  destruct (runTests_runs env prev m rng evs res Hmain Hrng Hrun)
    as (byName & runs & Hby & Hruns & Hdefs & Htests & Hstage & _).
  assert (forall d, In d (testsRun evs) <->
                    In d (concat byName) /\ def_kind d = "def"
                    /\ matchesFilter (match_ (args prev)) (def_name d)) as Hfilter.
  { intros d. rewrite Htests, Hdefs, filter_In, isSelected_spec. reflexivity. }
  assert (forall name, In name (reportedNames (stageOf res)) ->
            exists r, In r runs /\ name = test_name (run_result r)
                      /\ In (run_def r) (concat byName) /\ def_kind (run_def r) = "def"
                      /\ matchesFilter (match_ (args prev)) (def_name (run_def r))) as Hnames.
  { intros name Hin. rewrite Hstage in Hin.
    apply In_reportedNames in Hin as (result & Hin & ->).
    apply in_map_iff in Hin as (r & <- & Hr).
    exists r. split; [exact Hr|]. split; [reflexivity|].
    apply Hfilter. rewrite Htests. now apply in_map. }
  exists byName, runs. split; [exact Hby|]. split; [exact Hruns|].
  split; [exact Htests|]. split; [exact Hfilter|].
  split; [now rewrite Hstage|]. split; [now rewrite Hstage|].
  split; [now rewrite Hstage|]. split; [exact Hnames|].
  intros Hnamed d Hd Hrejected Hunique. split.
  - intros Hin. apply Hfilter in Hin as (_ & Hk & Hm). apply Hrejected. now split.
  - intros Hin. apply Hnames in Hin as (r & Hr & Hname & Hd' & Hk & Hm).
    destruct (testRunsOf_answers env prev runs r Hruns Hr) as (ev0 & ev1 & Hanswer).
    pose proof (Hnamed ev0 (run_def r) (maxSamples (args prev))) as Hn.
    rewrite Hanswer in Hn. cbn [fst] in Hn. rewrite Hn in Hname.
    apply Hrejected. rewrite <- (Hunique (run_def r) Hd' (eq_sym Hname)). now split.
Qed.

(** *** The seed in the output *)

Lemma forEach_from_emit {A} (g : A -> Event) (xs : list A) :
  forall i, forEach_from (fun _ x => emit (g x)) i xs = (map g xs, Val tt).
Proof.
  induction xs as [|x xs IH]; intros i; simpl; [reflexivity|]. now rewrite IH.
Qed.

Lemma In_forEach_from {A} (f : nat -> A -> M unit) (xs : list A) (x : A) (ev : Event) :
  (forall i y, outputOnly (f i y)) ->
  In x xs -> (forall i, In ev (fst (f i x))) ->
  forall i, In ev (fst (forEach_from f i xs)).
Proof.
  intros Hf. induction xs as [|y xs IH]; intros Hin Hev i; [contradiction|].
  simpl. rewrite (seq_outputOnly _ _ (Hf i y)). simpl. apply in_or_app.
  destruct Hin as [->|Hin]; [left; apply Hev | right; now apply IH].
Qed.

Lemma reportNamedError_seed level prev index r err :
  In (ConsoleLog (testSeedHint r))
     (fst (reportNamedError formatError hasActionTracking level prev index (r, err))).
Proof.
  unfold reportNamedError.
  rewrite (seq_outputOnly (consoleLog _)) by output_only.
  cbn [fst]. apply in_or_app. right.
  rewrite (seq_outputOnly (forEach _ _)) by output_only.
  cbn [fst]. apply in_or_app. right.
  rewrite (seq_outputOnly (when _ _)) by output_only.
  cbn [fst]. apply in_or_app. right. now left.
Qed.

Lemma failureReport_seed prev results r err :
  hasTestDetails (deriveVerbosity (args prev)) = true ->
  In r results -> isFailed r = true -> In err (test_errors r) ->
  In (ConsoleLog (testSeedHint r)) (fst (failureReport prev results)).
Proof.
  intros Hdetails Hr Hfailed Herr. unfold failureReport. cbv zeta. rewrite Hdetails.
  rewrite (seq_outputOnly (when true _))
    by (output_only; apply outputOnly_reportNamedError).
  cbn [fst]. apply in_or_app. left. cbn [when].
  rewrite (seq_outputOnly (consoleLog _)) by output_only.
  cbn [fst]. apply in_or_app. right.
  rewrite (seq_outputOnly (forEach _ _))
    by (output_only; apply outputOnly_reportNamedError).
  cbn [fst]. apply in_or_app. left.
  apply (In_forEach_from _ _ (r, mkErr (sourceMap prev) err)).
  - intros. apply outputOnly_reportNamedError.
  - unfold namedErrorsOf. apply in_flat_map. exists r. split.
    + apply filter_In. now split.
    + now apply (in_map (fun e => (r, mkErr (sourceMap prev) e))).
  - intros i. apply reportNamedError_seed.
Qed.

(** The seed line of [outputResult] for an error value, when no [--out]
    file is asked for. *)
Lemma reportOf_seed_line (e : ErrResult) (s : Z) :
  JS.truthyString (out (args (err_stage e))) = false ->
  st_seed (err_stage e) = Some s -> s <> 0 ->
  In (ConsoleLog (seedHint s)) (fst (reportOf (Left e))) <->
  JS.truthyString (outItf (args (err_stage e))) = false
  /\ hasResults (verbosity (args (err_stage e))) = true.
Proof.
  intros Hout Hseed Hs. unfold reportOf, stageOf. cbv zeta. rewrite Hout, Hseed.
  unfold forEach, consoleError. rewrite forEach_from_emit.
  unfold deriveVerbosity. rewrite Hout.
  assert (JS.truthyBigInt (Some s) = true) as ->
    by (simpl; now destruct (Z.eqb_spec s 0)).
  cbn [bind fst snd].
  destruct (JS.truthyString (outItf (args (err_stage e))));
    destruct (hasResults (verbosity (args (err_stage e)))); cbn.
  all: rewrite ?app_nil_r.
  all: split; [intros Hin | intros [H1 H2]; try discriminate H1; try discriminate H2].
  all: try (apply in_app_or in Hin as [Hin|Hin];
            [apply in_map_iff in Hin as (? & Hd & _); discriminate Hd
            | repeat (destruct Hin as [Hd|Hin]; [discriminate Hd|]); contradiction]).
  - apply in_app_or in Hin as [Hin|Hin]; [|now split].
    now split.
  - apply in_or_app. right. now left.
Qed.

(** *** Where the hint of a test is not printed *)

Lemma eventsAll_runTestDefs (P : Event -> Prop) env prev defs :
  (forall d, P (RunTest d)) ->
  (forall index k call, eventsAll P (onTraceOfTest toItf env prev index k call)) ->
  forall ev index, eventsAll P (runTestDefs toItf EvalState test env prev ev index defs).
Proof.
  intros Hrun Hcall. induction defs as [|d defs IH]; intros ev index; cbn [runTestDefs].
  - apply eventsAll_ret.
  - apply eventsAll_bind; [apply eventsAll_emit, Hrun | intros _].
    destruct (test ev d (maxSamples (args prev))) as [[res calls] ev'].
    apply eventsAll_bind; [apply eventsAll_forEach; intros; apply Hcall | intros _].
    apply eventsAll_bind; [apply IH | intros rest; apply eventsAll_ret].
Qed.

Lemma selectTests_quiet prev mainName : fst (selectTests regExpExec prev mainName) = [].
Proof.
  unfold selectTests. destruct (definitionsByModule prev !! mainName); [|reflexivity].
  apply filterM_events, testFilter_quiet.
Qed.

Lemma reportStatuses_no_hint results :
  forall n,
    eventsAll (fun ev => forall r, ev <> ConsoleLog (testSeedHint r))
              (reportStatuses n results).
Proof.
  induction results as [|res results IH]; intros n; cbn [reportStatuses];
    [apply eventsAll_ret|].
  apply eventsAll_bind; [apply eventsAll_when, eventsAll_emit; not_the_hint | intros _].
  apply eventsAll_bind; [|intros _; apply IH].
  apply eventsAll_when, eventsAll_emit.
  destruct (Integer_toString_head n) as (c & rest & -> & Hc & _). not_the_hint.
Qed.

(** Without the details of the tests, no line that [runTests] prints is
    the hint of a test. *)
Lemma runTests_hint_hidden env prev :
  hasTestDetails (deriveVerbosity (args prev)) = false ->
  eventsAll (fun ev => forall r, ev <> ConsoleLog (testSeedHint r)) (runTst env prev).
Proof.
  intros Hdetails. unfold runTests. cbv zeta. rewrite Hdetails.
  destruct (findModule _ _); [|apply eventsAll_ret].
  destruct (mkRng env _) as [why|rng]; [apply eventsAll_ret|].
  apply eventsAll_bind; [apply eventsAll_when, eventsAll_emit; not_the_hint | intros _].
  apply eventsAll_bind; [apply eventsAll_nil, selectTests_quiet | intros defs].
  apply eventsAll_bind; [apply eventsAll_emit; intros r H; discriminate H | intros _].
  apply eventsAll_bind.
  { apply eventsAll_runTestDefs; [intros d r H; discriminate H|].
    intros index k call. unfold onTraceOfTest. cbv zeta.
    apply eventsAll_when. destruct (toItf _ _);
      apply eventsAll_emit; intros ? H; discriminate H. }
  intros results.
  apply eventsAll_bind; [apply eventsAll_when, reportStatuses_no_hint | intros _].
  apply eventsAll_bind.
  { apply eventsAll_when.
    apply eventsAll_bind; [apply eventsAll_emit; not_the_hint | intros _].
    apply eventsAll_bind; [|intros _; apply eventsAll_bind; [|intros _]];
      apply eventsAll_when, eventsAll_emit;
      match goal with
      | |- context [JS.Number_toString ?n] =>
          destruct (Number_toString_head n) as (c & rest & -> & _ & Hc)
      end; not_the_hint. }
  intros _. destruct (Nat.eqb _ 0); [apply eventsAll_ret|].
  apply eventsAll_bind; [apply eventsAll_ret | intros _].
  apply eventsAll_bind; [|intros _; apply eventsAll_ret].
  apply eventsAll_when.
  apply eventsAll_bind; [|intros _]; apply eventsAll_emit; not_the_hint.
Qed.

(** C6, as amended: when [runSimulator] returns an error value for a
    run whose first kept trace has the non-zero seed [s], that seed is
    in the stage, and [outputResult] writes the stage with it to the
    [--out] file when one is given; without [--out] it prints the line
    "Use --seed=0x... to reproduce." exactly when [--out-itf] is not given
    and the verbosity shows results. When [runTests] returns an error
    value, some test that the evaluator ran has failed, the stage lists
    the failed tests, and, when the verbosity shows test details, the
    line "Use --seed=0x... --match=... to repeat." with the seed and the
    name of the result is printed for every failed test for which the
    evaluator captured an error; when the verbosity does not show test
    details, no line that [runTests] prints is such a hint. *)
Theorem seed_surfaced_when_reporting env prev :
  (forall evs e run s,
      runSim env prev = (evs, Val (Left e)) -> simOf env prev = Some run ->
      trace_seed <$> head (bestTraces run) = Some s -> s <> 0 ->
      (JS.truthyString (out (args prev)) = true ->
         In (WriteJson (default EmptyString (out (args prev)))
                       (OutputStageJson (pickOutputStage (err_stage e))))
            (fst (output (Left e)))
         /\ od_seed (pickOutputStage (err_stage e)) = Some s)
      /\ (JS.truthyString (out (args prev)) = false ->
          (In (ConsoleLog (seedHint s)) (fst (output (Left e))) <->
           JS.truthyString (outItf (args prev)) = false
           /\ hasResults (verbosity (args prev)) = true)))
  /\ (forall evs e m rng,
      findModule (guessMain prev) (modules prev) = Some m ->
      mkRng env (seed (args prev)) = Right rng ->
      runTst env prev = (evs, Val (Left e)) ->
      exists runs,
        testRunsOf env prev = Some runs
        /\ testsRun evs = map run_def runs
        /\ st_failed (err_stage e)
           = Some (map test_name (List.filter isFailed (map run_result runs)))
        /\ (exists r, In r runs /\ isFailed (run_result r) = true)
        /\ (hasTestDetails (deriveVerbosity (args prev)) = true ->
            forall r err,
              In r runs -> isFailed (run_result r) = true ->
              In err (test_errors (run_result r)) ->
              In (ConsoleLog (testSeedHint (run_result r))) evs)
        /\ (hasTestDetails (deriveVerbosity (args prev)) = false ->
            forall r, ~ In (ConsoleLog (testSeedHint r)) evs)).
Proof.
  split.
  - intros evs e run s Hrun Hsim Hseed Hs.
    pose proof (runSimulator_accepted env prev run evs _ Hsim Hrun) as Hres.
    assert (st_seed (err_stage e) = Some s) as Hst
      by (change (err_stage e) with (stageOf (Left e)); now rewrite Hres, conclusionOf_seed).
    assert (args (err_stage e) = args prev) as Hargs
      by (change (err_stage e) with (stageOf (Left e)); now rewrite Hres, conclusionOf_args).
    rewrite outputResult_unfold. cbn [fst]. split.
    + intros Hout. split; [|exact Hst].
      apply in_or_app. left. unfold reportOf, stageOf. cbv zeta.
      rewrite Hargs, Hout. now left.
    + intros Hout. rewrite <- Hargs in *.
      rewrite <- (reportOf_seed_line e s Hout Hst Hs).
      split; [intros Hin | intros Hin; apply in_or_app; now left].
      apply in_app_or in Hin as [Hin|[Hd|[]]]; [exact Hin | discriminate Hd].
  - intros evs e m rng Hmain Hrng Hrun.
    destruct (runTests_runs env prev m rng evs _ Hmain Hrng Hrun)
      as (byName & runs & _ & Hruns & _ & Htests & Hstage & Hgood & Hbad).
    exists runs. split; [exact Hruns|]. split; [exact Htests|].
    split; [cbn [stageOf] in Hstage; now rewrite Hstage|].
    destruct (List.filter isFailed (map run_result runs)) as [|f fs] eqn:Hf.
    { specialize (Hgood eq_refl). discriminate Hgood. }
    split.
    + assert (In f (List.filter isFailed (map run_result runs))) as Hin
        by (rewrite Hf; now left).
      apply filter_In in Hin as [Hin Hfailed].
      apply in_map_iff in Hin as (r & <- & Hr). now exists r.
    + split.
      * intros Hdetails r err Hr Hfailed Herr.
        destruct Hbad as (_ & before & ->); [intros C; discriminate C|].
        apply in_or_app. right.
        apply (failureReport_seed prev (map run_result runs) (run_result r) err);
          [exact Hdetails | now apply in_map | exact Hfailed | exact Herr].
      * intros Hdetails r Hin.
        pose proof (runTests_hint_hidden env prev Hdetails) as Hall.
        unfold eventsAll in Hall. rewrite Hrun in Hall. cbn [fst] in Hall.
        rewrite List.Forall_forall in Hall. exact (Hall _ Hin r eq_refl).
Qed.

(** *** Runs that return, and runs that can be repeated *)

Lemma completion_bind {A B} (m : M A) (k : A -> M B) :
  snd (bind m k) = match snd m with Val a => snd (k a) | Throw exn => Throw exn end.
Proof. destruct m as [e [a|exn]]; simpl; [now destruct (k a) | reflexivity]. Qed.

Lemma completion_outputOnly_ret {B} (m1 m2 : M unit) (x : B) :
  outputOnly m1 -> outputOnly m2 -> snd (m1 ;; m2 ;; ret x) = Val x.
Proof. intros H1 H2. now rewrite (seq_seq_ret m1 m2 x H1 H2). Qed.

Lemma reportBestTrace_completion env1 env2 prev vars index tr :
  snd (reportBestTrace toItf env1 prev vars index tr)
  = snd (reportBestTrace toItf env2 prev vars index tr).
Proof.
  unfold reportBestTrace. destruct (frame_result (trace_frame tr)) as [e|v]; [reflexivity|].
  destruct (String.eqb (kind v) "bool"); [|reflexivity].
  now rewrite (proj1 (outputOnly_onTraceOfRun env1 prev index _ vars _)),
              (proj1 (outputOnly_onTraceOfRun env2 prev index _ vars _)).
Qed.

Lemma forEach_from_completion {A} (f g : nat -> A -> M unit) (xs : list A) :
  (forall i x, snd (f i x) = snd (g i x)) ->
  forall i, snd (forEach_from f i xs) = snd (forEach_from g i xs).
Proof.
  intros Hfg. induction xs as [|x xs IH]; intros i; simpl; [reflexivity|].
  rewrite !completion_bind, Hfg. destruct (snd (g i x)); [apply IH | reflexivity].
Qed.

(** The value returned by [runSimulator], or the exception thrown, does
    not depend on the clock; with a seed other than zero it does not
    depend on the entropy of the environment either: two runs on the
    same stage get the same answer from the evaluator and end alike. *)
Lemma runSimulator_reproducible env1 env2 prev text z :
  seed (args prev) = Some text -> JS.StringToBigInt text = Some z -> z <> 0 ->
  simOf env1 prev = simOf env2 prev
  /\ snd (runSim env1 prev) = snd (runSim env2 prev).
Proof.
  intros Hseed Hparse Hz. unfold simulationOf, runSimulator. cbv zeta.
  rewrite Hseed, !(mkRng_nonzero _ text z Hparse Hz).
  split; [reflexivity|].
  destruct (findModule _ _); [|reflexivity].
  destruct (mergeInMany _) as [errs|parsed]; [reflexivity|].
  destruct parsed as [|i [|s [|v [|? ?]]]]; try reflexivity.
  rewrite !completion_bind. cbn [snd emit].
  unfold forEach.
  rewrite (forEach_from_completion _ _ _ (reportBestTrace_completion env1 env2 prev _) O).
  destruct (snd (forEach_from _ _ _)); [|reflexivity].
  destruct (status (outcomeOf _)); [| |reflexivity];
    now rewrite !completion_outputOnly_ret
      by (try apply outputOnly_maybePrintCounterExample; output_only).
Qed.

(** When every kept trace ends in an error or in a boolean, an accepted
    run returns: it does not throw. *)
Lemma runSimulator_returns env prev run :
  simOf env prev = Some run ->
  Forall (fun t => forall v, frame_result (trace_frame t) = Right v -> kind v = "bool")
         (bestTraces run) ->
  exists evs, runSim env prev = (evs, Val (conclusionOf prev run)).
Proof.
  intros Hsim Hbool.
  assert (outputOnly (forEach (reportBestTrace toItf env prev (varNames run)) (bestTraces run)))
    as Hloop.
  { unfold forEach. generalize O. induction Hbool as [|t ts Ht _ IH]; intros i; simpl.
    - apply outputOnly_ret.
    - apply outputOnly_seq; [|apply IH].
      unfold reportBestTrace. destruct (frame_result (trace_frame t)) as [e|v].
      + apply outputOnly_ret.
      + rewrite (Ht v eq_refl). apply outputOnly_onTraceOfRun. }
  revert Hsim. unfold simulationOf, runSimulator, conclusionOf. cbv zeta.
  destruct (findModule _ _); [|intros H; discriminate H].
  destruct (mkRng _ _) as [why|rng]; [intros H; discriminate H|].
  destruct (mergeInMany _) as [errs|parsed]; [intros H; discriminate H|].
  destruct parsed as [|i [|s [|v [|? ?]]]]; try (intros H; discriminate H).
  intros Hrun. injection Hrun as Hrun. rewrite Hrun.
  rewrite (seq_outputOnly (forEach _ _) _ Hloop).
  destruct (status (outcomeOf (evalResult run))).
  - rewrite seq_seq_ret by (try apply outputOnly_maybePrintCounterExample; output_only).
    eexists. reflexivity.
  - rewrite seq_seq_ret by (try apply outputOnly_maybePrintCounterExample; output_only).
    eexists. reflexivity.
  - eexists. reflexivity.
Qed.

End DriverProperties.

(** ** The drivers on examples *)

Lemma runSimulator_classifies_witness :
  exists run evs res,
    Sample.simulationOf (Sample.env 4) Sample.violatingStage = Some run
    /\ Sample.runSimulator (Sample.env 4) Sample.violatingStage = (evs, Val res)
    /\ (st_status (stageOf res) = Some violation <->
        exists id, evalResult run = Right (QuintBool id false)).
Proof.
  eexists _, _, _. split; [reflexivity|]. split; [reflexivity|].
  eapply (runSimulator_classifies Sample.basename Sample.quintErrorToString
            Sample.hasResults Sample.hasHints Sample.hasStateOutput Sample.FrontEnd Sample.frontEndOf Sample.parseExpressionOrDeclaration Sample.walkExpression Sample.resolverErrors Sample.sourceMapOf
            Sample.toItf Sample.simulate (Sample.env 4) Sample.violatingStage).
  - reflexivity.
  - intros v H. injection H as <-. reflexivity.
  - reflexivity.
Defined.

Lemma exit_code_contract_witness :
  exists evs res,
    Sample.runSimulator (Sample.env 4) Sample.violatingStage = (evs, Val res)
    /\ exitCode (fst (Sample.outputResult res)) = Some 1.
Proof.
  eexists _, _. split; [reflexivity|].
  refine (proj1 (exit_code_contract Sample.basename Sample.quintErrorToString
                   Sample.formatError Sample.hasResults Sample.hasHints
                   Sample.hasStateOutput Sample.FrontEnd Sample.frontEndOf Sample.parseExpressionOrDeclaration Sample.walkExpression Sample.resolverErrors Sample.sourceMapOf Sample.toItf Sample.simulate
                   (Sample.env 4) Sample.violatingStage _ _ _)).
  reflexivity.
Defined.

Lemma configuration_errors_come_first_witness :
  seedMalformed Sample.badSeedStage
  /\ (exists e, Sample.runSimulator (Sample.env 4) Sample.badSeedStage = ([], Val (Left e))
                /\ isConfigurationError e)
  /\ (exists e, Sample.runTests (Sample.env 4) Sample.badSeedStage = ([], Val (Left e))
                /\ isConfigurationError e).
Proof.
  assert (seedMalformed Sample.badSeedStage) as Hbad
    by (exists "12n"; split; reflexivity).
  split; [exact Hbad|].
  apply (configuration_errors_come_first Sample.basename Sample.regExpExec
           Sample.quintErrorToString Sample.formatError Sample.hasResults
           Sample.hasTestDetails Sample.hasHints Sample.hasStateOutput
           Sample.hasActionTracking Sample.FrontEnd Sample.frontEndOf Sample.parseExpressionOrDeclaration Sample.walkExpression Sample.resolverErrors Sample.sourceMapOf Sample.toItf Sample.simulate
           Sample.EvalState Sample.newEvaluator Sample.test
           (Sample.env 4) Sample.badSeedStage).
  right. exact Hbad.
Defined.

(** C3, at the seed ["0"]: two runs of [runSimulator] on the same stage,
    with the same module, seed text and budgets, one in an environment
    whose fresh seed is 4 and one where it is 5. The seed zero is
    dropped by [mkRng], each run draws its generator from the
    environment, and the evaluator, whose verdict here depends on the
    generator, finds no violation in the first run and a violation in
    the second, with different traces, where the same inputs should
    give the same run. *)
Theorem zero_seed_runs_differ :
  seed (args Sample.zeroSeedStage) = Some "0"
  /\ (exists evs st,
        Sample.runSimulator (Sample.env 4) Sample.zeroSeedStage = (evs, Val (Right st))
        /\ st_status st = Some ok /\ st_trace st = Some [QuintInt 2 4])
  /\ (exists evs e,
        Sample.runSimulator (Sample.env 5) Sample.zeroSeedStage = (evs, Val (Left e))
        /\ st_status (err_stage e) = Some violation
        /\ st_trace (err_stage e) = Some [QuintInt 2 5]).
Proof.
  split; [reflexivity|]. split.
  - eexists _, _. split; [reflexivity|]. split; reflexivity.
  - eexists _, _. split; [reflexivity|]. split; reflexivity.
Qed.

(** C6 fails with [--out-itf]: the run ends in a violation found with
    the seed 0x2b67, and nothing that [runSimulator] and [outputResult]
    print or write, the ITF file included, shows that seed. *)
Lemma seed_hidden_by_out_itf :
  exists evs e,
    Sample.runSimulator (Sample.env 4) Sample.itfStage = (evs, Val (Left e))
    /\ st_status (err_stage e) = Some violation
    /\ st_seed (err_stage e) = Some 11111
    /\ existsb (surfacesSeed 11111) (evs ++ fst (Sample.outputResult (Left e))) = false.
Proof.
  eexists _, _. split; [reflexivity|].
  split; [reflexivity|]. split; [reflexivity|]. vm_compute. reflexivity.
Qed.

Lemma seed_surfaced_when_reporting_witness :
  (exists evs e,
      Sample.runSimulator (Sample.env 4) Sample.violatingStage = (evs, Val (Left e))
      /\ In (ConsoleLog (seedHint 11111)) (fst (Sample.outputResult (Left e))))
  /\ (exists evs e,
        Sample.runTests (Sample.env 4) Sample.violatingStage = (evs, Val (Left e))
        /\ st_failed (err_stage e) = Some ["incrementTest"]
        /\ In (ConsoleLog "    Use --seed=0x2b67 --match=incrementTest to repeat.") evs).
Proof.
  destruct (seed_surfaced_when_reporting Sample.basename Sample.regExpExec
              Sample.quintErrorToString Sample.formatError Sample.hasResults
              Sample.hasTestDetails Sample.hasHints Sample.hasStateOutput
              Sample.hasActionTracking Sample.FrontEnd Sample.frontEndOf Sample.parseExpressionOrDeclaration Sample.walkExpression Sample.resolverErrors Sample.sourceMapOf Sample.toItf Sample.simulate
              Sample.EvalState Sample.newEvaluator Sample.test
              (Sample.env 4) Sample.violatingStage) as [Hrun Htests].
  split.
  - eexists _, _. split; [reflexivity|].
    eapply Hrun.
    + reflexivity.
    + reflexivity.
    + reflexivity.
    + intros H. discriminate H.
    + reflexivity.
    + split; reflexivity.
  - eexists _, _. split; [reflexivity|]. split; [reflexivity|].
    edestruct Htests as (runs & Hruns & _ & _ & _ & Hhint & _);
      [reflexivity | reflexivity | reflexivity |].
    vm_compute in Hruns. injection Hruns as <-.
    refine (Hhint eq_refl _ _ (or_introl eq_refl) eq_refl (or_introl eq_refl)).
Defined.

(** C7 fails for the definition [helper] of the main module: it does
    not pass the filter and is not run, but it is not reported as
    ignored either; the list of ignored names is empty. *)
Lemma unmatched_definition_not_reported :
  exists evs res,
    Sample.runTests (Sample.env 4) (Sample.typechecked Sample.arguments) = (evs, Val res)
    /\ In Sample.helperDefinition Sample.definitions
    /\ isSelected Sample.regExpExec (Sample.typechecked Sample.arguments) Sample.helperDefinition
       = false
    /\ ~ In Sample.helperDefinition (testsRun evs)
    /\ st_ignored (stageOf res) = Some [].
Proof.
  eexists _, _. split; [reflexivity|]. split; [right; left; reflexivity|].
  split; [reflexivity|]. split; [|reflexivity].
  intros [H|[H|[]]]; discriminate H.
Qed.

Lemma tests_selected_by_filter_witness :
  exists evs res,
    Sample.runTests (Sample.env 4) (Sample.typechecked Sample.arguments) = (evs, Val res)
    /\ map def_name (testsRun evs) = ["incrementTest"; "resetTest"]
    /\ reportedNames (stageOf res) = ["incrementTest"; "resetTest"]
    /\ ~ In Sample.helperDefinition (testsRun evs)
    /\ ~ In "helper" (reportedNames (stageOf res)).
Proof.
  eexists _, _. split; [reflexivity|].
  split; [reflexivity|]. split; [reflexivity|].
  edestruct (tests_selected_by_filter Sample.basename Sample.regExpExec
               Sample.quintErrorToString Sample.formatError Sample.hasResults
               Sample.hasTestDetails Sample.hasHints Sample.hasActionTracking Sample.toItf
               Sample.EvalState Sample.newEvaluator Sample.test
               (Sample.env 4) (Sample.typechecked Sample.arguments))
    as (byName & runs & Hby & _ & _ & _ & _ & _ & _ & _ & Hrejected);
    [reflexivity | reflexivity | reflexivity |].
  vm_compute in Hby. injection Hby as <-.
  apply (Hrejected (fun _ _ _ => eq_refl) Sample.helperDefinition).
  - right. left. reflexivity.
  - intros [_ H]. discriminate H.
  - intros d' [<- | [<- | [<- | [<- | []]]]] H; try discriminate H; reflexivity.
Defined.

(** * More properties of the code *)

(** ** Seeds in hints, and back *)

Lemma length_append (a b : string) :
  String.length (a +:+ b) = (String.length a + String.length b)%nat.
Proof.
  induction a as [|c a IH]; [reflexivity|].
  rewrite append_cons. simpl. now rewrite IH.
Qed.

Lemma list_ascii_of_append (a b : string) :
  list_ascii_of_string (a +:+ b) = list_ascii_of_string a ++ list_ascii_of_string b.
Proof.
  induction a as [|c a IH]; [reflexivity|].
  rewrite append_cons. simpl. now rewrite IH.
Qed.

Lemma positive_strong_ind (P : positive -> Prop) :
  (forall p, (forall q, (q < p)%positive -> P q) -> P p) -> forall p, P p.
Proof.
  intros step p.
  assert (forall n q, (Pos.to_nat q <= n)%nat -> P q) as H.
  { induction n as [|n IH]; intros q Hq; [lia|].
    apply step. intros r Hr. apply IH. lia. }
  apply (H (Pos.to_nat p)). lia.
Qed.

Lemma allHexDigits_of_pos (p : positive) :
  forall rest, allHexDigits rest = true -> allHexDigits (HexString.Raw.of_pos p rest) = true.
Proof.
  induction p as [p IH] using positive_strong_ind.
  intros rest Hrest.
  do 4 try destruct p as [p|p|]; simpl; try (rewrite Hrest; reflexivity);
    apply IH; try lia; simpl; rewrite Hrest; reflexivity.
Qed.

Lemma of_pos_nonempty (p : positive) (rest : string) :
  HexString.Raw.of_pos p rest <> EmptyString.
Proof.
  revert rest. induction p as [p IH] using positive_strong_ind.
  intros rest.
  do 4 try destruct p as [p|p|]; simpl; try discriminate; apply IH; lia.
Qed.

Lemma isHexDigit_value (c : ascii) :
  isHexDigit c = true ->
  exists v, HexString.ascii_to_digit c = Some v /\ JS.digitValue c = Some (Z.of_N v)
            /\ (v < 16)%N.
Proof.
  unfold isHexDigit. destruct (HexString.ascii_to_digit c) as [v|] eqn:Hv; [|discriminate].
  destruct (JS.digitValue c) as [d|] eqn:Hd; [|discriminate].
  intros H. apply Z.eqb_eq in H. subst d. exists v. repeat split.
  unfold JS.digitValue in Hd.
  repeat match type of Hd with
         | (if ?b then _ else _) = _ => destruct b eqn:?
         end; try discriminate; injection Hd as Hd; lia.
Qed.

(** Reading hexadecimal digits with [BigInt] is reading them as a
    hexadecimal number. *)
Lemma digitsFrom_hex (s : string) :
  allHexDigits s = true ->
  forall acc : N,
    JS.digitsFrom 16 (Z.of_N acc) (list_ascii_of_string s)
    = Some (Z.of_N (HexString.Raw.to_N s acc)).
Proof.
  induction s as [|c s IH]; intros Hs acc; [reflexivity|].
  simpl in Hs. apply andb_prop in Hs as [Hc Hs].
  destruct (isHexDigit_value c Hc) as (v & Hv & Hd & Hlt).
  simpl. rewrite Hd, Hv.
  destruct (Z.ltb_spec (Z.of_N v) 16) as [_|Hge]; [|lia].
  replace (Z.of_N acc * 16 + Z.of_N v) with (Z.of_N (v + 16 * acc)) by lia.
  apply IH, Hs.
Qed.

Lemma isHexDigit_not_space (c : ascii) : isHexDigit c = true -> JS.isWhiteSpace c = false.
Proof.
  intros H. destruct (isHexDigit_value c H) as (v & _ & Hd & _).
  unfold JS.digitValue in Hd. unfold JS.isWhiteSpace.
  repeat match type of Hd with
         | (if ?b then _ else _) = _ => destruct b eqn:?
         end; try discriminate;
    repeat match goal with
           | |- context [Nat.eqb ?a ?b] => destruct (Nat.eqb_spec a b); try lia
           end; reflexivity.
Qed.

Lemma trimStart_id (cs : list ascii) :
  match cs with c :: _ => JS.isWhiteSpace c = false | [] => True end ->
  JS.trimStart cs = cs.
Proof. destruct cs as [|c cs]; [reflexivity|]. simpl. now intros ->. Qed.

(** Text without white space at either end is its own [trim]. *)
Lemma trim_id (cs : list ascii) :
  Forall (fun c => JS.isWhiteSpace c = false) cs -> JS.trim cs = cs.
Proof.
  intros H. unfold JS.trim.
  rewrite (trimStart_id cs) by (destruct H; auto).
  assert (Forall (fun c => JS.isWhiteSpace c = false) (rev cs)) as Hrev
    by (now apply List.Forall_rev).
  rewrite (trimStart_id (rev cs)) by (destruct Hrev; auto).
  apply rev_involutive.
Qed.

Lemma allHexDigits_no_space (s : string) :
  allHexDigits s = true ->
  Forall (fun c => JS.isWhiteSpace c = false) (list_ascii_of_string s).
Proof.
  induction s as [|c s IH]; simpl; [constructor|].
  intros H. apply andb_prop in H as [Hc Hs].
  constructor; [now apply isHexDigit_not_space | now apply IH].
Qed.

Lemma StringToBigInt_hex (p : positive) :
  JS.StringToBigInt ("0x" +:+ HexString.Raw.of_pos p EmptyString) = Some (Z.pos p).
Proof.
  pose proof (allHexDigits_of_pos p EmptyString eq_refl) as Hhex.
  unfold JS.StringToBigInt.
  rewrite trim_id.
  2:{ change ("0x" +:+ HexString.Raw.of_pos p EmptyString)
        with (String "0" (String "x" (HexString.Raw.of_pos p EmptyString))).
      simpl. repeat constructor. now apply allHexDigits_no_space. }
  change ("0x" +:+ HexString.Raw.of_pos p EmptyString)
    with (String "0" (String "x" (HexString.Raw.of_pos p EmptyString))).
  cbn [list_ascii_of_string].
  change (Ascii.eqb "0" "+") with false. change (Ascii.eqb "0" "-") with false.
  change (Ascii.eqb "0" "0") with true. change (JS.isPrefixLetter "x" "x") with true.
  cbv iota. unfold JS.digits.
  destruct (list_ascii_of_string (HexString.Raw.of_pos p EmptyString)) as [|c cs] eqn:Hcs.
  { exfalso. apply (of_pos_nonempty p EmptyString).
    destruct (HexString.Raw.of_pos p EmptyString); [reflexivity | discriminate Hcs]. }
  rewrite <- Hcs. change 0 with (Z.of_N 0).
  rewrite (digitsFrom_hex _ Hhex), HexString.Raw.to_N_of_pos. reflexivity.
Qed.

Lemma StringToBigInt_hex_negative (p : positive) :
  JS.StringToBigInt ("0x" +:+ String "-" (HexString.Raw.of_pos p EmptyString)) = None.
Proof.
  pose proof (allHexDigits_of_pos p EmptyString eq_refl) as Hhex.
  unfold JS.StringToBigInt.
  change ("0x" +:+ String "-" (HexString.Raw.of_pos p EmptyString))
    with (String "0" (String "x" (String "-" (HexString.Raw.of_pos p EmptyString)))).
  rewrite trim_id.
  2:{ simpl. repeat constructor. now apply allHexDigits_no_space. }
  reflexivity.
Qed.

(** X1: the seed that [outputResult] and [runTests] print as
    [--seed=0x...] can be given back: the hints hold the seed in
    hexadecimal after [0x], and for a positive seed [s], [mkRng] on
    that text returns the generator seeded with exactly [s]. A negative
    seed is printed as [0x-...], which [mkRng] rejects as not a big
    integer. *)
Theorem printed_seed_reads_back (env : Env) (s : Z) :
  seedHint s = "Use --seed=" +:+ seedOption s +:+ " to reproduce."
  /\ (forall r, test_seed r = s ->
                testSeedHint r
                = "    Use --seed=" +:+ seedOption s +:+ " --match=" +:+ test_name r
                  +:+ " to repeat.")
  /\ (0 < s -> mkRng env (Some (seedOption s)) = Right {| rng_state := s |})
  /\ (s < 0 ->
      mkRng env (Some (seedOption s))
      = Left ("--seed must be a big integer, found: " +:+ seedOption s)).
Proof.
  split; [reflexivity|]. split; [now intros r <-|]. split.
  - intros Hs. destruct s as [|p|p]; try lia.
    apply (mkRng_nonzero env _ (Z.pos p)); [apply StringToBigInt_hex | lia].
  - intros Hs. destruct s as [|p|p]; try lia.
    apply mkRng_malformed, StringToBigInt_hex_negative.
Qed.

Lemma printed_seed_reads_back_witness :
  mkRng (Sample.env 4) (Some (seedOption 11111)) = Right {| rng_state := 11111 |}.
Proof.
  apply (proj1 (proj2 (proj2 (printed_seed_reads_back (Sample.env 4) 11111)))). reflexivity.
Defined.


(** ** File names of traces *)

Lemma append_same_length (a b x y : string) :
  String.length a = String.length b -> a +:+ x = b +:+ y -> a = b /\ x = y.
Proof.
  revert b. induction a as [|c a IH]; intros [|d b] Hlen H; try discriminate Hlen.
  - now split.
  - rewrite !append_cons in H. injection H as -> H. injection Hlen as Hlen.
    destruct (IH b Hlen H) as [-> ->]. now split.
Qed.

Lemma append_cancel_l (a x y : string) : a +:+ x = a +:+ y -> x = y.
Proof. intros H. now apply (append_same_length a a x y). Qed.

Lemma append_cancel_r (a b c : string) : a +:+ c = b +:+ c -> a = b.
Proof.
  intros H. apply (append_same_length a b c c); [|exact H].
  apply (f_equal String.length) in H. rewrite !length_append in H. lia.
Qed.

Lemma to_little_uint_nonnil (n : nat) (acc : Decimal.uint) :
  acc <> Decimal.Nil -> Nat.to_little_uint n acc <> Decimal.Nil.
Proof.
  revert acc. induction n as [|n IH]; intros acc H; simpl; [exact H|].
  apply IH. destruct acc; simpl; discriminate.
Qed.

Lemma revapp_nonnil (d acc : Decimal.uint) :
  acc <> Decimal.Nil -> Decimal.revapp d acc <> Decimal.Nil.
Proof. revert acc. induction d; intros acc H; simpl; try exact H; now apply IHd. Qed.

Lemma to_uint_nonnil (n : nat) : Nat.to_uint n <> Decimal.Nil.
Proof.
  unfold Nat.to_uint, Decimal.rev.
  pose proof (to_little_uint_nonnil n Decimal.zero ltac:(discriminate)) as H.
  destruct (Nat.to_little_uint n Decimal.zero); simpl;
    try (now destruct H); now apply revapp_nonnil.
Qed.

(** Different indices are written differently. *)
Lemma Number_toString_inj (i j : nat) :
  JS.Number_toString i = JS.Number_toString j -> i = j.
Proof.
  unfold JS.Number_toString. intros H.
  apply DecimalNat.Unsigned.to_uint_inj.
  pose proof (NilZero.usu _ (to_uint_nonnil i)) as Hi.
  pose proof (NilZero.usu _ (to_uint_nonnil j)) as Hj.
  rewrite H in Hi. congruence.
Qed.

(** The text [substituteAll] builds has the characters it keeps and one
    replacement for each occurrence. *)
Lemma substituteAll_length (search repl : string) (s : string) :
  forall skip,
    String.length (substituteAll search repl s skip)
    = (keptCount search s skip + matchCount search s skip * String.length repl)%nat.
Proof.
  induction s as [|c s IH]; intros skip.
  - simpl. destruct (Nat.eqb skip 0 && JS.startsWith search EmptyString); simpl; lia.
  - cbn [substituteAll keptCount matchCount]. destruct skip as [|k]; [|apply IH].
    destruct (JS.startsWith search (String c s)).
    + rewrite length_append. destruct (String.length search) as [|k].
      * cbn [String.length]. rewrite IH. lia.
      * rewrite IH. lia.
    + cbn [String.length]. rewrite IH. lia.
Qed.

Lemma matchCount_includes (search s : string) :
  JS.includes search s = true -> (1 <= matchCount search s O)%nat.
Proof.
  induction s as [|c s IH]; cbn [JS.includes matchCount]; intros H.
  - rewrite orb_false_r in H. rewrite H. simpl. lia.
  - destruct (JS.startsWith search (String c s)); [lia|]. now apply IH.
Qed.

(** Up to the first occurrence the text is kept, whatever the
    replacement is. *)
Lemma substituteAll_first (search s : string) :
  JS.includes search s = true ->
  exists pre, forall repl, exists rest,
    substituteAll search repl s O = pre +:+ repl +:+ rest.
Proof.
  induction s as [|c s IH]; cbn [JS.includes]; intros H.
  - rewrite orb_false_r in H. exists EmptyString. intros repl. exists EmptyString.
    cbn [substituteAll]. rewrite H. simpl. now rewrite append_empty_l, append_empty_r.
  - cbn [substituteAll]. destruct (JS.startsWith search (String c s)).
    + exists EmptyString. intros repl. eexists. now rewrite append_empty_l.
    + destruct (IH H) as [pre Hpre]. exists (String c pre). intros repl.
      destruct (Hpre repl) as [rest ->]. exists rest. now rewrite append_cons.
Qed.

Lemma substituteAll_inj (search s r1 r2 : string) :
  JS.includes search s = true ->
  substituteAll search r1 s O = substituteAll search r2 s O -> r1 = r2.
Proof.
  intros Hin H.
  assert (String.length r1 = String.length r2) as Hlen.
  { apply (f_equal String.length) in H. rewrite !substituteAll_length in H.
    pose proof (matchCount_includes search s Hin). nia. }
  destruct (substituteAll_first search s Hin) as [pre Hpre].
  destruct (Hpre r1) as [rest1 H1]. destruct (Hpre r2) as [rest2 H2].
  rewrite H1, H2 in H. apply append_cancel_l in H.
  now apply (append_same_length r1 r2 rest1 rest2).
Qed.

(** Where the text to replace does not occur, [replaceAll] changes
    nothing, whatever the replacement. *)
Lemma replaceAll_absent (s search repl : string) :
  JS.includes search s = false -> JS.replaceAll s search repl = s.
Proof.
  unfold JS.replaceAll. generalize EmptyString as before.
  induction s as [|c s IH]; intros before H; cbn [JS.includes] in H;
    apply orb_false_elim in H as [Hstart Hrest]; cbn [JS.replaceAll_from]; rewrite Hstart.
  - reflexivity.
  - now rewrite IH.
Qed.

(** A template without placeholders is the file name as it stands when
    no index is appended. *)
Lemma expandNamedOutputTemplate_plain (template name : string) (index : nat) :
  JS.includes PLACEHOLDERS_test template = false ->
  JS.includes PLACEHOLDERS_seq template = false ->
  expandNamedOutputTemplate template name index false = template.
Proof.
  intros Htest Hseq. unfold expandNamedOutputTemplate.
  rewrite (replaceAll_absent _ _ _ Htest). now apply expandOutputTemplate_unchanged.
Qed.

(** The index can be read back from the file name when the template
    has the placeholder for it, or when it is appended. *)
Lemma expandOutputTemplate_index_inj (template : string) (autoAppend : bool) (i j : nat) :
  JS.includes PLACEHOLDERS_seq template = true \/ autoAppend = true ->
  expandOutputTemplate template i autoAppend = expandOutputTemplate template j autoAppend ->
  i = j.
Proof.
  intros Hor H. apply Number_toString_inj.
  destruct (JS.includes PLACEHOLDERS_seq template) eqn:Hin.
  - rewrite !expandOutputTemplate_seq in H by exact Hin.
    now apply (substituteAll_inj PLACEHOLDERS_seq template _ _ Hin).
  - destruct Hor as [Hor | ->]; [discriminate Hor|].
    rewrite !expandOutputTemplate_autoAppend in H by exact Hin.
    apply append_cancel_l in H. now apply append_cancel_r in H.
Qed.

(** X2: traces with different indices go to different files. When the
    template has the placeholder [{seq}], or when the index is appended
    automatically (which [runSimulator] and [runTests] ask for when
    [--n-traces] is above one), [expandOutputTemplate] gives different
    file names for different indices; with automatic appending the same
    holds for [expandNamedOutputTemplate], whatever the test name. *)
Theorem expandOutputTemplate_injective (template : string) (autoAppend : bool) (i j : nat) :
  JS.includes PLACEHOLDERS_seq template = true \/ autoAppend = true ->
  i <> j ->
  expandOutputTemplate template i autoAppend <> expandOutputTemplate template j autoAppend
  /\ (autoAppend = true ->
      forall name,
        expandNamedOutputTemplate template name i autoAppend
        <> expandNamedOutputTemplate template name j autoAppend).
Proof.
  intros Hor Hij. split.
  - intros H. now apply Hij, (expandOutputTemplate_index_inj template autoAppend).
  - intros Hauto name H. apply Hij.
    apply (expandOutputTemplate_index_inj (JS.replaceAll template PLACEHOLDERS_test name)
             autoAppend); [now right | exact H].
Qed.

Lemma expandOutputTemplate_injective_witness :
  3%nat <> 4%nat
  /\ expandOutputTemplate "out_{seq}.itf.json" 3 false
     <> expandOutputTemplate "out_{seq}.itf.json" 4 false.
Proof.
  split; [discriminate|].
  apply (proj1 (expandOutputTemplate_injective "out_{seq}.itf.json" false 3 4
                  (or_introl eq_refl) ltac:(discriminate))).
Defined.

(** X3: without the placeholder [{seq}], automatic appending puts the
    index right before the first dot of the template, and at its end
    when it has no dot: the template splits into a stem without a dot
    and a rest that is empty or starts with a dot, and the file name is
    the stem, the index, and the rest. *)
Theorem expandOutputTemplate_before_first_dot (template : string) (index : nat) :
  JS.includes PLACEHOLDERS_seq template = false ->
  exists stem ext,
    template = stem +:+ ext
    /\ occursIn "." stem = false
    /\ (ext = EmptyString \/ exists rest, ext = String "." rest)
    /\ expandOutputTemplate template index true
       = stem +:+ JS.Number_toString index +:+ ext.
Proof.
  intros H. exists (beforeFirst "." template), (fromFirst "." template).
  split; [symmetry; apply before_from_first|].
  split; [apply beforeFirst_free|].
  split; [apply fromFirst_starts|].
  now apply expandOutputTemplate_autoAppend.
Qed.

Lemma expandOutputTemplate_before_first_dot_witness :
  exists stem ext,
    "out.itf.json" = stem +:+ ext
    /\ occursIn "." stem = false
    /\ (ext = EmptyString \/ exists rest, ext = String "." rest)
    /\ expandOutputTemplate "out.itf.json" 3 true
       = stem +:+ JS.Number_toString 3 +:+ ext.
Proof.
  apply (expandOutputTemplate_before_first_dot "out.itf.json" 3). reflexivity.
Defined.


(** ** Seeds in decimal *)

Lemma digitsFrom_decimal (d : Decimal.uint) :
  forall acc,
    JS.digitsFrom 10 acc (list_ascii_of_string (NilEmpty.string_of_uint d))
    = Some (decimalValue d acc).
Proof.
  induction d; intros acc; simpl; [reflexivity | ..].
  all: rewrite IHd; apply (f_equal Some), (f_equal (decimalValue d)).
  all: match goal with
       | |- context [Z.of_nat (nat_of_ascii ?c)] =>
           let v := eval vm_compute in (Z.of_nat (nat_of_ascii c)) in
           change (Z.of_nat (nat_of_ascii c)) with v
       end; lia.
Qed.

Lemma decimalValue_of_uint_acc (d : Decimal.uint) :
  forall acc, decimalValue d (Z.pos acc) = Z.pos (Pos.of_uint_acc d acc).
Proof.
  induction d; intros acc; simpl; try reflexivity;
    match goal with
    | |- decimalValue _ ?z = _ =>
        match z with
        | context [Z.pos acc] => idtac
        end
    end;
    rewrite <- IHd; f_equal; lia.
Qed.

Lemma decimalValue_of_uint (d : Decimal.uint) :
  decimalValue d 0 = Z.of_N (Pos.of_uint d).
Proof.
  induction d; simpl; try reflexivity; try exact IHd;
    change 1 with (Z.pos 1); change 2 with (Z.pos 2); change 3 with (Z.pos 3);
    change 4 with (Z.pos 4); change 5 with (Z.pos 5); change 6 with (Z.pos 6);
    change 7 with (Z.pos 7); change 8 with (Z.pos 8); change 9 with (Z.pos 9);
    apply decimalValue_of_uint_acc.
Qed.

Lemma decimal_digits (d : Decimal.uint) :
  Forall (fun c => isDecimalDigit c = true) (list_ascii_of_string (NilEmpty.string_of_uint d)).
Proof. induction d; simpl; constructor; try reflexivity; exact IHd. Qed.

Lemma isDecimalDigit_plain (c : ascii) :
  isDecimalDigit c = true ->
  JS.isWhiteSpace c = false /\ Ascii.eqb c "+" = false /\ Ascii.eqb c "-" = false
  /\ JS.isPrefixLetter "x" c = false /\ JS.isPrefixLetter "o" c = false
  /\ JS.isPrefixLetter "b" c = false.
Proof.
  unfold isDecimalDigit, JS.isWhiteSpace, JS.isPrefixLetter. intros H.
  apply andb_prop in H as [Hlo Hhi]. apply Z.leb_le in Hlo, Hhi.
  assert (48 <= nat_of_ascii c <= 57)%nat as Hn by lia. clear Hlo Hhi.
  assert (forall a, (nat_of_ascii a < 48 \/ 57 < nat_of_ascii a)%nat -> Ascii.eqb c a = false)
    as Hother.
  { intros a Ha. destruct (Ascii.eqb_spec c a) as [->|]; [lia | reflexivity]. }
  change (nat_of_ascii "x") with 120%nat. change (nat_of_ascii "o") with 111%nat.
  change (nat_of_ascii "b") with 98%nat.
  repeat split;
    rewrite ?Hother by (vm_compute; lia);
    repeat match goal with
           | |- context [Nat.eqb ?a ?b] =>
               let E := fresh in
               destruct (Nat.eqb_spec a b) as [E|E]; [exfalso; lia|]
           end; reflexivity.
Qed.

(** A text of decimal digits is read as a decimal numeral. *)
Lemma StringToBigInt_decimal (cs : list ascii) :
  cs <> [] -> Forall (fun c => isDecimalDigit c = true) cs ->
  JS.StringToBigInt (string_of_list_ascii cs) = JS.digitsFrom 10 0 cs
  /\ JS.StringToBigInt (String "-" (string_of_list_ascii cs))
     = Z.opp <$> JS.digitsFrom 10 0 cs.
Proof.
  intros Hne Hdigits.
  assert (Forall (fun c => JS.isWhiteSpace c = false) cs) as Hspace.
  { eapply Forall_impl; [exact Hdigits|]. intros c Hc. now apply isDecimalDigit_plain. }
  unfold JS.StringToBigInt. split.
  - rewrite list_ascii_of_string_of_list_ascii, (trim_id cs Hspace).
    destruct cs as [|c cs]; [contradiction|].
    inversion Hdigits as [|? ? Hc Hcs]; subst.
    destruct (isDecimalDigit_plain c Hc) as (_ & -> & -> & _).
    destruct (Ascii.eqb c "0"); [|reflexivity].
    destruct cs as [|p ds]; [reflexivity|].
    inversion Hcs as [|? ? Hp _]; subst.
    now destruct (isDecimalDigit_plain p Hp) as (_ & _ & _ & -> & -> & ->).
  - cbn [list_ascii_of_string]. rewrite list_ascii_of_string_of_list_ascii.
    rewrite (trim_id ("-"%char :: cs)) by (constructor; [reflexivity | exact Hspace]).
    cbn. now destruct cs.
Qed.

Lemma StringToBigInt_pos (p : positive) :
  JS.StringToBigInt (NilZero.string_of_uint (Pos.to_uint p)) = Some (Z.pos p)
  /\ JS.StringToBigInt (String "-" (NilZero.string_of_uint (Pos.to_uint p))) = Some (Z.neg p).
Proof.
  pose proof (DecimalPos.Unsigned.to_uint_nonnil p) as Hnonnil.
  assert (NilZero.string_of_uint (Pos.to_uint p) = NilEmpty.string_of_uint (Pos.to_uint p))
    as -> by (now destruct (Pos.to_uint p)).
  set (d := Pos.to_uint p) in *.
  assert (list_ascii_of_string (NilEmpty.string_of_uint d) <> []) as Hne
    by (destruct d; [contradiction | discriminate ..]).
  destruct (StringToBigInt_decimal _ Hne (decimal_digits d)) as [Hpos Hneg].
  rewrite string_of_list_ascii_of_string in Hpos, Hneg.
  rewrite Hpos, Hneg, digitsFrom_decimal, decimalValue_of_uint.
  unfold d. rewrite DecimalPos.Unsigned.of_to. now split.
Qed.

(** X25: a seed in decimal is taken at its value. [BigInt] reads the
    decimal text of every integer back as that integer, so for every
    seed [z] other than zero, [mkRng] on the decimal text of [z]
    returns the generator seeded with exactly [z]; this holds for the
    negative seeds as well, which the hexadecimal text of the hints
    does not give back. *)
Theorem decimal_seed_reads_back (env : Env) (z : Z) :
  JS.StringToBigInt (JS.Integer_toString z) = Some z
  /\ (z <> 0 -> mkRng env (Some (JS.Integer_toString z)) = Right {| rng_state := z |}).
Proof.
  assert (JS.StringToBigInt (JS.Integer_toString z) = Some z) as Hread.
  { destruct z as [|p|p]; [reflexivity | apply StringToBigInt_pos | apply StringToBigInt_pos]. }
  split; [exact Hread|]. intros Hz. now apply (mkRng_nonzero env _ z).
Qed.

Lemma decimal_seed_reads_back_witness :
  mkRng (Sample.env 4) (Some (JS.Integer_toString (-11111))) = Right {| rng_state := -11111 |}.
Proof.
  apply (proj2 (decimal_seed_reads_back (Sample.env 4) (-11111))). discriminate.
Defined.


(** ** More about the drivers *)

Lemma bind_assoc {A B C} (m : M A) (f : A -> M B) (g : B -> M C) :
  bind (bind m f) g = bind m (fun x => bind (f x) g).
Proof.
  destruct m as [e [a|x]]; simpl; [|reflexivity].
  destruct (f a) as [e2 [b|y]]; simpl; [|reflexivity].
  destruct (g b) as [e3 r]. now rewrite app_assoc.
Qed.

Lemma bind_ret_l {A B} (a : A) (k : A -> M B) : bind (ret a) k = k a.
Proof. unfold ret. simpl. now destruct (k a). Qed.

Lemma filesWritten_app (l1 l2 : list Event) :
  filesWritten (l1 ++ l2) = filesWritten l1 ++ filesWritten l2.
Proof. apply omap_app. Qed.

Lemma mergeInMany_lefts {L R} (es : list (Either L R)) :
  match mergeInMany es with
  | Left ls => ls = lefts es /\ ls <> []
  | Right rs => lefts es = [] /\ length rs = length es
  end.
Proof.
  induction es as [|[l|r] es IH]; simpl.
  - now split.
  - destruct (mergeInMany es) as [ls|rs].
    + destruct IH as [-> _]. now split.
    + destruct IH as [-> _]. now split.
  - destruct (mergeInMany es) as [ls|rs]; [exact IH|].
    destruct IH as [-> Hlen]. split; [reflexivity | simpl; now rewrite Hlen].
Qed.

Section MoreDriverProperties.

Variable basename : string -> string -> string.
Variable regExpExec : string -> string -> option bool.
Variable quintErrorToString : QuintError -> string.
Variable formatError : Stage -> ErrorMessage -> string.
Variable hasResults hasTestDetails hasHints hasStateOutput hasActionTracking : Z -> bool.
Variable FrontEnd : Type.
Variable frontEndOf : Stage -> FrontEnd.
Variable parseExpressionOrDeclaration : FrontEnd -> string -> option QuintEx * FrontEnd.
Variable walkExpression : FrontEnd -> string -> QuintEx -> FrontEnd.
Variable resolverErrors : FrontEnd -> list QuintError.
Variable sourceMapOf : FrontEnd -> gmap Z Loc.
Variable toItf : list string -> list QuintEx -> Either string (gmap string Json).
Variable simulate :
  gmap Z LookupDefinition -> Z -> Rng -> option Z -> bool ->
  QuintEx -> QuintEx -> QuintEx -> Z -> Z -> Z -> SimulationRun.
Variable EvalState : Type.
Variable newEvaluator : gmap Z LookupDefinition -> Z -> Rng -> EvalState.
Variable test : EvalState -> LookupDefinition -> Z -> TestResult * list TraceCall * EvalState.

Local Abbreviation guessMain := (guessMainModule basename).
Local Abbreviation runSim :=
  (runSimulator basename quintErrorToString hasResults hasHints hasStateOutput
     FrontEnd frontEndOf parseExpressionOrDeclaration walkExpression resolverErrors sourceMapOf toItf simulate).
Local Abbreviation simOf := (simulationOf basename FrontEnd frontEndOf parseExpressionOrDeclaration walkExpression resolverErrors simulate).
Local Abbreviation runTst :=
  (runTests basename regExpExec quintErrorToString formatError hasResults hasTestDetails
            hasHints hasActionTracking toItf EvalState newEvaluator test).
Local Abbreviation output := (outputResult formatError hasResults).
Local Abbreviation mkErr := (mkErrorMessage quintErrorToString).
Local Abbreviation conclusionOf := (conclusionOf basename quintErrorToString FrontEnd frontEndOf parseExpressionOrDeclaration walkExpression resolverErrors sourceMapOf).
Local Abbreviation verdictReport := (verdictReport hasResults hasHints hasStateOutput).
Local Abbreviation traceFile := (traceFile toItf).
Local Abbreviation traceFiles_from := (traceFiles_from toItf).
Local Abbreviation isTraceFile := (isTraceFile toItf).
Local Abbreviation reportBestTrace := (reportBestTrace toItf).
Local Abbreviation argsParsing :=
  (argsParsing basename FrontEnd frontEndOf parseExpressionOrDeclaration walkExpression
     resolverErrors).
Local Abbreviation testRuns := (testRuns EvalState test).
Local Abbreviation testRunsOf := (testRunsOf basename regExpExec EvalState newEvaluator test).
Local Abbreviation testTraceFile := (testTraceFile toItf).
Local Abbreviation callFiles_from := (callFiles_from toItf).
Local Abbreviation testFiles_from := (testFiles_from toItf).
Local Abbreviation isTestTraceFile := (isTestTraceFile toItf).

(** *** [runSimulator] in parts *)

(** A run that reaches the evaluator: the two calls of the evaluator,
    the loop over the best traces, the report of the verdict, and the
    value. *)
Lemma runSimulator_unfold env prev run :
  simOf env prev = Some run ->
  exists rng,
    mkRng env (seed (args prev)) = Right rng
    /\ runSim env prev
       = (emit (NewEvaluator rng) ;;
          emit (Simulate rng) ;;
          forEach (reportBestTrace env prev (varNames run)) (bestTraces run) ;;
          verdictReport env prev run ;;
          ret (conclusionOf prev run)).
Proof.
  unfold simulationOf, runSimulator. cbv zeta.
  destruct (findModule _ _); [|discriminate].
  destruct (mkRng env _) as [why|rng]; [discriminate|].
  destruct (mergeInMany _) as [errs|parsed]; [discriminate|].
  destruct parsed as [|i [|s [|v [|? ?]]]]; try discriminate.
  intros H. injection H as <-. exists rng. split; [reflexivity|].
  unfold verdictReport, conclusionOf. cbv zeta.
  destruct (status (outcomeOf _)).
  - now rewrite bind_assoc.
  - now rewrite bind_assoc.
  - now rewrite bind_ret_l.
Qed.

(** A run that does not reach the evaluator causes no event. *)
Lemma runSimulator_rejected_quiet env prev :
  simOf env prev = None -> fst (runSim env prev) = [].
Proof.
  unfold simulationOf, runSimulator. cbv zeta.
  destruct (findModule _ _); [|reflexivity].
  destruct (mkRng env _) as [why|rng]; [reflexivity|].
  destruct (mergeInMany _) as [errs|parsed]; [reflexivity|].
  destruct parsed as [|i [|s [|v [|? ?]]]]; try reflexivity. discriminate.
Qed.

(** *** Errors in the expressions *)

Lemma mkErrorMessage_no_map (e : QuintError) :
  mkErr ∅ e = {| explanation := quintErrorToString e; locs := [] |}.
Proof.
  unfold mkErrorMessage. destruct (reference e) as [r|]; simpl; [|reflexivity].
  destruct (negb (r =? 0)); simpl; [rewrite lookup_empty|]; reflexivity.
Qed.

(** X4: errors in the expressions. [toExpr] is called for the texts
    of [--init], [--step] and [--invariant], in this order, each call
    on the parser and the resolver as the calls before left them. When
    the main module and the seed are accepted but one of the three
    answers is an error, [runSimulator] returns the error value
    ['Argument error'] at the stage ['running'], with one message for
    each answer that is an error, in the order of the calls, and every
    message without a source location (the messages are made with an
    empty source map); no evaluator is made and nothing is printed or
    written. An error that the resolver keeps is answered again for
    the texts that follow, so one unresolved name can give several
    messages. *)
Theorem runSimulator_argument_errors env prev m rng :
  findModule (guessMain prev) (modules prev) = Some m ->
  mkRng env (seed (args prev)) = Right rng ->
  let answers := fst (argsParsing prev) in
  lefts answers <> [] ->
  runSim env prev
  = ([], Val (cliErr "Argument error"
                (with_errors
                   (map (fun e => {| explanation := quintErrorToString e; locs := [] |})
                        (lefts answers))
                   (with_stage "running" prev)))).
Proof.
  intros Hmain Hrng answers Hrejected. unfold runSimulator. cbv zeta.
  rewrite Hmain, Hrng. fold answers.
  pose proof (mergeInMany_lefts answers) as Hmerge.
  destruct (mergeInMany answers) as [errs|parsed].
  - destruct Hmerge as [-> _].
    now rewrite (map_ext _ _ mkErrorMessage_no_map).
  - now destruct Hmerge as [Hnone _].
Qed.

(** *** The loop over the best traces *)

Lemma reportBestTrace_accepted env prev vars index t :
  endsInErrorOrBool t = true ->
  snd (reportBestTrace env prev vars index t) = Val tt
  /\ filesWritten (fst (reportBestTrace env prev vars index t))
     = match traceFile env prev vars index t with Some f => [f] | None => [] end
  /\ Forall (fun ev => toStdout ev = false) (fst (reportBestTrace env prev vars index t)).
Proof.
  unfold endsInErrorOrBool, reportBestTrace, traceFile, onTraceOfRun.
  destruct (frame_result (trace_frame t)) as [e|v].
  - intros _. destruct (JS.truthyString _); repeat split; constructor.
  - intros ->. destruct (JS.truthyString _); simpl; [|repeat split; constructor].
    destruct (toItf vars _); simpl; repeat split; repeat constructor.
Qed.

Lemma reportBestTrace_refused env prev vars index t :
  endsInErrorOrBool t = false ->
  reportBestTrace env prev vars index t
  = ([], Throw "AssertionError: invalid simulation produced non-boolean value ").
Proof.
  unfold endsInErrorOrBool, reportBestTrace.
  destruct (frame_result (trace_frame t)) as [e|v]; [discriminate|]. now intros ->.
Qed.

Lemma bestTraces_loop env prev vars traces :
  forall index,
    let loop := forEach_from (reportBestTrace env prev vars) index traces in
    snd loop
    = (if forallb endsInErrorOrBool traces then Val tt
       else Throw "AssertionError: invalid simulation produced non-boolean value ")
    /\ filesWritten (fst loop) = traceFiles_from env prev vars index traces
    /\ Forall (fun ev => toStdout ev = false) (fst loop).
Proof.
  induction traces as [|t traces IH]; intros index; cbv zeta.
  - repeat split; constructor.
  - cbn [forEach_from forallb]. simpl (traceFiles_from _ _ _ _ (_ :: _)).
    rewrite completion_bind, events_bind.
    destruct (endsInErrorOrBool t) eqn:Ht.
    + destruct (reportBestTrace_accepted env prev vars index t Ht) as (Hv & Hf & Hq).
      destruct (IH (S index)) as (IHv & IHf & IHq). cbv zeta in IHv, IHf, IHq.
      rewrite Hv, filesWritten_app, Hf, IHf. cbn [andb].
      split; [exact IHv|]. split; [now destruct (traceFile _ _ _ _ _)|].
      apply Forall_app. now split.
    + rewrite (reportBestTrace_refused env prev vars index t Ht). cbn.
      repeat split; constructor.
Qed.

Lemma verdictReport_quiet env prev run :
  outputOnly (verdictReport env prev run)
  /\ filesWritten (fst (verdictReport env prev run)) = [].
Proof.
  unfold verdictReport, maybePrintCounterExample, when. cbv zeta.
  destruct (status (outcomeOf _)); try (split; [output_only | reflexivity]);
    destruct (hasStateOutput _); destruct (hasResults _); try destruct (hasHints _);
    (split; [output_only | reflexivity]).
Qed.

(** A run that reaches the evaluator: its completion and its files. *)
Lemma runSimulator_reached env prev run :
  simOf env prev = Some run ->
  snd (runSim env prev)
  = (if forallb endsInErrorOrBool (bestTraces run) then Val (conclusionOf prev run)
     else Throw "AssertionError: invalid simulation produced non-boolean value ")
  /\ filesWritten (fst (runSim env prev))
     = traceFiles_from env prev (varNames run) O (bestTraces run).
Proof.
  intros Hsim. destruct (runSimulator_unfold env prev run Hsim) as (rng & _ & ->).
  destruct (bestTraces_loop env prev (varNames run) (bestTraces run) O) as (Hv & Hf & _).
  cbv zeta in Hv, Hf. fold (forEach (reportBestTrace env prev (varNames run)) (bestTraces run)) in Hv, Hf.
  destruct (verdictReport_quiet env prev run) as [[Hrv _] Hrf].
  rewrite !completion_bind, !events_bind. cbn [snd fst emit].
  rewrite Hv. rewrite !filesWritten_app, Hf.
  destruct (forallb endsInErrorOrBool (bestTraces run)).
  - rewrite Hrv, filesWritten_app, Hrf. cbn. now rewrite !app_nil_r.
  - cbn. now rewrite app_nil_r.
Qed.

(** X5: the assertion in the loop over the traces. In a run of
    [runSimulator] that reaches the evaluator, when some trace kept by
    the recorder ends in a value that is not a boolean, the assertion
    of line 1549 is not passed: an exception leaves the function and
    no value is returned, whatever the verdict of the evaluator. So a
    run that returns a value had only traces that end in an error or
    in a boolean, and the value is the one for the verdict of the
    evaluator. *)
Theorem runSimulator_assertion env prev run :
  simOf env prev = Some run ->
  (forallb endsInErrorOrBool (bestTraces run) = false -> ~ returns (runSim env prev))
  /\ (forall evs res,
        runSim env prev = (evs, Val res) ->
        forallb endsInErrorOrBool (bestTraces run) = true /\ res = conclusionOf prev run).
Proof.
  intros Hsim. destruct (runSimulator_reached env prev run Hsim) as [Hv _]. split.
  - intros Hsome [res Hres]. rewrite Hsome, Hres in Hv. discriminate Hv.
  - intros evs res Hrun. rewrite Hrun in Hv. cbn [snd] in Hv.
    destruct (forallb endsInErrorOrBool (bestTraces run)); [|discriminate Hv].
    split; [reflexivity|]. now injection Hv.
Qed.

(** *** The files of a simulation *)

Lemma traceFile_spec env prev vars k t f c :
  endsInErrorOrBool t = true ->
  traceFile env prev vars k t = Some (f, c) <-> isTraceFile env prev vars k t f c.
Proof.
  unfold endsInErrorOrBool, traceFile, isTraceFile. intros Hends. split.
  - destruct (outItf (args prev)) as [template|] eqn:Hitf; [|discriminate].
    simpl. destruct (String.eqb_spec template EmptyString) as [|Hne]; [discriminate|]. simpl.
    destruct (frame_result (trace_frame t)) as [e|v]; [discriminate|].
    destruct (toItf vars _) as [why|tr] eqn:Htr; [discriminate|].
    intros H. injection H as <- <-. exists template, v, tr.
    apply String.eqb_eq in Hends. now repeat split.
  - intros (template & v & tr & -> & Hne & Hres & _ & Htr & -> & ->).
    simpl. destruct (String.eqb_spec template EmptyString) as [|_]; [contradiction|]. simpl.
    now rewrite Hres, Htr.
Qed.

Lemma In_traceFiles_from env prev vars traces fc :
  forall index,
    In fc (traceFiles_from env prev vars index traces) ->
    exists k t, traces !! k = Some t /\ endsInErrorOrBool t = true
                /\ traceFile env prev vars (index + k)%nat t = Some fc.
Proof.
  induction traces as [|t traces IH]; intros index; simpl; [contradiction|].
  destruct (endsInErrorOrBool t) eqn:Ht; [|contradiction].
  assert (In fc (traceFiles_from env prev vars (S index) traces) ->
          exists k t0, (t :: traces) !! k = Some t0 /\ endsInErrorOrBool t0 = true
                       /\ traceFile env prev vars (index + k)%nat t0 = Some fc) as Htail.
  { intros Hin. destruct (IH _ Hin) as (k & t0 & Hk & Ht0 & Hfile).
    exists (S k), t0. rewrite Nat.add_succ_r. now repeat split. }
  destruct (traceFile env prev vars index t) as [f|] eqn:Hf; [|exact Htail].
  intros [<- | Hin]; [|now apply Htail].
  exists O, t. rewrite Nat.add_0_r. now repeat split.
Qed.

Lemma traceFiles_from_In env prev vars traces fc :
  forall index k t,
    forallb endsInErrorOrBool traces = true ->
    traces !! k = Some t ->
    traceFile env prev vars (index + k)%nat t = Some fc ->
    In fc (traceFiles_from env prev vars index traces).
Proof.
  induction traces as [|t0 traces IH]; intros index k t Hall Hk Hfile; [discriminate Hk|].
  simpl in Hall. apply andb_prop in Hall as [Ht0 Hall]. simpl. rewrite Ht0.
  destruct k as [|k].
  - injection Hk as ->. rewrite Nat.add_0_r in Hfile. rewrite Hfile. now left.
  - rewrite Nat.add_succ_r in Hfile.
    assert (In fc (traceFiles_from env prev vars (S index) traces)) as Hin
      by (now apply (IH (S index) k t)).
    destruct (traceFile env prev vars index t0); [now right | exact Hin].
Qed.

Lemma forallb_lookup {A} (p : A -> bool) (xs : list A) (k : nat) (x : A) :
  forallb p xs = true -> xs !! k = Some x -> p x = true.
Proof.
  revert k. induction xs as [|y xs IH]; intros k Hall Hk; [discriminate Hk|].
  simpl in Hall. apply andb_prop in Hall as [Hy Hall].
  destruct k as [|k]; [injection Hk as <-; exact Hy | now apply (IH k)].
Qed.

(** X6: the files of a simulation. In a run of [runSimulator] that
    reaches the evaluator, every file written is the ITF file of one
    of the traces kept by the recorder: [--out-itf] is given, the trace
    ends in a boolean and converts to ITF, the name of the file is the
    template expanded with the position of the trace among the kept
    traces, and the header carries the status of that trace. A trace
    that ends in a runtime error has no file. When the run returns,
    every trace that ends in a boolean and converts to ITF has its
    file. *)
Theorem runSimulator_writes_traces env prev run :
  simOf env prev = Some run ->
  (forall f c,
      In (f, c) (filesWritten (fst (runSim env prev))) ->
      exists k t, bestTraces run !! k = Some t
                  /\ isTraceFile env prev (varNames run) k t f c)
  /\ (forallb endsInErrorOrBool (bestTraces run) = true ->
      forall k t f c,
        bestTraces run !! k = Some t ->
        isTraceFile env prev (varNames run) k t f c ->
        In (f, c) (filesWritten (fst (runSim env prev)))).
Proof.
  intros Hsim. destruct (runSimulator_reached env prev run Hsim) as [_ ->]. split.
  - intros f c Hin.
    destruct (In_traceFiles_from _ _ _ _ _ _ Hin) as (k & t & Hk & Ht & Hfile).
    exists k, t. split; [exact Hk|]. now apply traceFile_spec.
  - intros Hall k t f c Hk Hfile.
    apply (traceFiles_from_In env prev (varNames run) (bestTraces run) (f, c) O k t Hall Hk).
    apply traceFile_spec; [|exact Hfile]. exact (forallb_lookup _ _ _ _ Hall Hk).
Qed.

Lemma traceFiles_from_names env prev vars traces f :
  forall index,
    In f (map fst (traceFiles_from env prev vars index traces)) ->
    exists k, (index <= k)%nat
              /\ f = expandOutputTemplate (default EmptyString (outItf (args prev))) k
                       (nTracesAboveOne (args prev)).
Proof.
  intros index Hin. apply in_map_iff in Hin as ([f0 c] & <- & Hin).
  destruct (In_traceFiles_from _ _ _ _ _ _ Hin) as (k & t & _ & Ht & Hfile).
  apply traceFile_spec in Hfile; [|exact Ht].
  destruct Hfile as (template & v & tr & Hitf & _ & _ & _ & _ & -> & _).
  exists (index + k)%nat. rewrite Hitf. split; [lia | reflexivity].
Qed.

(** X7: the traces of a simulation get file names of their own. In a
    run of [runSimulator] that reaches the evaluator, when the template
    of [--out-itf] has the placeholder [{seq}], or [--n-traces] is
    above one, the file names given to [writeToJson] differ from one
    another. This is a statement about the names: [writeToJson]
    resolves a name against the working directory, and two names that
    differ can still resolve to one path. *)
Theorem runSimulator_files_distinct env prev run :
  simOf env prev = Some run ->
  JS.includes PLACEHOLDERS_seq (default EmptyString (outItf (args prev))) = true
  \/ nTracesAboveOne (args prev) = true ->
  NoDup (map fst (filesWritten (fst (runSim env prev)))).
Proof.
  intros Hsim Hor. destruct (runSimulator_reached env prev run Hsim) as [_ ->].
  generalize O as index. induction (bestTraces run) as [|t traces IH]; intros index; simpl.
  - constructor.
  - destruct (endsInErrorOrBool t) eqn:Ht; [|constructor].
    destruct (traceFile env prev (varNames run) index t) as [[f c]|] eqn:Hfile; [|apply IH].
    simpl. apply NoDup_cons. split; [|apply IH].
    intros Hin. apply list_elem_of_In in Hin.
    destruct (traceFiles_from_names _ _ _ _ _ _ Hin) as (k & Hle & Hk).
    apply traceFile_spec in Hfile; [|exact Ht].
    destruct Hfile as (template & v & tr & Hitf & _ & _ & _ & _ & Hf & _).
    rewrite Hitf in Hk, Hor. simpl in Hk, Hor. rewrite Hf in Hk.
    apply expandOutputTemplate_index_inj in Hk; [lia | exact Hor].
Qed.

(** *** What a silenced run prints *)

(** X8: [--out] and [--out-itf] silence the simulator. When one of
    them is given (a non-empty text), [runSimulator] reads the
    verbosity as 0; when the verbosity table shows neither results nor
    states at level 0, the run writes nothing to the standard output:
    no verdict line, no example execution, no hints. *)
Theorem runSimulator_silent env prev :
  JS.truthyString (out (args prev)) = true \/ JS.truthyString (outItf (args prev)) = true ->
  hasResults 0 = false -> hasStateOutput 0 = false ->
  Forall (fun ev => toStdout ev = false) (fst (runSim env prev)).
Proof.
  intros Hor Hres Hstates.
  destruct (simOf env prev) as [run|] eqn:Hsim.
  2:{ rewrite (runSimulator_rejected_quiet env prev Hsim). constructor. }
  destruct (runSimulator_unfold env prev run Hsim) as (rng & _ & ->).
  destruct (bestTraces_loop env prev (varNames run) (bestTraces run) O) as (_ & _ & Hloop).
  cbv zeta in Hloop.
  assert (fst (verdictReport env prev run) = []) as Hreport.
  { unfold verdictReport, maybePrintCounterExample, deriveVerbosity. cbv zeta.
    replace (if JS.truthyString (outItf (args prev)) then 0
             else if JS.truthyString (out (args prev)) then 0 else verbosity (args prev))
      with 0
      by (destruct (JS.truthyString (outItf (args prev))),
                   (JS.truthyString (out (args prev)));
          try reflexivity; destruct Hor; discriminate).
    rewrite Hres, Hstates. now destruct (status (outcomeOf _)). }
  rewrite !events_bind. cbn [fst snd emit ret]. rewrite Hreport.
  repeat (apply Forall_app; split); try (repeat constructor; fail).
  - exact Hloop.
  - destruct (snd (forEach _ _)); [|constructor].
    destruct (snd (verdictReport env prev run)); constructor.
Qed.


(** *** Runs of the tests *)

Lemma returns_bind {A B} (m : M A) (k : A -> M B) :
  returns m -> (forall a, returns (k a)) -> returns (bind m k).
Proof.
  intros [a Ha] Hk. destruct (Hk a) as [b Hb]. exists b.
  now rewrite completion_bind, Ha.
Qed.

Lemma returns_bind_inv {A B} (m : M A) (k : A -> M B) : returns (bind m k) -> returns m.
Proof.
  intros [b Hb]. rewrite completion_bind in Hb. unfold returns.
  destruct (snd m) as [a|exn]; [now exists a | discriminate].
Qed.

Lemma returns_ret {A} (a : A) : returns (ret a).
Proof. now exists a. Qed.

Lemma filterM_returns {A} (p : A -> M bool) (xs : list A) :
  returns (filterM p xs) <-> forall x, In x xs -> returns (p x).
Proof.
  induction xs as [|x xs IH]; cbn [filterM].
  - split; [intros _ x [] | intros _; apply returns_ret].
  - split.
    + intros H y [<- | Hy]; [now apply returns_bind_inv in H|].
      apply IH; [|exact Hy].
      destruct H as [ys Hys]. rewrite completion_bind in Hys.
      destruct (snd (p x)); [|discriminate].
      apply (returns_bind_inv _ _ (ex_intro _ ys Hys)).
    + intros H. apply returns_bind; [apply H; now left|]. intros b.
      apply returns_bind; [apply IH; intros y Hy; apply H; now right|].
      intros ys. apply returns_ret.
Qed.

Lemma filterM_throws {A} (p : A -> M bool) (xs : list A) (exn : string) :
  (forall x, In x xs -> returns (p x) \/ snd (p x) = Throw exn) ->
  returns (filterM p xs) \/ snd (filterM p xs) = Throw exn.
Proof.
  induction xs as [|x xs IH]; intros H; cbn [filterM].
  - left. apply returns_ret.
  - rewrite !completion_bind.
    destruct (H x (or_introl eq_refl)) as [[b Hb] | Hx]; [|right; now rewrite Hx].
    destruct IH as [[ys Hys] | Hxs]; [intros y Hy; apply H; now right | |].
    + left. exists (if b then x :: ys else ys).
      now rewrite !completion_bind, Hb, completion_bind, Hys.
    + right. now rewrite Hb, completion_bind, Hxs.
Qed.

(** The filter returns unless the pattern is rejected. *)
Lemma testFilter_returns prev d :
  returns (testFilter regExpExec prev d) <->
  (def_kind d = "def" -> JS.truthyString (match_ (args prev)) = true ->
   regExpExec (default EmptyString (match_ (args prev))) (def_name d) <> None).
Proof.
  unfold testFilter, isMatchingTest.
  destruct (String.eqb_spec (def_kind d) "def") as [Hk|Hk].
  2:{ split; [intros _ C; contradiction | intros _; apply returns_ret]. }
  destruct (JS.truthyString (match_ (args prev))).
  2:{ split; [intros _ _ C; discriminate | intros _; apply returns_ret]. }
  destruct (regExpExec _ _) as [b|].
  - split; [intros _ _ _ C; discriminate | intros _; apply returns_ret].
  - split; [intros [b Hb]; discriminate Hb | intros H; now contradiction (H Hk eq_refl)].
Qed.

Lemma testFilter_throws prev d :
  returns (testFilter regExpExec prev d)
  \/ snd (testFilter regExpExec prev d) = Throw "SyntaxError".
Proof.
  unfold testFilter, isMatchingTest.
  destruct (String.eqb (def_kind d) "def"); [|left; apply returns_ret].
  destruct (JS.truthyString _); [|left; apply returns_ret].
  destruct (regExpExec _ _); [left; apply returns_ret | now right].
Qed.

(** A run that returns has selected its tests. *)
Lemma runTests_selection_returns env prev m rng :
  findModule (guessMain prev) (modules prev) = Some m ->
  mkRng env (seed (args prev)) = Right rng ->
  returns (runTst env prev) -> returns (selectTests regExpExec prev (guessMain prev)).
Proof.
  intros Hmain Hrng. unfold runTests. cbv zeta. rewrite Hmain, Hrng.
  intros [res Hres]. rewrite completion_bind in Hres.
  destruct (snd (when _ _)); [|discriminate].
  apply (returns_bind_inv _ _ (ex_intro _ res Hres)).
Qed.

(** X10: what [runTests] needs to return. With the main module and
    the seed accepted, when the resolver has no definitions for the
    main module, reading them throws a TypeError after the name of the
    module is printed, and no value is returned. A run that returns a
    value had definitions for the main module, and its pattern of
    [--match], if a non-empty one is given, was accepted as a regular
    expression for every definition of kind ['def']. *)
Theorem runTests_returns_only_if env prev m rng :
  findModule (guessMain prev) (modules prev) = Some m ->
  mkRng env (seed (args prev)) = Right rng ->
  (definitionsByModule prev !! guessMain prev = None ->
   runTst env prev
   = (if hasResults (deriveVerbosity (args prev))
      then [ConsoleLog (String (ascii_of_nat 10) "  " +:+ guessMain prev)] else [],
      Throw "TypeError: Cannot read properties of undefined (reading 'values')"))
  /\ (forall evs res,
        runTst env prev = (evs, Val res) ->
        exists byName,
          definitionsByModule prev !! guessMain prev = Some byName
          /\ forall d, In d (concat byName) -> def_kind d = "def" ->
                       JS.truthyString (match_ (args prev)) = true ->
                       regExpExec (default EmptyString (match_ (args prev))) (def_name d)
                       <> None).
Proof.
  intros Hmain Hrng. split.
  - intros Hnone. unfold runTests. cbv zeta. rewrite Hmain, Hrng.
    unfold selectTests. rewrite Hnone. now destruct (hasResults _).
  - intros evs res Hrun.
    assert (returns (runTst env prev)) as Hret by (exists res; now rewrite Hrun).
    apply (runTests_selection_returns env prev m rng Hmain Hrng) in Hret.
    unfold selectTests in Hret.
    destruct (definitionsByModule prev !! guessMain prev) as [byName|].
    + exists byName. split; [reflexivity|].
      rewrite filterM_returns in Hret.
      intros d Hd. now apply testFilter_returns, Hret.
    + destruct Hret as [a Ha]. discriminate Ha.
Qed.

(** X11: a pattern of [--match] that is not a regular expression. With
    the main module and the seed accepted, when the pattern is rejected
    for a definition of kind ['def'] of the main module, [runTests]
    throws the SyntaxError of the regular expression: no value is
    returned, no evaluator is made and no test is run; at most the name
    of the module has been printed. *)
Theorem runTests_bad_pattern env prev m rng byName d :
  findModule (guessMain prev) (modules prev) = Some m ->
  mkRng env (seed (args prev)) = Right rng ->
  definitionsByModule prev !! guessMain prev = Some byName ->
  In d (concat byName) -> def_kind d = "def" ->
  JS.truthyString (match_ (args prev)) = true ->
  regExpExec (default EmptyString (match_ (args prev))) (def_name d) = None ->
  runTst env prev
  = (if hasResults (deriveVerbosity (args prev))
     then [ConsoleLog (String (ascii_of_nat 10) "  " +:+ guessMain prev)] else [],
     Throw "SyntaxError").
Proof.
  intros Hmain Hrng Hby Hd Hkind Hpattern Hrejected.
  assert (snd (selectTests regExpExec prev (guessMain prev)) = Throw "SyntaxError"
          /\ fst (selectTests regExpExec prev (guessMain prev)) = []) as [Hthrow Hquiet].
  { unfold selectTests. rewrite Hby. split; [|apply filterM_events, testFilter_quiet].
    destruct (filterM_throws (testFilter regExpExec prev) (concat byName) "SyntaxError")
      as [Hret | Hthrow]; [intros x _; apply testFilter_throws | | exact Hthrow].
    exfalso. rewrite filterM_returns in Hret.
    apply (proj1 (testFilter_returns prev d) (Hret d Hd) Hkind Hpattern Hrejected). }
  unfold runTests. cbv zeta. rewrite Hmain, Hrng.
  apply injective_projections.
  - rewrite !events_bind, Hquiet, Hthrow. cbn [fst snd].
    destruct (hasResults _); reflexivity.
  - rewrite !completion_bind, Hthrow. now destruct (hasResults _).
Qed.


Lemma eventsAll_reportStatuses (P : Event -> Prop) results :
  (forall l, P (ConsoleLog l)) ->
  forall n, eventsAll P (reportStatuses n results).
Proof.
  intros HP. induction results as [|r results IH]; intros n; cbn [reportStatuses];
    [apply eventsAll_ret|].
  apply eventsAll_bind; [apply eventsAll_when, eventsAll_emit, HP | intros _].
  apply eventsAll_bind; [apply eventsAll_when, eventsAll_emit, HP | intros _]. apply IH.
Qed.

(** The events of [runTests] satisfy [P] when the calls of the
    evaluator, the lines on the console and the events of the
    [onTrace] callback do. *)
Lemma eventsAll_runTests (P : Event -> Prop) env prev :
  (forall rng, P (NewEvaluator rng)) -> (forall d, P (RunTest d)) ->
  (forall l, P (ConsoleLog l)) -> (forall f, P (PrintFrame f)) ->
  (forall index k call, eventsAll P (onTraceOfTest toItf env prev index k call)) ->
  eventsAll P (runTst env prev).
Proof.
  intros Hnew Hrun Hlog Hframe Hcall. unfold runTests. cbv zeta.
  destruct (findModule _ _); [|apply eventsAll_ret].
  destruct (mkRng env _) as [why|rng]; [apply eventsAll_ret|].
  apply eventsAll_bind; [apply eventsAll_when, eventsAll_emit, Hlog | intros _].
  apply eventsAll_bind; [apply eventsAll_nil, selectTests_quiet | intros defs].
  apply eventsAll_bind; [apply eventsAll_emit, Hnew | intros _].
  apply eventsAll_bind; [now apply eventsAll_runTestDefs | intros results].
  apply eventsAll_bind; [apply eventsAll_when, eventsAll_reportStatuses, Hlog | intros _].
  apply eventsAll_bind.
  { apply eventsAll_when.
    repeat (apply eventsAll_bind; [|intros _]);
      try apply eventsAll_when; apply eventsAll_emit, Hlog. }
  intros _. destruct (Nat.eqb _ 0); [apply eventsAll_ret|].
  apply eventsAll_bind.
  { apply eventsAll_when.
    apply eventsAll_bind; [apply eventsAll_emit, Hlog | intros _].
    apply eventsAll_bind; [|intros _; apply eventsAll_emit, Hlog].
    apply eventsAll_forEach. intros i [r err]. unfold reportNamedError. cbv zeta.
    apply eventsAll_bind; [apply eventsAll_emit, Hlog | intros _].
    apply eventsAll_bind;
      [apply eventsAll_forEach; intros; apply eventsAll_emit, Hlog | intros _].
    apply eventsAll_bind; [|intros _; apply eventsAll_emit, Hlog].
    apply eventsAll_when.
    apply eventsAll_bind; [apply eventsAll_emit, Hlog | intros _].
    apply eventsAll_bind; [|intros _; apply eventsAll_when, eventsAll_emit, Hlog].
    apply eventsAll_forEach. intros j f.
    apply eventsAll_bind; [apply eventsAll_emit, Hlog | intros _].
    apply eventsAll_bind; [apply eventsAll_emit, Hframe | intros _].
    apply eventsAll_emit, Hlog. }
  intros _.
  apply eventsAll_bind; [|intros _; apply eventsAll_ret].
  apply eventsAll_when.
  apply eventsAll_bind; [apply eventsAll_emit, Hlog | intros _; apply eventsAll_emit, Hlog].
Qed.

Lemma In_filesWritten (evs : list Event) (f : string) (c : Written) :
  In (f, c) (filesWritten evs) <-> In (WriteJson f c) evs.
Proof.
  unfold filesWritten. rewrite <- !list_elem_of_In, list_elem_of_omap. split.
  - intros (ev & Hev & Hw). destruct ev; try discriminate Hw. now injection Hw as -> ->.
  - intros H. now exists (WriteJson f c).
Qed.

Lemma files_bind {A B} (m : M A) (k : A -> M B) :
  filesWritten (fst (bind m k))
  = filesWritten (fst m)
    ++ match snd m with Val a => filesWritten (fst (k a)) | Throw _ => [] end.
Proof. rewrite events_bind, filesWritten_app. now destruct (snd m). Qed.

Lemma filesWritten_none {A} (m : M A) :
  eventsAll (fun ev => asWrite ev = None) m -> filesWritten (fst m) = [].
Proof.
  unfold eventsAll, filesWritten. induction (fst m) as [|ev evs IH]; [reflexivity|].
  intros H. apply Forall_cons in H as [Hev H]. cbn. rewrite Hev. now apply IH.
Qed.

Lemma files_seq_quiet {B} (m : M unit) (k : M B) :
  snd m = Val tt -> eventsAll (fun ev => asWrite ev = None) m ->
  filesWritten (fst (m ;; k)) = filesWritten (fst k).
Proof. intros Hv Hq. now rewrite files_bind, Hv, (filesWritten_none m Hq). Qed.

Lemma testTraceFile_spec env prev index k call f c :
  testTraceFile env prev index k call = Some (f, c)
  <-> isTestTraceFile env prev index k call f c.
Proof.
  unfold_test_readings. split.
  - destruct (outItf (args prev)) as [template|] eqn:Hitf; [|discriminate].
    simpl. destruct (String.eqb_spec template EmptyString) as [|Hne]; [discriminate|]. simpl.
    destruct (toItf _ _) as [why|tr] eqn:Htr; [discriminate|].
    intros H. injection H as <- <-. now exists template, tr.
  - intros (template & tr & -> & Hne & Htr & -> & ->).
    simpl. destruct (String.eqb_spec template EmptyString) as [|_]; [contradiction|]. simpl.
    now rewrite Htr.
Qed.

Lemma onTraceOfTest_file env prev index k call :
  filesWritten (fst (onTraceOfTest toItf env prev index k call))
  = match testTraceFile env prev index k call with Some f => [f] | None => [] end.
Proof.
  unfold onTraceOfTest; unfold_test_readings. cbv zeta.
  destruct (JS.truthyString _); [|reflexivity]. simpl.
  now destruct (toItf _ _).
Qed.

Lemma forEach_from_files env prev index calls :
  forall k,
    filesWritten (fst (forEach_from (onTraceOfTest toItf env prev index) k calls))
    = callFiles_from env prev index k calls.
Proof.
  induction calls as [|call calls IH]; intros k; [reflexivity|].
  cbn [forEach_from]; step_test_readings.
  rewrite files_bind, onTraceOfTest_file.
  destruct (outputOnly_onTraceOfTest toItf env prev index k call) as [-> _].
  rewrite IH. now destruct (testTraceFile env prev index k call).
Qed.

Lemma runTestDefs_files env prev defs :
  forall ev index,
    filesWritten (fst (runTestDefs toItf EvalState test env prev ev index defs))
    = testFiles_from env prev index (testRuns prev ev defs).
Proof.
  induction defs as [|d defs IH]; intros ev index; [reflexivity|].
  cbn [runTestDefs]; step_test_readings.
  destruct (test ev d (maxSamples (args prev))) as [[res calls] ev'].
  step_test_readings.
  rewrite files_seq_quiet; [|reflexivity|events_all].
  rewrite files_bind. unfold forEach. rewrite forEach_from_files.
  assert (snd (forEach_from (onTraceOfTest toItf env prev index) 0 calls) = Val tt) as ->.
  { apply (outputOnly_forEach (onTraceOfTest toItf env prev index)).
    intros. apply outputOnly_onTraceOfTest. }
  rewrite files_bind, IH.
  destruct (snd (runTestDefs toItf EvalState test env prev ev' (S index) defs));
    cbn; now rewrite ?app_nil_r.
Qed.

Lemma In_callFiles_from env prev index calls fc :
  forall k0,
    In fc (callFiles_from env prev index k0 calls)
    <-> exists k call, calls !! k = Some call
                       /\ testTraceFile env prev index (k0 + k) call = Some fc.
Proof.
  induction calls as [|a calls IH]; intros k0; step_test_readings.
  - split; [contradiction | intros (k & call & H & _); now destruct k].
  - assert (In fc (callFiles_from env prev index (S k0) calls)
            <-> exists k call, calls !! k = Some call
                               /\ testTraceFile env prev index (k0 + S k) call = Some fc)
      as Htail.
    { rewrite IH. split; intros (k & call & Hk & Hf); exists k, call; (split; [exact Hk|]).
      - now replace (k0 + S k)%nat with (S k0 + k)%nat by lia.
      - now replace (S k0 + k)%nat with (k0 + S k)%nat by lia. }
    assert ((exists k call, (a :: calls) !! k = Some call
                            /\ testTraceFile env prev index (k0 + k) call = Some fc)
            <-> testTraceFile env prev index k0 a = Some fc
                \/ In fc (callFiles_from env prev index (S k0) calls)) as ->.
    { rewrite Htail. split.
      - intros (k & call & Hk & Hf). destruct k as [|k].
        + injection Hk as <-. left. now rewrite Nat.add_0_r in Hf.
        + right. now exists k, call.
      - intros [Hf | (k & call & Hk & Hf)].
        + exists O, a. split; [reflexivity | now rewrite Nat.add_0_r].
        + now exists (S k), call. }
    destruct (testTraceFile env prev index k0 a) as [f|]; cbn [In].
    + split; [intros [<- | H]; [now left | now right]
             | intros [H | H]; [injection H as ->; now left | now right]].
    + split; [now right | intros [H | H]; [discriminate H | exact H]].
Qed.

Lemma In_testFiles_from env prev runs fc :
  forall index0,
    In fc (testFiles_from env prev index0 runs)
    <-> exists i r k call,
          runs !! i = Some r /\ run_calls r !! k = Some call
          /\ testTraceFile env prev (index0 + i) k call = Some fc.
Proof.
  induction runs as [|a runs IH]; intros index0; step_test_readings.
  - split; [contradiction | intros (i & r & k & call & H & _); now destruct i].
  - rewrite in_app_iff, In_callFiles_from, IH. split.
    + intros [(k & call & Hk & Hf) | (i & r & k & call & Hi & Hk & Hf)].
      * exists O, a, k, call. now rewrite Nat.add_0_r.
      * exists (S i), r, k, call.
        now replace (index0 + S i)%nat with (S index0 + i)%nat by lia.
    + intros (i & r & k & call & Hi & Hk & Hf). destruct i as [|i].
      * injection Hi as <-. left. exists k, call. now rewrite Nat.add_0_r in Hf.
      * right. exists i, r, k, call.
        now replace (S index0 + i)%nat with (index0 + S i)%nat by lia.
Qed.

(** The files of a run of [runTests] are those of the calls of the
    [onTrace] callback made during its tests, in the order of the
    calls. *)
Lemma runTests_files env prev :
  filesWritten (fst (runTst env prev))
  = match testRunsOf env prev with
    | Some runs => testFiles_from env prev 0 runs
    | None => []
    end.
Proof.
  unfold runTests; unfold_test_readings. cbv zeta.
  destruct (findModule _ _); [|reflexivity].
  destruct (mkRng env _) as [why|rng]; [reflexivity|].
  rewrite files_seq_quiet; [|apply outputOnly_when; output_only|events_all].
  rewrite files_bind, selectTests_quiet.
  destruct (snd (selectTests regExpExec prev (guessMain prev))) as [defs|exn];
    [|reflexivity].
  change (filesWritten []) with (@nil (string * Written)). cbn [app].
  rewrite files_seq_quiet; [|reflexivity|events_all].
  rewrite files_bind, runTestDefs_files.
  destruct (runTestDefs_runs toItf EvalState test env prev defs
              (newEvaluator (table (with_stage "testing" prev))
                            (deriveVerbosity (args prev)) rng) O) as (evs & Hrun & _).
  replace (snd (runTestDefs toItf EvalState test env prev
                  (newEvaluator (table (with_stage "testing" prev))
                     (deriveVerbosity (args prev)) rng) 0 defs))
    with (Val (map run_result
                 (testRuns prev
                    (newEvaluator (table (with_stage "testing" prev))
                       (deriveVerbosity (args prev)) rng) defs)))
    by now rewrite Hrun.
  rewrite filesWritten_none; [apply app_nil_r|].
  apply eventsAll_bind;
    [apply eventsAll_when, eventsAll_reportStatuses; reflexivity | intros _].
  apply eventsAll_bind; [events_all | intros _].
  destruct (Nat.eqb _ 0); [apply eventsAll_ret|].
  apply eventsAll_bind; [|intros _; events_all].
  apply eventsAll_when.
  apply eventsAll_bind; [events_all | intros _].
  apply eventsAll_bind; [|intros _; events_all].
  apply eventsAll_forEach. intros i [r err]. unfold reportNamedError. cbv zeta.
  events_all.
Qed.

(** X13: the files of the tests. The calls of [writeToJson] that
    [runTests] makes are those for the calls of the [onTrace] callback
    that the evaluator made during the tests of the run, in the order
    of the tests and of the calls: one for every call whose states
    convert to ITF when [--out-itf] is given (a non-empty text), and no
    other. The file of the call [k] of the test at position
    [index] has the name of the template expanded with the name of the
    call and with [index], and its header carries the status of the
    call. So [runTests] writes no file without [--out-itf], none when
    the configuration is rejected, and it never writes the file of
    [--out]. When the template has neither [{test}] nor [{seq}] and
    [--n-traces] is not above one, every file has the name given by
    [--out-itf] itself: the traces of all tests go to one name. *)
Theorem runTests_writes_traces env prev :
  filesWritten (fst (runTst env prev))
  = testFiles_from env prev 0 (default [] (testRunsOf env prev))
  /\ (forall f c,
        In (f, c) (filesWritten (fst (runTst env prev)))
        <-> exists runs index r k call,
              testRunsOf env prev = Some runs
              /\ runs !! index = Some r /\ run_calls r !! k = Some call
              /\ isTestTraceFile env prev index k call f c)
  /\ (forall f c,
        In (f, c) (filesWritten (fst (runTst env prev))) ->
        JS.includes PLACEHOLDERS_test (default EmptyString (outItf (args prev))) = false ->
        JS.includes PLACEHOLDERS_seq (default EmptyString (outItf (args prev))) = false ->
        nTracesAboveOne (args prev) = false ->
        outItf (args prev) = Some f).
Proof.
  assert (forall f c,
            In (f, c) (filesWritten (fst (runTst env prev)))
            <-> exists runs index r k call,
                  testRunsOf env prev = Some runs
                  /\ runs !! index = Some r /\ run_calls r !! k = Some call
                  /\ isTestTraceFile env prev index k call f c) as Hfiles.
  { intros f c. rewrite runTests_files.
    destruct (testRunsOf env prev) as [runs|].
    - rewrite In_testFiles_from. split.
      + intros (i & r & k & call & Hi & Hk & Hf).
        exists runs, i, r, k, call. now rewrite <- testTraceFile_spec.
      + intros (runs' & i & r & k & call & Heq & Hi & Hk & Hf). injection Heq as <-.
        exists i, r, k, call. now rewrite testTraceFile_spec.
    - split; [contradiction|].
      intros (runs' & i & r & k & call & Heq & _). discriminate Heq. }
  split; [|split; [exact Hfiles|]].
  - rewrite runTests_files. now destruct (testRunsOf env prev).
  - intros f c Hin Htest Hseq Hn.
    apply Hfiles in Hin as (runs & i & r & k & call & _ & _ & _ & Hfile).
    destruct Hfile as (template & tr & Hitf & _ & _ & -> & _).
    rewrite Hitf in *. cbn [default] in *. rewrite Hn.
    now rewrite expandNamedOutputTemplate_plain.
Qed.

(** X14: [--out] silences the tests. When [--out] is given (a
    non-empty text), [runTests] reads the verbosity as 0; when the
    verbosity table shows neither results, nor test details, nor hints
    at level 0, the run writes nothing to the standard output: no name
    of the module, no status of a test, no statistics, no report of the
    failures. *)
Theorem runTests_silent_with_out env prev :
  JS.truthyString (out (args prev)) = true ->
  hasResults 0 = false -> hasTestDetails 0 = false -> hasHints 0 = false ->
  Forall (fun ev => toStdout ev = false) (fst (runTst env prev)).
Proof.
  intros Hout Hres Hdetails Hhints.
  change (eventsAll (fun ev => toStdout ev = false) (runTst env prev)).
  unfold runTests, deriveVerbosity. cbv zeta. rewrite Hout, Hres, Hdetails, Hhints.
  cbn [when andb].
  destruct (findModule _ _); [|apply eventsAll_ret].
  destruct (mkRng env _) as [why|rng]; [apply eventsAll_ret|].
  apply eventsAll_bind; [apply eventsAll_ret | intros _].
  apply eventsAll_bind; [apply eventsAll_nil, selectTests_quiet | intros defs].
  apply eventsAll_bind; [now apply eventsAll_emit | intros _].
  apply eventsAll_bind.
  { apply eventsAll_runTestDefs; [reflexivity|].
    intros index k call. unfold onTraceOfTest. cbv zeta. events_all.
    destruct (toItf _ _); events_all. }
  intros results. events_all.
Qed.

Lemma filter_statuses (results : list TestResult) :
  (length (List.filter isPassed results) + length (List.filter isFailed results)
   + length (List.filter isIgnored results))%nat = length results.
Proof.
  induction results as [|r results IH]; [reflexivity|].
  unfold isPassed, isFailed, isIgnored in *. simpl.
  destruct (test_status r); simpl; lia.
Qed.

(** X12: the count of the tests. When [runTests] returns with the main
    module and the seed accepted, the stage lists every test that was
    run exactly once, as passed, failed or ignored; the value is a
    success exactly when the list of failed tests is empty (ignored
    tests do not count against it), and otherwise the error value
    ['Tests failed']; in both cases the list of errors of the stage is
    empty. *)
Theorem runTests_counts env prev m rng evs res :
  findModule (guessMain prev) (modules prev) = Some m ->
  mkRng env (seed (args prev)) = Right rng ->
  runTst env prev = (evs, Val res) ->
  exists p f g,
    st_passed (stageOf res) = Some p /\ st_failed (stageOf res) = Some f
    /\ st_ignored (stageOf res) = Some g
    /\ (length p + length f + length g)%nat = length (testsRun evs)
    /\ (isRight res = true <-> f = [])
    /\ (f <> [] -> exists e, res = Left e /\ msg e = "Tests failed")
    /\ st_errors (stageOf res) = [].
Proof.
  intros Hmain Hrng Hrun.
  destruct (runTests_accepted basename regExpExec quintErrorToString formatError hasResults
              hasTestDetails hasHints hasActionTracking toItf EvalState newEvaluator test
              env prev m rng evs res Hmain Hrng Hrun)
    as (byName & results & _ & _ & Hlen & Hstage & Hok & Hfailed).
  exists (map test_name (List.filter isPassed results)),
         (map test_name (List.filter isFailed results)),
         (map test_name (List.filter isIgnored results)).
  rewrite Hstage. repeat split; try reflexivity.
  - rewrite !length_map, <- Hlen. apply filter_statuses.
  - intros Hright. destruct (List.filter isFailed results) eqn:Hf; [reflexivity|].
    destruct Hfailed as [-> _]; [discriminate | discriminate Hright].
  - intros Hnil. apply map_eq_nil in Hnil. now rewrite (Hok Hnil).
  - intros Hne. destruct Hfailed as [-> _]; [|now eexists].
    intros Hnil. apply Hne. now rewrite Hnil.
Qed.


(** *** The report of the errors *)

Lemma uniqWith_from_elem {A} `{EqDecision A} (xs : list A) :
  forall seen x, x ∈ uniqWith_from seen xs <-> x ∈ xs /\ x ∉ seen.
Proof.
  induction xs as [|y xs IH]; intros seen x; cbn [uniqWith_from].
  - split; [intros H; inversion H | intros [H _]; inversion H].
  - destruct (bool_decide_reflect (y ∈ seen)) as [Hy|Hy].
    + rewrite IH, elem_of_cons. split; [tauto|].
      intros [[-> | Hx] Hseen]; [contradiction | tauto].
    + rewrite !elem_of_cons, IH, elem_of_app, list_elem_of_singleton.
      destruct (decide (x = y)) as [->|Hne]; tauto.
Qed.

Lemma uniqWith_from_NoDup {A} `{EqDecision A} (xs : list A) :
  forall seen, NoDup (uniqWith_from seen xs).
Proof.
  induction xs as [|y xs IH]; intros seen; cbn [uniqWith_from]; [constructor|].
  destruct (bool_decide (y ∈ seen)); [apply IH|].
  apply NoDup_cons. split; [|apply IH].
  rewrite uniqWith_from_elem, elem_of_app, list_elem_of_singleton. tauto.
Qed.

Lemma uniqWith_from_sublist {A} `{EqDecision A} (xs : list A) :
  forall seen, uniqWith_from seen xs `sublist_of` xs.
Proof.
  induction xs as [|y xs IH]; intros seen; cbn [uniqWith_from]; [constructor|].
  destruct (bool_decide (y ∈ seen)); [apply sublist_cons, IH | apply sublist_skip, IH].
Qed.

Lemma errorLines_app (l1 l2 : list Event) :
  errorLines (l1 ++ l2) = errorLines l1 ++ errorLines l2.
Proof. apply omap_app. Qed.

Lemma errorLines_ConsoleError {A} (g : A -> string) (xs : list A) :
  errorLines (map (fun x => ConsoleError (g x)) xs) = map g xs.
Proof. induction xs as [|x xs IH]; [reflexivity|]. simpl. now rewrite <- IH. Qed.

Lemma uniqWith_from_firstOccurrences {A} `{EqDecision A} (xs : list A) :
  forall before seen,
    (forall x, x ∈ seen <-> x ∈ before) ->
    uniqWith_from seen xs
    = omap id (imap (fun j => keptAt (before ++ xs) (length before + j)) xs).
Proof.
  induction xs as [|y xs IH]; intros before seen Hseen; [reflexivity|].
  set (f := fun j => keptAt (before ++ y :: xs) (length before + j)).
  cbn [uniqWith_from imap].
  assert (imap (f ∘ S) xs
          = imap (fun j => keptAt ((before ++ [y]) ++ xs) (length (before ++ [y]) + j)) xs)
    as ->.
  { apply imap_ext. intros j x _. unfold f, compose.
    rewrite <- app_assoc, length_app. cbn [app length]. f_equal. lia. }
  assert (f O y = if bool_decide (y ∈ seen) then None else Some y) as ->.
  { unfold f, keptAt. rewrite Nat.add_0_r, take_app_length.
    now rewrite (bool_decide_ext (y ∈ seen) (y ∈ before) (Hseen y)). }
  destruct (bool_decide_reflect (y ∈ seen)) as [Hy|Hy]; simpl.
  - apply IH. intros x. rewrite elem_of_app, list_elem_of_singleton, <- Hseen.
    split; [tauto | intros [H1 | ->]; tauto].
  - f_equal. apply IH. intros x. rewrite !elem_of_app, Hseen. reflexivity.
Qed.

(** [uniqWith] keeps the first occurrences, in their order. *)
Lemma uniqWith_firstOccurrences {A} `{EqDecision A} (xs : list A) :
  uniqWith xs = firstOccurrences xs.
Proof.
  unfold uniqWith, firstOccurrences.
  now rewrite (uniqWith_from_firstOccurrences xs [] []).
Qed.

(** X15: the errors of a failed procedure are reported once. For an
    error value without [--out], [outputResult] writes to the standard
    error one formatted message for each distinct error of the stage:
    the error at position [j] of the stage is reported when it does
    not occur before [j], and the reported errors keep their order, so
    each error is reported once, at the place of its first occurrence.
    The line [error: ] with the message of the error value comes last.
    With [--out] nothing of this is printed: the stage, with all its
    errors, goes to the file. In both cases the process ends with
    code 1. *)
Theorem outputResult_errors_once (e : ErrResult) :
  let st := err_stage e in
  (JS.truthyString (out (args st)) = false ->
   exists errs,
     errorLines (fst (output (Left e)))
     = map (formatError st) errs ++ ["error: " +:+ msg e]
     /\ errs = firstOccurrences (st_errors st)
     /\ NoDup errs /\ errs `sublist_of` st_errors st
     /\ forall x, x ∈ errs <-> x ∈ st_errors st)
  /\ (JS.truthyString (out (args st)) = true ->
      fst (output (Left e))
      = [WriteJson (default EmptyString (out (args st))) (OutputStageJson (pickOutputStage st));
         ProcessExit 1]).
Proof.
  cbv zeta. split; intros Hout; unfold outputResult; cbv zeta; rewrite Hout.
  - exists (uniqWith (st_errors (err_stage e))).
    split; [|split; [apply uniqWith_firstOccurrences|
               split; [apply uniqWith_from_NoDup|split; [apply uniqWith_from_sublist|]]]].
    + unfold forEach, consoleError.
      rewrite (forEach_from_emit (fun err => ConsoleError (formatError (err_stage e) err))).
      rewrite !events_bind. cbn [fst snd].
      rewrite !errorLines_app, errorLines_ConsoleError.
      destruct (negb _ && _ && _); rewrite !completion_bind; cbn;
        now rewrite ?app_nil_r.
    + intros x. unfold uniqWith. rewrite uniqWith_from_elem.
      split; [tauto | intros H; split; [exact H | apply not_elem_of_nil]].
  - reflexivity.
Qed.


(** *** The stage of an error value *)

(** X24: the stage that an error value names. An error value of
    [runTests] is always at the stage ['testing']. An error value of
    [runSimulator] is at the stage ['running'], except when the main
    module is missing: that error value keeps the name of the stage
    that came before. In all cases the arguments of the stage are those
    of the stage before, so [outputResult] reads [--out] and
    [--verbosity] as they were given. *)
Theorem error_stages env prev :
  (forall evs e,
      runSim env prev = (evs, Val (Left e)) ->
      args (err_stage e) = args prev
      /\ stage (err_stage e)
         = match findModule (guessMain prev) (modules prev) with
           | Some _ => "running"
           | None => stage prev
           end)
  /\ (forall evs e,
         runTst env prev = (evs, Val (Left e)) ->
         args (err_stage e) = args prev /\ stage (err_stage e) = "testing").
Proof.
  split; intros evs e Hrun.
  - destruct (simOf env prev) as [run|] eqn:Hsim.
    + pose proof (runSimulator_accepted basename quintErrorToString hasResults hasHints
                    hasStateOutput FrontEnd frontEndOf parseExpressionOrDeclaration walkExpression resolverErrors sourceMapOf
                    toItf simulate env prev run evs (Left e) Hsim Hrun)
        as Hres.
      assert (findModule (guessMain prev) (modules prev) <> None) as Hmain.
      { unfold simulationOf in Hsim. cbv zeta in Hsim.
        now destruct (findModule (guessMain prev) (modules prev)). }
      destruct (findModule (guessMain prev) (modules prev)); [|contradiction].
      unfold conclusionOf in Hres. cbv zeta in Hres.
      destruct (status (outcomeOf (evalResult run))); try discriminate Hres;
        injection Hres as ->; now split.
    + unfold simulationOf in Hsim. unfold runSimulator in Hrun. cbv zeta in Hsim, Hrun.
      destruct (findModule (guessMain prev) (modules prev));
        [|injection Hrun as _ <-; now split].
      destruct (mkRng env _) as [why|rng]; [injection Hrun as _ <-; now split|].
      destruct (mergeInMany _) as [errs|parsed]; [injection Hrun as _ <-; now split|].
      destruct parsed as [|i [|s [|v [|? ?]]]]; try discriminate Hrun. discriminate Hsim.
  - unfold runTests in Hrun. cbv zeta in Hrun.
    destruct (findModule (guessMain prev) (modules prev)) as [m|] eqn:Hmain;
      [|injection Hrun as _ <-; now split].
    destruct (mkRng env (seed (args prev))) as [why|rng] eqn:Hrng;
      [injection Hrun as _ <-; now split|].
    assert (runTst env prev = (evs, Val (Left e))) as Hrun'.
    { unfold runTests. cbv zeta. now rewrite Hmain, Hrng. }
    destruct (runTests_accepted basename regExpExec quintErrorToString formatError hasResults
                hasTestDetails hasHints hasActionTracking toItf EvalState newEvaluator test
                env prev m rng evs (Left e) Hmain Hrng Hrun')
      as (byName & results & _ & _ & _ & Hstage & _).
    simpl in Hstage. rewrite Hstage. now split.
Qed.


End MoreDriverProperties.


(** ** More of the drivers on examples *)

Lemma runSimulator_argument_errors_witness :
  Sample.runSimulator (Sample.env 4) MoreSamples.unresolvedStepStage
  = ([], Val (cliErr "Argument error"
                (with_errors
                   [ {| explanation := "QNT404: Name 'nonexistent' not found"; locs := [] |};
                     {| explanation := "QNT404: Name 'nonexistent' not found"; locs := [] |} ]
                   (with_stage "running" MoreSamples.unresolvedStepStage)))).
Proof.
  apply (runSimulator_argument_errors Sample.basename Sample.quintErrorToString
           Sample.hasResults Sample.hasHints Sample.hasStateOutput Sample.FrontEnd Sample.frontEndOf Sample.parseExpressionOrDeclaration Sample.walkExpression Sample.resolverErrors Sample.sourceMapOf
           Sample.toItf Sample.simulate (Sample.env 4) MoreSamples.unresolvedStepStage
           {| mod_id := 1; mod_name := "counter" |} {| rng_state := 42 |}).
  - reflexivity.
  - reflexivity.
  - discriminate.
Defined.

Lemma runSimulator_assertion_witness :
  exists run,
    simulationOf Sample.basename Sample.FrontEnd Sample.frontEndOf
      Sample.parseExpressionOrDeclaration Sample.walkExpression Sample.resolverErrors
      MoreSamples.simulateInt (Sample.env 4) Sample.violatingStage = Some run
    /\ forallb endsInErrorOrBool (bestTraces run) = false
    /\ ~ returns (runSimulator Sample.basename Sample.quintErrorToString
                    Sample.hasResults Sample.hasHints Sample.hasStateOutput Sample.FrontEnd
                    Sample.frontEndOf Sample.parseExpressionOrDeclaration
                    Sample.walkExpression Sample.resolverErrors Sample.sourceMapOf
                    Sample.toItf MoreSamples.simulateInt (Sample.env 4)
                    Sample.violatingStage).
Proof.
  eexists _. split; [reflexivity|]. split; [reflexivity|].
  refine (proj1 (runSimulator_assertion Sample.basename Sample.quintErrorToString
                   Sample.hasResults Sample.hasHints Sample.hasStateOutput Sample.FrontEnd
                   Sample.frontEndOf Sample.parseExpressionOrDeclaration
                   Sample.walkExpression Sample.resolverErrors Sample.sourceMapOf
                   Sample.toItf MoreSamples.simulateInt (Sample.env 4) Sample.violatingStage
                   _ eq_refl) eq_refl).
Defined.

Lemma runSimulator_writes_traces_witness :
  exists run,
    Sample.simulationOf (Sample.env 4) Sample.itfStage = Some run
    /\ forall f c,
        In (f, c) (filesWritten (fst (Sample.runSimulator (Sample.env 4) Sample.itfStage))) ->
        exists k t, bestTraces run !! k = Some t
                    /\ isTraceFile Sample.toItf (Sample.env 4) Sample.itfStage
                         (varNames run) k t f c.
Proof.
  eexists _. split; [reflexivity|].
  refine (proj1 (runSimulator_writes_traces Sample.basename Sample.quintErrorToString
                   Sample.hasResults Sample.hasHints Sample.hasStateOutput Sample.FrontEnd Sample.frontEndOf Sample.parseExpressionOrDeclaration Sample.walkExpression Sample.resolverErrors Sample.sourceMapOf
                   Sample.toItf Sample.simulate (Sample.env 4) Sample.itfStage _ _)).
  reflexivity.
Defined.

Lemma runSimulator_files_distinct_witness :
  map fst (filesWritten
             (fst (runSimulator Sample.basename Sample.quintErrorToString
                     Sample.hasResults Sample.hasHints Sample.hasStateOutput Sample.FrontEnd
                     Sample.frontEndOf Sample.parseExpressionOrDeclaration
                     Sample.walkExpression Sample.resolverErrors Sample.sourceMapOf
                     Sample.toItf MoreSamples.simulateTwo (Sample.env 4)
                     MoreSamples.seqStage)))
  = ["trace_0.itf.json"; "trace_1.itf.json"]
  /\ NoDup (map fst (filesWritten
                       (fst (runSimulator Sample.basename Sample.quintErrorToString
                               Sample.hasResults Sample.hasHints Sample.hasStateOutput
                               Sample.FrontEnd Sample.frontEndOf
                               Sample.parseExpressionOrDeclaration Sample.walkExpression
                               Sample.resolverErrors Sample.sourceMapOf Sample.toItf
                               MoreSamples.simulateTwo (Sample.env 4)
                               MoreSamples.seqStage)))).
Proof.
  split; [reflexivity|].
  refine (runSimulator_files_distinct Sample.basename Sample.quintErrorToString
            Sample.hasResults Sample.hasHints Sample.hasStateOutput Sample.FrontEnd Sample.frontEndOf Sample.parseExpressionOrDeclaration Sample.walkExpression Sample.resolverErrors Sample.sourceMapOf
            Sample.toItf MoreSamples.simulateTwo (Sample.env 4) MoreSamples.seqStage _ _ _).
  - reflexivity.
  - left. reflexivity.
Defined.

Lemma runSimulator_silent_witness :
  Forall (fun ev => toStdout ev = false)
         (fst (Sample.runSimulator (Sample.env 4) Sample.itfStage)).
Proof.
  apply (runSimulator_silent Sample.basename Sample.quintErrorToString
           Sample.hasResults Sample.hasHints Sample.hasStateOutput Sample.FrontEnd Sample.frontEndOf Sample.parseExpressionOrDeclaration Sample.walkExpression Sample.resolverErrors Sample.sourceMapOf
           Sample.toItf Sample.simulate (Sample.env 4) Sample.itfStage).
  - right. reflexivity.
  - reflexivity.
  - reflexivity.
Defined.

Lemma runTests_returns_only_if_witness :
  Sample.runTests (Sample.env 4) MoreSamples.noDefinitionsStage
  = ([ConsoleLog (String (ascii_of_nat 10) "  " +:+ "counter")],
     Throw "TypeError: Cannot read properties of undefined (reading 'values')").
Proof.
  refine (proj1 (runTests_returns_only_if Sample.basename Sample.regExpExec
                   Sample.quintErrorToString Sample.formatError Sample.hasResults
                   Sample.hasTestDetails Sample.hasHints Sample.hasActionTracking
                   Sample.toItf Sample.EvalState Sample.newEvaluator Sample.test
                   (Sample.env 4) MoreSamples.noDefinitionsStage
                   {| mod_id := 1; mod_name := "counter" |} {| rng_state := 42 |}
                   eq_refl eq_refl) eq_refl).
Defined.

Lemma runTests_bad_pattern_witness :
  Sample.runTests (Sample.env 4) MoreSamples.badPatternStage
  = ([ConsoleLog (String (ascii_of_nat 10) "  " +:+ "counter")], Throw "SyntaxError").
Proof.
  apply (runTests_bad_pattern Sample.basename Sample.regExpExec Sample.quintErrorToString
           Sample.formatError Sample.hasResults Sample.hasTestDetails Sample.hasHints
           Sample.hasActionTracking Sample.toItf Sample.EvalState Sample.newEvaluator
           Sample.test (Sample.env 4) MoreSamples.badPatternStage
           {| mod_id := 1; mod_name := "counter" |} {| rng_state := 42 |}
           [Sample.definitions] Sample.helperDefinition).
  - reflexivity.
  - reflexivity.
  - reflexivity.
  - right. left. reflexivity.
  - reflexivity.
  - reflexivity.
  - reflexivity.
Defined.

Lemma runTests_counts_witness :
  exists evs res,
    Sample.runTests (Sample.env 4) Sample.violatingStage = (evs, Val res)
    /\ exists p f g,
        st_passed (stageOf res) = Some p /\ st_failed (stageOf res) = Some f
        /\ st_ignored (stageOf res) = Some g
        /\ (length p + length f + length g)%nat = length (testsRun evs)
        /\ (isRight res = true <-> f = [])
        /\ (f <> [] -> exists e, res = Left e /\ msg e = "Tests failed")
        /\ st_errors (stageOf res) = [].
Proof.
  eexists _, _. split; [reflexivity|].
  eapply (runTests_counts Sample.basename Sample.regExpExec Sample.quintErrorToString
            Sample.formatError Sample.hasResults Sample.hasTestDetails Sample.hasHints
            Sample.hasActionTracking Sample.toItf Sample.EvalState Sample.newEvaluator
            Sample.test (Sample.env 4) Sample.violatingStage).
  - reflexivity.
  - reflexivity.
  - reflexivity.
Defined.

Lemma runTests_writes_traces_witness :
  map fst (filesWritten (fst (Sample.runTests (Sample.env 4) Sample.itfStage)))
  = ["trace.itf.json"; "trace.itf.json"]
  /\ filesWritten (fst (Sample.runTests (Sample.env 4) Sample.itfStage))
     = testFiles_from Sample.toItf (Sample.env 4) Sample.itfStage 0
         (default []
            (testRunsOf Sample.basename Sample.regExpExec Sample.EvalState
               Sample.newEvaluator Sample.test (Sample.env 4) Sample.itfStage)).
Proof.
  split; [reflexivity|].
  exact (proj1 (runTests_writes_traces Sample.basename Sample.regExpExec
                  Sample.quintErrorToString Sample.formatError Sample.hasResults
                  Sample.hasTestDetails Sample.hasHints Sample.hasActionTracking
                  Sample.toItf Sample.EvalState Sample.newEvaluator Sample.test
                  (Sample.env 4) Sample.itfStage)).
Defined.

Lemma runTests_silent_with_out_witness :
  Forall (fun ev => toStdout ev = false)
         (fst (Sample.runTests (Sample.env 4) MoreSamples.outStage)).
Proof.
  apply (runTests_silent_with_out Sample.basename Sample.regExpExec Sample.quintErrorToString
           Sample.formatError Sample.hasResults Sample.hasTestDetails Sample.hasHints
           Sample.hasActionTracking Sample.toItf Sample.EvalState Sample.newEvaluator
           Sample.test (Sample.env 4) MoreSamples.outStage); reflexivity.
Defined.

Lemma error_stages_witness :
  exists evs e,
    Sample.runSimulator (Sample.env 4) Sample.violatingStage = (evs, Val (Left e))
    /\ args (err_stage e) = args Sample.violatingStage
    /\ stage (err_stage e) = "running".
Proof.
  eexists _, _. split; [reflexivity|].
  eapply (proj1 (error_stages Sample.basename Sample.regExpExec Sample.quintErrorToString
                  Sample.formatError Sample.hasResults Sample.hasTestDetails Sample.hasHints
                  Sample.hasStateOutput Sample.hasActionTracking Sample.FrontEnd Sample.frontEndOf Sample.parseExpressionOrDeclaration Sample.walkExpression Sample.resolverErrors Sample.sourceMapOf Sample.toItf
                  Sample.simulate Sample.EvalState Sample.newEvaluator Sample.test
                  (Sample.env 4) Sample.violatingStage)).
  reflexivity.
Defined.


(** ** The REPL and its [--require] option *)

Example requirePattern_ex :
  map requirePattern_exec ["counter.qnt"; "counter.qnt::Counter"; "a::b::c"; "a::"; "::M"; "a::1x"]
  = [Some ("counter.qnt", None); Some ("counter.qnt", Some "Counter"); Some ("a::b", Some "c");
     Some ("a::", None); Some ("", Some "M"); Some ("a::1x", None)].
Proof. reflexivity. Qed.

Lemma colon_not_word : isWordChar ":" = false.
Proof. reflexivity. Qed.

Lemma isIdentifier_word (s : string) : isIdentifier s = true -> allWordChars s = true.
Proof.
  destruct s as [|c s]; [discriminate|]. simpl. unfold isWordChar.
  intros H. apply andb_prop in H as [-> ->]. reflexivity.
Qed.

Lemma allWordChars_no_colon (x y : string) : allWordChars (x +:+ String ":" y) = false.
Proof.
  induction x as [|c x IH]; [reflexivity|].
  rewrite append_cons. simpl. rewrite IH. apply andb_false_r.
Qed.

Lemma matchModuleName_Some (rest name : string) :
  matchModuleName rest = Some name <-> rest = "::" +:+ name /\ isIdentifier name = true.
Proof.
  unfold matchModuleName. split.
  - destruct rest as [|c1 rest]; [discriminate|].
    destruct rest as [|c2 r]; [destruct c1 as [[] [] [] [] [] [] [] []]; discriminate|].
    destruct c1 as [[] [] [] [] [] [] [] []]; try discriminate.
    destruct c2 as [[] [] [] [] [] [] [] []]; try discriminate.
    destruct (isIdentifier r) eqn:Hid; [|discriminate].
    intros H. injection H as <-. now split.
  - intros [-> Hid]. change ("::" +:+ name) with (String ":" (String ":" name)).
    simpl. now rewrite Hid.
Qed.

Lemma isIdentifier_no_colon (x y : string) : isIdentifier (x +:+ String ":" y) = false.
Proof.
  destruct (isIdentifier (x +:+ String ":" y)) eqn:H; [|reflexivity].
  apply isIdentifier_word in H. now rewrite allWordChars_no_colon in H.
Qed.

Lemma matchModuleName_inside (c : ascii) (file name : string) :
  matchModuleName (String c file +:+ "::" +:+ name) = None.
Proof.
  destruct (matchModuleName (String c file +:+ "::" +:+ name)) as [id|] eqn:H; [|reflexivity].
  apply matchModuleName_Some in H as [Heq Hid].
  rewrite append_cons in Heq.
  change ("::" +:+ id) with (String ":" (String ":" id)) in Heq.
  injection Heq as -> Heq.
  destruct file as [|c2 file].
  - change (EmptyString +:+ "::" +:+ name) with (String ":" (String ":" name)) in Heq.
    injection Heq as Heq. subst id. discriminate Hid.
  - rewrite append_cons in Heq. injection Heq as -> Heq. subst id.
    pose proof (isIdentifier_no_colon file (String ":" name)) as Hno.
    change (String ":" (String ":" name)) with ("::" +:+ name) in Hno. congruence.
Qed.

Lemma requirePattern_from_module (file name : string) :
  hasLineTerminator file = false -> isIdentifier name = true ->
  forall group1,
    requirePattern_from group1 (file +:+ "::" +:+ name) = Some (group1 +:+ file, Some name).
Proof.
  intros Hfile Hname. induction file as [|c file IH]; intros group1.
  - change (EmptyString +:+ "::" +:+ name) with (String ":" (String ":" name)).
    cbn [requirePattern_from].
    rewrite (proj2 (matchModuleName_Some (String ":" (String ":" name)) name)) by now split.
    now rewrite append_empty_r.
  - simpl in Hfile. apply orb_false_elim in Hfile as [Hc Hfile].
    pose proof (matchModuleName_inside c file name) as Hnone.
    rewrite append_cons in *. cbn [requirePattern_from]. rewrite Hnone, Hc.
    rewrite (IH Hfile). now rewrite append_assoc.
Qed.

Lemma requirePattern_from_file (text : string) :
  hasLineTerminator text = false ->
  (forall file name, isIdentifier name = true -> text <> file +:+ "::" +:+ name) ->
  forall group1, requirePattern_from group1 text = Some (group1 +:+ text, None).
Proof.
  induction text as [|c text IH]; intros Hlines Hplain group1.
  - now rewrite append_empty_r.
  - simpl in Hlines. apply orb_false_elim in Hlines as [Hc Hlines].
    cbn [requirePattern_from].
    destruct (matchModuleName (String c text)) as [name|] eqn:Hmatch.
    + apply matchModuleName_Some in Hmatch as [Heq Hid].
      now contradiction (Hplain EmptyString name Hid).
    + rewrite Hc, IH; [now rewrite append_assoc | exact Hlines |].
      intros file name Hid ->. apply (Hplain (String c file) name Hid).
      now rewrite append_cons.
Qed.

Lemma requirePattern_from_lines (text : string) :
  hasLineTerminator text = true ->
  forall group1, requirePattern_from group1 text = None.
Proof.
  induction text as [|c text IH]; intros Hlines group1; [discriminate|].
  cbn [requirePattern_from].
  destruct (matchModuleName (String c text)) as [name|] eqn:Hmatch.
  - exfalso. apply matchModuleName_Some in Hmatch as [Heq Hid].
    apply isIdentifier_word in Hid. rewrite Heq in Hlines.
    change ("::" +:+ name) with (String ":" (String ":" name)) in Hlines.
    simpl in Hlines. clear -Hid Hlines.
    induction name as [|a name IH]; [discriminate|].
    simpl in Hid, Hlines. apply andb_prop in Hid as [Ha Hid].
    apply orb_prop in Hlines as [Hl|Hl]; [|now apply IH].
    unfold isWordChar, isIdentifierStart, isLineTerminator in *.
    destruct (Nat.eqb_spec (nat_of_ascii a) 10) as [E|_];
      [rewrite E in Ha; discriminate|].
    destruct (Nat.eqb_spec (nat_of_ascii a) 13) as [E|_];
      [rewrite E in Ha; discriminate | discriminate].
  - simpl in Hlines. destruct (isLineTerminator c); [reflexivity|]. now apply IH.
Qed.

(** X16: [--require FILE::MODULE] is read back as the file and the
    module. For a file name without a line break, whatever else it
    holds (colons included), and a module name that is an identifier,
    [runRepl] hands [quintRepl] the file name as the file to load and
    the module name as the module to import; the verbosity is 0 with
    [--quiet] and the given verbosity without. *)
Theorem runRepl_file_and_module (file name : string) (q : bool) (v : Z) :
  hasLineTerminator file = false -> isIdentifier name = true ->
  runRepl {| require := Some (file +:+ "::" +:+ name); quiet := q; repl_verbosity := v |}
  = {| preloadFilename := Some file; importModule := Some name;
       options_verbosity := if q then 0 else v |}.
Proof.
  intros Hfile Hname. unfold runRepl, requirePattern_exec. cbn [require quiet repl_verbosity].
  assert (JS.truthyString (Some (file +:+ "::" +:+ name)) = true) as ->.
  { destruct file; reflexivity. }
  cbn [default]. now rewrite (requirePattern_from_module file name Hfile Hname).
Qed.

Lemma runRepl_file_and_module_witness :
  runRepl {| require := Some ("specs/a::b.qnt" +:+ "::" +:+ "Counter_1");
             quiet := true; repl_verbosity := 2 |}
  = {| preloadFilename := Some "specs/a::b.qnt"; importModule := Some "Counter_1";
       options_verbosity := 0 |}.
Proof.
  apply (runRepl_file_and_module "specs/a::b.qnt" "Counter_1" true 2); reflexivity.
Defined.

(** X17: the other texts of [--require]. Without the option, or with
    an empty text, nothing is loaded. A text with a line break does not
    match the pattern, and it is dropped without a message: nothing is
    loaded and nothing imported. A text without a line break that does
    not end in two colons and an identifier is the file name as a
    whole, and no module is imported. *)
Theorem runRepl_other_requires (text : string) (q : bool) (v : Z) :
  let options r := runRepl {| require := r; quiet := q; repl_verbosity := v |} in
  let nothing := {| preloadFilename := None; importModule := None;
                    options_verbosity := if q then 0 else v |} in
  options None = nothing /\ options (Some EmptyString) = nothing
  /\ (hasLineTerminator text = true -> options (Some text) = nothing)
  /\ (text <> EmptyString -> hasLineTerminator text = false ->
      (forall file name, isIdentifier name = true -> text <> file +:+ "::" +:+ name) ->
      options (Some text)
      = {| preloadFilename := Some text; importModule := None;
           options_verbosity := if q then 0 else v |}).
Proof.
  cbv zeta. split; [reflexivity|]. split; [reflexivity|]. split.
  - intros Hlines. unfold runRepl, requirePattern_exec. cbn [require quiet repl_verbosity].
    destruct (JS.truthyString (Some text)); [|reflexivity].
    cbn [default]. now rewrite (requirePattern_from_lines text Hlines).
  - intros Hne Hlines Hplain. unfold runRepl, requirePattern_exec.
    cbn [require quiet repl_verbosity].
    assert (JS.truthyString (Some text) = true) as -> by (destruct text; [contradiction|reflexivity]).
    cbn [default]. now rewrite (requirePattern_from_file text Hlines Hplain).
Qed.


(** ** The configuration of Apalache *)

Ltac lookup_fields :=
  repeat first
    [ rewrite lookup_insert_eq
    | rewrite lookup_insert_ne by discriminate ].

Lemma namedProperty_insert_eq (m : gmap string JsValue) (k : string) (v : JsValue) :
  namedProperty (JsObject (<[k := v]> m)) k = v.
Proof. unfold namedProperty. now rewrite lookup_insert_eq. Qed.

Lemma namedProperty_insert_ne (m : gmap string JsValue) (k k' : string) (v : JsValue) :
  k' <> k -> namedProperty (JsObject (<[k' := v]> m)) k = namedProperty (JsObject m) k.
Proof. intros H. unfold namedProperty. now rewrite lookup_insert_ne. Qed.

Ltac named_properties :=
  repeat first
    [ rewrite namedProperty_insert_eq
    | rewrite namedProperty_insert_ne by discriminate ].

Lemma config_not_nullish a o spec loaded :
  isNullish loaded = false ->
  exists top input checker tuning,
    config a o spec loaded = ([], Val (JsObject top))
    /\ top = <["checker" := JsObject checker]> (<["input" := JsObject input]> (ownProperties loaded))
    /\ input
       = <["source" :=
             JsObject (<["content" := JsString spec]>
                         (<["format" := JsString "qnt"]> (<["type" := JsString "string"]> ∅)))]>
           (ownProperties (namedProperty loaded "input"))
    /\ checker
       = <["tuning" := JsObject tuning]>
           (<["temporal-props" :=
                if JS.truthyString (temporal o) then JsArray [JsString "q::temporalProps"]
                else JsUndefined]>
              (<["inv" :=
                   if JS.truthyString (Some (invariant a)) then JsArray [JsString "q::inv"]
                   else JsUndefined]>
                 (<["next" := JsString "q::step"]>
                    (<["init" := JsString "q::init"]>
                       (<["length" := JsNumber (maxSteps a)]>
                          (ownProperties (namedProperty loaded "checker")))))))
    /\ tuning
       = <["search.simulation" := JsString (if randomTransitions o then "true" else "false")]>
           (ownProperties (namedProperty (namedProperty loaded "checker") "tuning")).
Proof.
  intros Hloaded. unfold config, getNamedPropertyOptional, getNamedProperty. rewrite Hloaded.
  cbv zeta. rewrite !bind_ret_l.
  assert (forall v, ownProperties (orEmptyObject v) = ownProperties v) as Hor.
  { intros v. unfold orEmptyObject. now destruct v. }
  destruct (isNullish (namedProperty loaded "checker")) eqn:Hchecker.
  - rewrite !bind_ret_l, !Hor. eexists _, _, _, _. split; [reflexivity|].
    repeat split. do 2 f_equal.
    now destruct (namedProperty loaded "checker").
  - rewrite !bind_ret_l, !Hor. eexists _, _, _, _. split; [reflexivity|]. now repeat split.
Qed.

(** X18: the command line wins over the configuration file. Whatever
    the file given by [--apalache-config] holds (any JSON value but
    [null]), the configuration handed to Apalache has the length of
    [--max-steps], the initialiser [q::init], the step [q::step], the
    simulation flag of [--random-transitions] and the specification as
    the source of its input; its invariant is [q::inv] when
    [--invariant] is given, and is undefined when it is not, so an
    invariant named in the file is dropped; the same holds for the
    temporal properties. *)
Theorem config_cli_settings a o spec loaded :
  isNullish loaded = false ->
  exists cfg,
    config a o spec loaded = ([], Val cfg)
    /\ let checker := namedProperty cfg "checker" in
       namedProperty checker "length" = JsNumber (maxSteps a)
       /\ namedProperty checker "init" = JsString "q::init"
       /\ namedProperty checker "next" = JsString "q::step"
       /\ namedProperty checker "inv"
          = (if JS.truthyString (Some (invariant a)) then JsArray [JsString "q::inv"]
             else JsUndefined)
       /\ namedProperty checker "temporal-props"
          = (if JS.truthyString (temporal o) then JsArray [JsString "q::temporalProps"]
             else JsUndefined)
       /\ namedProperty (namedProperty checker "tuning") "search.simulation"
          = JsString (if randomTransitions o then "true" else "false")
       /\ namedProperty (namedProperty cfg "input") "source"
          = JsObject (<["content" := JsString spec]>
                        (<["format" := JsString "qnt"]> (<["type" := JsString "string"]> ∅))).
Proof.
  intros Hloaded.
  destruct (config_not_nullish a o spec loaded Hloaded)
    as (top & input & checker & tuning & Hcfg & -> & -> & -> & ->).
  eexists. split; [exact Hcfg|]. cbv zeta. named_properties. now repeat split.
Qed.

Lemma config_cli_settings_witness :
  exists cfg,
    config Sample.arguments
      {| apalacheConfig := Some "apalache.json"; temporal := None; randomTransitions := false;
         serverEndpoint := None; apalacheVersion := None |}
      "{}" (JsObject (<["checker" := JsObject (<["length" := JsNumber 3]> ∅)]> ∅))
    = ([], Val cfg)
    /\ namedProperty (namedProperty cfg "checker") "length" = JsNumber 20.
Proof.
  destruct (config_cli_settings Sample.arguments
              {| apalacheConfig := Some "apalache.json"; temporal := None;
                 randomTransitions := false; serverEndpoint := None; apalacheVersion := None |}
              "{}" (JsObject (<["checker" := JsObject (<["length" := JsNumber 3]> ∅)]> ∅))
              eq_refl) as (cfg & Hcfg & Hlength & _).
  exists cfg. split; [exact Hcfg | exact Hlength].
Defined.

(** X19: the rest of the configuration file is kept. Apart from the
    settings that the command line makes, every property of the file
    reaches Apalache: at the top level all but [input] and [checker],
    in [input] all but [source], in [checker] all but [length], [init],
    [next], [inv], [temporal-props] and [tuning], and in the tuning
    options all but [search.simulation]. *)
Theorem config_keeps_file_settings a o spec loaded :
  isNullish loaded = false ->
  exists cfg,
    config a o spec loaded = ([], Val cfg)
    /\ (forall k, k <> "input" -> k <> "checker" ->
                  ownProperties cfg !! k = ownProperties loaded !! k)
    /\ (forall k, k <> "source" ->
                  ownProperties (namedProperty cfg "input") !! k
                  = ownProperties (namedProperty loaded "input") !! k)
    /\ (forall k, ~ In k ["length"; "init"; "next"; "inv"; "temporal-props"; "tuning"] ->
                  ownProperties (namedProperty cfg "checker") !! k
                  = ownProperties (namedProperty loaded "checker") !! k)
    /\ (forall k, k <> "search.simulation" ->
                  ownProperties (namedProperty (namedProperty cfg "checker") "tuning") !! k
                  = ownProperties (namedProperty (namedProperty loaded "checker") "tuning") !! k).
Proof.
  intros Hloaded.
  destruct (config_not_nullish a o spec loaded Hloaded)
    as (top & input & checker & tuning & Hcfg & -> & -> & -> & ->).
  eexists. split; [exact Hcfg|]. repeat split.
  - intros k Hinput Hchecker. cbn [ownProperties].
    now rewrite !lookup_insert_ne by congruence.
  - intros k Hsource. named_properties. cbn [ownProperties].
    now rewrite lookup_insert_ne by congruence.
  - intros k Hk. named_properties. cbn [ownProperties].
    rewrite !lookup_insert_ne; [reflexivity | | | | | |];
      intros <-; apply Hk; simpl; tauto.
  - intros k Hk. named_properties. cbn [ownProperties].
    now rewrite lookup_insert_ne by congruence.
Qed.

Lemma config_keeps_file_settings_witness :
  exists cfg,
    config Sample.arguments
      {| apalacheConfig := Some "apalache.json"; temporal := None; randomTransitions := false;
         serverEndpoint := None; apalacheVersion := None |}
      "{}" (JsObject (<["checker" := JsObject (<["no-deadlocks" := JsBool true]> ∅)]> ∅))
    = ([], Val cfg)
    /\ ownProperties (namedProperty cfg "checker") !! "no-deadlocks" = Some (JsBool true).
Proof.
  destruct (config_keeps_file_settings Sample.arguments
              {| apalacheConfig := Some "apalache.json"; temporal := None;
                 randomTransitions := false; serverEndpoint := None; apalacheVersion := None |}
              "{}" (JsObject (<["checker" := JsObject (<["no-deadlocks" := JsBool true]> ∅)]> ∅))
              eq_refl) as (cfg & Hcfg & _ & _ & Hchecker & _).
  exists cfg. split; [exact Hcfg|].
  rewrite Hchecker; [reflexivity|].
  simpl. intros [H|[H|[H|[H|[H|[H|[]]]]]]]; discriminate H.
Defined.

(** X20: the names that the configuration refers to are defined. The
    configuration handed to Apalache names [q::init] and [q::step], and
    [compile] adds a definition for each of them to the main module;
    it names [q::inv] exactly when [compile] adds the definition of
    [q::inv], and [q::temporalProps] exactly when [compile] adds the
    definition of [q::temporalProps]: both follow the same options. *)
Theorem config_names_are_defined a o spec loaded :
  isNullish loaded = false ->
  exists cfg,
    config a o spec loaded = ([], Val cfg)
    /\ let checker := namedProperty cfg "checker" in
       let defined prefix := exists text, In text (extraDefsAsText a o)
                                          /\ JS.startsWith prefix text = true in
       namedProperty checker "init" = JsString "q::init" /\ defined "action q::init = "
       /\ namedProperty checker "next" = JsString "q::step" /\ defined "action q::step = "
       /\ (namedProperty checker "inv" = JsArray [JsString "q::inv"]
           <-> defined "val q::inv = ")
       /\ (namedProperty checker "temporal-props" = JsArray [JsString "q::temporalProps"]
           <-> defined "temporal q::temporalProps = ").
Proof.
  intros Hloaded.
  destruct (config_not_nullish a o spec loaded Hloaded)
    as (top & input & checker & tuning & Hcfg & -> & -> & -> & ->).
  eexists. split; [exact Hcfg|]. cbv zeta. named_properties.
  unfold extraDefsAsText.
  split; [reflexivity|]. split; [eexists; split; [left; reflexivity | reflexivity]|].
  split; [reflexivity|].
  split; [eexists; split; [right; left; reflexivity | reflexivity]|].
  split.
  - destruct (JS.truthyString (Some (invariant a))).
    + split; [intros _ | reflexivity].
      eexists. split; [right; right; left; reflexivity | reflexivity].
    + split; [discriminate|]. intros (text & Hin & Hs). exfalso.
      destruct Hin as [<- | [<- | Hin]]; try discriminate Hs.
      destruct (JS.truthyString (temporal o)); [|destruct Hin].
      destruct Hin as [<- | []]. discriminate Hs.
  - destruct (JS.truthyString (temporal o)).
    + split; [intros _ | reflexivity].
      exists ("temporal q::temporalProps = and(" +:+ default EmptyString (temporal o) +:+ ")").
      split; [|reflexivity].
      destruct (JS.truthyString (Some (invariant a))); simpl; tauto.
    + split; [discriminate|]. intros (text & Hin & Hs). exfalso.
      destruct Hin as [<- | [<- | Hin]]; try discriminate Hs.
      destruct (JS.truthyString (Some (invariant a))); [|destruct Hin].
      destruct Hin as [<- | []]. discriminate Hs.
Qed.

Lemma config_names_are_defined_witness :
  exists cfg,
    config Sample.arguments
      {| apalacheConfig := None; temporal := None; randomTransitions := false;
         serverEndpoint := None; apalacheVersion := None |}
      "{}" (JsObject ∅)
    = ([], Val cfg)
    /\ namedProperty (namedProperty cfg "checker") "init" = JsString "q::init".
Proof.
  destruct (config_names_are_defined Sample.arguments
              {| apalacheConfig := None; temporal := None; randomTransitions := false;
                 serverEndpoint := None; apalacheVersion := None |}
              "{}" (JsObject ∅) eq_refl) as (cfg & Hcfg & Hinit & _).
  exists cfg. split; [exact Hcfg | exact Hinit].
Defined.


(** ** Verification with Apalache *)

Lemma config_quiet a o spec loaded : fst (config a o spec loaded) = [].
Proof.
  destruct (isNullish loaded) eqn:Hloaded.
  - unfold config, getNamedProperty. now rewrite Hloaded.
  - now destruct (config_not_nullish a o spec loaded Hloaded) as (? & ? & ? & ? & -> & _).
Qed.

Lemma config_null a o spec :
  config a o spec JsNull
  = ([], Throw "TypeError: Cannot read properties of null (reading 'input')").
Proof. reflexivity. Qed.

Section VerificationProperties.

Variable hasResults hasHints hasStateOutput : Z -> bool.
Variable parsedSpecOf : Stage -> string.
Variable readConfig : string -> Either string JsValue.
Variable verify : option string -> option string -> JsValue -> Z -> Either ApalacheError unit.
Variable ofItf : option (gmap string Json) -> Completion (list QuintEx).

Local Abbreviation verifySpec :=
  (verifySpec hasResults hasHints hasStateOutput parsedSpecOf readConfig verify ofItf).
Local Abbreviation verificationOf := (verificationOf parsedSpecOf readConfig verify).
Local Abbreviation onVerified := (onVerified hasResults hasHints hasStateOutput ofItf).

Lemma outputOnly_warnAboutPlaceholders prev : outputOnly (warnAboutPlaceholders prev).
Proof. unfold warnAboutPlaceholders. cbv zeta. output_only. Qed.

(** A run that reaches [verify]: the warning, and then what is done
    with the answer. *)
Lemma verifySpec_reached env o prev answer :
  verificationOf o prev = Some answer ->
  verifySpec env o prev
  = (warnAboutPlaceholders prev ;;
     onVerified env prev
       (if JS.truthyString (outItf (args prev)) then 0 else deriveVerbosity (args prev))
       answer).
Proof.
  unfold verificationOf, verifySpec. cbv zeta.
  destruct (if JS.truthyString (apalacheConfig o) then _ else _) as [message|loaded];
    [discriminate|].
  pose proof (config_quiet (args prev) o (parsedSpecOf prev) loaded) as Hquiet.
  change (args (with_stage "verifying" prev)) with (args prev).
  destruct (config (args prev) o (parsedSpecOf prev) loaded) as [evs [cfg|exn]];
    [|discriminate].
  simpl in Hquiet. subst evs. intros H. injection H as <-.
  change (@nil Event, Val cfg) with (ret cfg). now rewrite bind_ret_l.
Qed.


(** X21: a configuration file that cannot be used. When the file of
    [--apalache-config] cannot be read or is not JSON, [verifySpec]
    returns the error value [failed to read Apalache config: ...] with
    the message of the exception, at the stage ['verifying'], with an
    empty list of errors and the status left as it was. When the file
    holds the JSON value [null], reading succeeds, and [verifySpec]
    then throws a TypeError instead of returning an error value. *)
Theorem verifySpec_unusable_config env o prev path :
  apalacheConfig o = Some path -> path <> EmptyString ->
  (forall message,
      readConfig path = Left message ->
      exists evs,
        verifySpec env o prev
        = (evs, Val (cliErr ("failed to read Apalache config: " +:+ message)
                       (with_errors [] (with_stage "verifying" prev)))))
  /\ (readConfig path = Right JsNull ->
      exists evs,
        verifySpec env o prev
        = (evs, Throw "TypeError: Cannot read properties of null (reading 'input')")).
Proof.
  intros Hpath Hne.
  assert (JS.truthyString (apalacheConfig o) = true) as Htruthy.
  { rewrite Hpath. simpl. now destruct (String.eqb_spec path EmptyString). }
  split.
  - intros message Hread. unfold verifySpec. cbv zeta.
    rewrite Htruthy, Hpath.
    change (default EmptyString (Some path)) with path. rewrite Hread.
    rewrite seq_outputOnly by apply outputOnly_warnAboutPlaceholders. eexists. reflexivity.
  - intros Hread. unfold verifySpec. cbv zeta.
    rewrite Htruthy, Hpath.
    change (default EmptyString (Some path)) with path. rewrite Hread, config_null.
    rewrite seq_outputOnly by apply outputOnly_warnAboutPlaceholders. eexists. reflexivity.
Qed.

(** The value that [onVerified] returns, case by case. *)
Lemma onVerified_value env prev level answer evs res :
  onVerified env prev level answer = (evs, Val res) ->
  let verifying := with_stage "verifying" prev in
  (answer = Right tt
   /\ res = Right (with_errors [] (with_run ok (st_trace verifying) verifying)))
  \/ (exists err,
         answer = Left err /\ ae_traces err = None
         /\ res = cliErr (ae_explanation err)
                    (with_errors (ae_errors err) (with_run failure None verifying)))
  \/ (exists err traces trace,
         answer = Left err /\ ae_traces err = Some traces
         /\ ofItf (head traces) = Val trace
         /\ res = cliErr (ae_explanation err)
                    (with_errors (ae_errors err) (with_run violation (Some trace) verifying))).
Proof.
  unfold onVerified. cbv zeta. destruct answer as [err|[]].
  - destruct (ae_traces err) as [traces|] eqn:Htraces.
    + intros H. right. right.
      destruct (ofItf (head traces)) as [trace|exn] eqn:Hof; [|discriminate H].
      exists err, traces, trace. repeat split; try assumption.
      apply (f_equal snd) in H. rewrite completion_bind in H. cbn [snd] in H.
      rewrite completion_bind in H.
      destruct (snd (maybePrintCounterExample _ _ _ _)); [|discriminate H].
      rewrite completion_bind in H.
      destruct (snd (when (hasResults level) _)); [|discriminate H].
      rewrite completion_bind in H.
      destruct (snd (when (JS.truthyString _) _)); [|discriminate H].
      cbn in H. now injection H as <-.
    + intros H. right. left. exists err. injection H as _ <-. now repeat split.
  - intros H. left. split; [reflexivity|].
    apply (f_equal snd) in H. rewrite completion_bind in H.
    destruct (snd (when _ _)); [|discriminate H]. cbn in H. now injection H as <-.
Qed.

(** X22: the status of a verification. When [verifySpec] returns after
    [verify] has answered, the stage is ['verifying'] and its status is
    ['ok'] exactly for a success of [verify], ['violation'] exactly for
    an error that carries traces, and ['failure'] exactly for an error
    without traces; the value is a success exactly for ['ok'], and an
    error value carries the explanation and the errors of [verify]. *)
Theorem verifySpec_status env o prev answer evs res :
  verificationOf o prev = Some answer ->
  verifySpec env o prev = (evs, Val res) ->
  let s := st_status (stageOf res) in
  (s = Some ok <-> answer = Right tt)
  /\ (s = Some violation <-> exists err traces, answer = Left err /\ ae_traces err = Some traces)
  /\ (s = Some failure <-> exists err, answer = Left err /\ ae_traces err = None)
  /\ (isRight res = true <-> s = Some ok)
  /\ (forall err, answer = Left err ->
        exists e, res = Left e /\ msg e = ae_explanation err
                  /\ st_errors (err_stage e) = ae_errors err)
  /\ stage (stageOf res) = "verifying".
Proof.
  intros Hanswer Hrun. rewrite (verifySpec_reached env o prev answer Hanswer) in Hrun.
  rewrite seq_outputOnly in Hrun by apply outputOnly_warnAboutPlaceholders.
  assert (onVerified env prev
            (if JS.truthyString (outItf (args prev)) then 0 else deriveVerbosity (args prev))
            answer
          = (fst (onVerified env prev
                    (if JS.truthyString (outItf (args prev)) then 0
                     else deriveVerbosity (args prev)) answer), Val res)) as Hverified.
  { injection Hrun as _ Hres. rewrite <- Hres. apply surjective_pairing. }
  apply onVerified_value in Hverified. cbv zeta in Hverified. cbv zeta.
  destruct Hverified as [[-> ->] | [(err & -> & Htraces & ->) | (err & traces & trace & -> & Htraces & _ & ->)]];
    cbn [stageOf cliErr err_stage st_status with_errors with_run isRight stage with_stage].
  all: repeat split; intros;
    repeat match goal with
           | H : exists _, _ |- _ => destruct H
           | H : _ /\ _ |- _ => destruct H
           end;
    try congruence;
    try match goal with H : Left _ = Left _ |- _ => injection H as <- end;
    solve [ eexists; repeat split; eauto | eexists _, _; repeat split; eauto ].
Qed.

Lemma onVerified_files env prev level answer evs res :
  onVerified env prev level answer = (evs, Val res) ->
  filesWritten evs
  = match answer with
    | Left err =>
        match ae_traces err with
        | Some (t :: _) =>
            if JS.truthyString (outItf (args prev))
            then [(default EmptyString (outItf (args prev)), ItfJson t)] else []
        | _ => []
        end
    | Right _ => []
    end.
Proof.
  unfold onVerified, maybePrintCounterExample. cbv zeta. destruct answer as [err|[]].
  - destruct (ae_traces err) as [traces|]; [|now intros H; injection H as <- _].
    destruct (ofItf (head traces)) as [trace|exn]; [|discriminate].
    destruct traces as [|t traces]; cbn [head];
      destruct (JS.truthyString (outItf (args prev)));
      destruct (hasStateOutput level), (hasResults level);
      cbn; intros H; try discriminate H; now injection H as <- _.
  - destruct (hasResults level), (hasHints level); cbn; intros H; now injection H as <- _.
Qed.

(** X23: the counterexample of a verification and [--out-itf]. When
    the template of [--out-itf] holds [{test}] or [{seq}], the first
    thing [verifySpec] does is to print the warning that they have no
    effect, at every verbosity. When [verifySpec] returns after
    [verify] has answered, it has written a file only for an error with
    traces and with [--out-itf] given: one file, named by the text of
    [--out-itf] as it stands, which holds the first trace as [verify]
    gave it. *)
Theorem verifySpec_out_itf env o prev :
  (JS.truthyString (outItf (args prev)) = true ->
   JS.includes PLACEHOLDERS_test (default EmptyString (outItf (args prev))) = true
   \/ JS.includes PLACEHOLDERS_seq (default EmptyString (outItf (args prev))) = true ->
   exists rest, fst (verifySpec env o prev) = ConsoleLog placeholderWarning :: rest)
  /\ (forall answer evs res,
         verificationOf o prev = Some answer ->
         verifySpec env o prev = (evs, Val res) ->
         filesWritten evs
         = match answer with
           | Left err =>
               match ae_traces err with
               | Some (t :: _) =>
                   if JS.truthyString (outItf (args prev))
                   then [(default EmptyString (outItf (args prev)), ItfJson t)] else []
               | _ => []
               end
           | Right _ => []
           end).
Proof.
  split.
  - intros Hitf Hplaceholders. unfold verifySpec. cbv zeta.
    rewrite events_bind. unfold warnAboutPlaceholders. cbv zeta. rewrite Hitf.
    replace (JS.includes PLACEHOLDERS_test _ || JS.includes PLACEHOLDERS_seq _) with true
      by (destruct Hplaceholders as [-> | ->]; [reflexivity | now rewrite orb_true_r]).
    eexists. reflexivity.
  - intros answer evs res Hanswer Hrun.
    rewrite (verifySpec_reached env o prev answer Hanswer) in Hrun.
    rewrite seq_outputOnly in Hrun by apply outputOnly_warnAboutPlaceholders.
    injection Hrun as <- Hres. rewrite filesWritten_app.
    replace (filesWritten (fst (warnAboutPlaceholders prev))) with (@nil (string * Written))
      by (unfold warnAboutPlaceholders; cbv zeta; now destruct (_ && _)).
    cbn [app]. eapply onVerified_files.
    rewrite <- Hres. apply surjective_pairing.
Qed.

(** X26: a silenced verification. When [--out] or [--out-itf] is given
    (a non-empty text), [verifySpec] reads the verbosity as 0; when the
    verbosity table shows neither results nor states at level 0, the
    only thing that [verifySpec] can write to the standard output is
    the warning about the placeholders of [--out-itf]: no verdict line,
    no counterexample, no hints. *)
Theorem verifySpec_silent env o prev :
  JS.truthyString (out (args prev)) = true \/ JS.truthyString (outItf (args prev)) = true ->
  hasResults 0 = false -> hasStateOutput 0 = false ->
  Forall (fun ev => toStdout ev = true -> ev = ConsoleLog placeholderWarning)
         (fst (verifySpec env o prev)).
Proof.
  intros Hor Hres Hstates.
  change (eventsAll (fun ev => toStdout ev = true -> ev = ConsoleLog placeholderWarning)
            (verifySpec env o prev)).
  unfold verifySpec, deriveVerbosity. cbv zeta.
  replace (if JS.truthyString (outItf (args prev)) then 0
           else if JS.truthyString (out (args prev)) then 0 else verbosity (args prev))
    with 0
    by (destruct (JS.truthyString (outItf (args prev))),
                 (JS.truthyString (out (args prev)));
        try reflexivity; destruct Hor; discriminate).
  apply eventsAll_bind.
  { unfold warnAboutPlaceholders. cbv zeta. apply eventsAll_when, eventsAll_emit. reflexivity. }
  intros _. destruct (if JS.truthyString (apalacheConfig o) then _ else _) as [message|loaded];
    [apply eventsAll_ret|].
  apply eventsAll_bind; [apply eventsAll_nil, config_quiet|]. intros cfg.
  unfold onVerified, maybePrintCounterExample. cbv zeta. rewrite Hres, Hstates. cbn [when].
  destruct (verify _ _ _ _) as [err|u].
  - destruct (ae_traces err) as [traces|]; [|apply eventsAll_ret].
    apply eventsAll_bind; [apply eventsAll_nil; reflexivity|]. intros trace.
    apply eventsAll_bind; [apply eventsAll_ret|]. intros _.
    apply eventsAll_bind; [apply eventsAll_ret|]. intros _.
    apply eventsAll_bind; [|intros _; apply eventsAll_ret].
    apply eventsAll_when. destruct (head traces); [|apply eventsAll_throw].
    apply eventsAll_emit. discriminate.
  - apply eventsAll_bind; [apply eventsAll_ret | intros _; apply eventsAll_ret].
Qed.

End VerificationProperties.


Lemma verifySpec_unusable_config_witness :
  exists evs,
    VerifySample.verifySpec (Sample.env 4) (VerifySample.options (Some "null.json"))
      Sample.violatingStage
    = (evs, Throw "TypeError: Cannot read properties of null (reading 'input')").
Proof.
  apply (proj2 (verifySpec_unusable_config Sample.hasResults Sample.hasHints
                  Sample.hasStateOutput VerifySample.parsedSpecOf VerifySample.readConfig
                  VerifySample.verify VerifySample.ofItf (Sample.env 4)
                  (VerifySample.options (Some "null.json")) Sample.violatingStage "null.json"
                  eq_refl ltac:(discriminate))).
  reflexivity.
Defined.

Lemma verifySpec_status_witness :
  exists answer evs res,
    VerifySample.verificationOf (VerifySample.options None) Sample.itfStage = Some answer
    /\ VerifySample.verifySpec (Sample.env 4) (VerifySample.options None) Sample.itfStage
       = (evs, Val res)
    /\ (st_status (stageOf res) = Some violation
        <-> exists err traces, answer = Left err /\ ae_traces err = Some traces).
Proof.
  eexists _, _, _. split; [reflexivity|]. split; [reflexivity|].
  refine (proj1 (proj2 (verifySpec_status Sample.hasResults Sample.hasHints
                          Sample.hasStateOutput VerifySample.parsedSpecOf
                          VerifySample.readConfig VerifySample.verify VerifySample.ofItf
                          (Sample.env 4) (VerifySample.options None) Sample.itfStage
                          _ _ _ _ _))); reflexivity.
Defined.

Lemma verifySpec_out_itf_witness :
  filesWritten
    (fst (VerifySample.verifySpec (Sample.env 4) (VerifySample.options None) Sample.itfStage))
  = [("trace.itf.json", ItfJson VerifySample.counterexample)].
Proof.
  erewrite (proj2 (verifySpec_out_itf Sample.hasResults Sample.hasHints
                     Sample.hasStateOutput VerifySample.parsedSpecOf VerifySample.readConfig
                     VerifySample.verify VerifySample.ofItf (Sample.env 4)
                     (VerifySample.options None) Sample.itfStage)); cycle 1.
  - reflexivity.
  - reflexivity.
  - reflexivity.
Defined.

Lemma verifySpec_silent_witness :
  Forall (fun ev => toStdout ev = true -> ev = ConsoleLog placeholderWarning)
         (fst (VerifySample.verifySpec (Sample.env 4) (VerifySample.options None)
                 Sample.itfStage)).
Proof.
  apply (verifySpec_silent Sample.hasResults Sample.hasHints Sample.hasStateOutput
           VerifySample.parsedSpecOf VerifySample.readConfig VerifySample.verify
           VerifySample.ofItf (Sample.env 4) (VerifySample.options None) Sample.itfStage).
  - right. reflexivity.
  - reflexivity.
  - reflexivity.
Defined.
